(** * Esprit: LLM dispatch layer, account pool, pricing catalog, telemetry fan-out

    A shallow embedding of the parts of the Esprit sources that the
    specification's testable properties talk about:

    - [Py]       : the Python string and truthiness primitives the sources use;
    - [Pricing]  : esprit/llm/pricing.py ([_tiered_cost], [calculate_cost],
                   [PricingDB._resolve_model], [PricingDB.get_cost]);
    - [Accounts] : esprit/providers/account_pool.py ([AccountPool]);
    - [Dispatch] : esprit/llm/llm.py ([LLM._stream], [LLM.generate],
                   [LLM._try_rotate_on_rate_limit]);
    - [Fanout]   : esprit/gui/tracer_bridge.py ([TracerBridge._detect_deltas],
                   [TracerBridge._get_stats]).

    Conventions.  Python [int] is [Z]; [str] is [string] (ASCII); [None] is
    [option]; a [dict] whose iteration order is observable is an association
    list, one that is only looked up is a [gmap]; every read of the wall clock
    ([time.time()], [datetime.now()]) is an explicit argument.  The Python
    [float]s of the price catalog and of the statistics are exact rationals
    ([Q]) in the general statements, and the concrete pricing scenario is
    also run on IEEE binary64; the reset delay of the account pool, which
    goes through [int(reset_seconds * 1000)], is IEEE binary64 ([float]).
    An exception that leaves a function is an [option] or a dedicated
    result type.

    The definitions come first, module by module, each followed by the
    predicates and sample data its properties are stated with; the
    properties follow in [PricingFacts], [AccountsFacts], [DispatchFacts]
    and [FanoutFacts]. *)

From Stdlib Require Import ZArith QArith Qround String Ascii List Lia Bool Floats Uint63.
From stdpp Require Import gmap strings list.

Set Warnings "-inexact-float".
Local Open Scope Z_scope.

(* ===================================================================== *)
(** ** Python primitives *)
(* ===================================================================== *)

Module Py.

(** [bool(x)] for an optional integer: [None] and [0] are falsy. *)
Definition truthy_int (o : option Z) : bool :=
  match o with
  | Some z => negb (z =? 0)
  | None => false
  end.

(** [bool(s)] for a string: only the empty string is falsy. *)
Definition truthy_str (s : string) : bool :=
  match s with
  | EmptyString => false
  | String _ _ => true
  end.

(** [bool(x)] for an optional string. *)
Definition truthy_ostr (o : option string) : bool :=
  match o with
  | Some s => truthy_str s
  | None => false
  end.

(** [s.startswith(p)] *)
Fixpoint startswith (s p : string) : bool :=
  match p with
  | EmptyString => true
  | String c p' =>
      match s with
      | EmptyString => false
      | String d s' => Ascii.eqb c d && startswith s' p'
      end
  end.

(** [s.find(pat)]; [None] stands for [-1]. *)
Fixpoint find (s pat : string) : option nat :=
  if startswith s pat then Some 0%nat
  else match s with
       | EmptyString => None
       | String _ s' => option_map S (find s' pat)
       end.

(** [pat in s] *)
Definition contains (s pat : string) : bool :=
  match find s pat with
  | Some _ => true
  | None => false
  end.

(** [s[:n]] *)
Fixpoint take (n : nat) (s : string) : string :=
  match n, s with
  | S n', String c s' => String c (take n' s')
  | _, _ => EmptyString
  end.

(** [s[n:]] *)
Fixpoint drop (n : nat) (s : string) : string :=
  match n, s with
  | S n', String _ s' => drop n' s'
  | _, _ => s
  end.

(** [s.split(sep, 1)[-1]]: what follows the first [sep], or [s] itself. *)
Definition split1_last (s sep : string) : string :=
  match find s sep with
  | Some i => drop (i + String.length sep) s
  | None => s
  end.

(** [s.split(sep, 1)[0]] *)
Definition split1_first (s sep : string) : string :=
  match find s sep with
  | Some i => take i s
  | None => s
  end.

Definition lower_ascii (c : ascii) : ascii :=
  let n := nat_of_ascii c in
  if ((65 <=? n) && (n <=? 90))%nat then ascii_of_nat (n + 32) else c.

(** [s.lower()] on ASCII text *)
Fixpoint lower (s : string) : string :=
  match s with
  | EmptyString => EmptyString
  | String c s' => String (lower_ascii c) (lower s')
  end.

(** [c.isdigit()] on ASCII text *)
Definition isdigit (c : ascii) : bool :=
  let n := nat_of_ascii c in ((48 <=? n) && (n <=? 57))%nat.

(** [a is a prefix of b], as a proposition. *)
Definition is_prefix (a b : string) : Prop := exists rest, b = (a ++ rest)%string.

End Py.

(* ===================================================================== *)
(** ** esprit/llm/pricing.py *)
(* ===================================================================== *)

Module Pricing.

(** The arithmetic [pricing.py] performs on Python floats: the literal
    [0.0], the promotion of an [int] operand, [+], [*] and the test [x > 0].
    The properties are proved over exact rationals ([PyFloat_Q]); the same
    definitions run on IEEE binary64 ([PyFloat_binary64]) for the concrete
    scenario. *)
Class PyFloat (F : Type) := {
  fzero : F;
  of_int : Z -> F;
  fadd : F -> F -> F;
  fmul : F -> F -> F;
  fpos : F -> bool
}.

#[export] Instance PyFloat_Q : PyFloat Q := {|
  fzero := 0%Q;
  of_int := inject_Z;
  fadd := Qplus;
  fmul := Qmult;
  fpos := fun x => negb (Qle_bool x 0)
|}.

Definition float_of_Z (z : Z) : float :=
  if z <? 0 then PrimFloat.opp (PrimFloat.of_uint63 (Uint63.of_Z (- z)))
  else PrimFloat.of_uint63 (Uint63.of_Z z).

#[export] Instance PyFloat_binary64 : PyFloat float := {|
  fzero := 0%float;
  of_int := float_of_Z;
  fadd := PrimFloat.add;
  fmul := PrimFloat.mul;
  fpos := fun x => PrimFloat.ltb 0%float x
|}.

(** Tiered pricing threshold (Claude charges more above this). *)
Definition _TIERED_THRESHOLD : Z := 200000.

(** Provider prefixes to try when looking up a model. *)
Definition _PROVIDER_PREFIXES : list string :=
  ["anthropic/"; "openai/"; "gemini/"; "azure/"; "claude-"]%string.

(** Aliases: model names absent from the pricing DB, mapped to their
    pricing-equivalent model. *)
Definition _MODEL_ALIASES : list (string * string) :=
  [ ("claude-opus-4-6-thinking", "claude-opus-4-6");
    ("claude-opus-4-5-thinking", "claude-opus-4-5");
    ("claude-sonnet-4-5-thinking", "claude-sonnet-4-5");
    ("gemini-2.5-flash-thinking", "gemini-2.5-flash");
    ("gemini-2.5-flash-lite", "gemini-2.5-flash");
    ("gemini-3-flash", "gemini-3-flash-preview");
    ("gemini-3-pro-high", "gemini-3-pro-preview");
    ("gemini-3-pro-low", "gemini-3-pro-preview");
    ("gemini-3-pro-image", "gemini-3-pro-image-preview");
    ("gpt-5.3-codex", "gpt-5");
    ("gpt-5.2-codex", "gpt-5");
    ("gpt-5.1-codex", "gpt-5");
    ("gpt-5.1-codex-max", "gpt-5");
    ("gpt-5.1-codex-mini", "gpt-5-mini");
    ("gpt-5-codex", "gpt-5");
    ("gpt-5-codex-mini", "gpt-5-mini") ]%string.

(** [class ModelPricing]: per-token pricing for a single model. *)
Record ModelPricing (F : Type) := mkModelPricing {
  input_cost : F;
  output_cost : F;
  cache_write_cost : F;
  cache_read_cost : F;
  input_cost_above : F;
  output_cost_above : F;
  cache_write_cost_above : F;
  cache_read_cost_above : F;
  max_input_tokens : Z
}.
Arguments mkModelPricing {F}.
Arguments input_cost {F}.
Arguments output_cost {F}.
Arguments cache_write_cost {F}.
Arguments cache_read_cost {F}.
Arguments input_cost_above {F}.
Arguments output_cost_above {F}.
Arguments cache_write_cost_above {F}.
Arguments cache_read_cost_above {F}.
Arguments max_input_tokens {F}.

(** [d.get(k)] on a dict kept in insertion order. *)
Fixpoint dict_get {V : Type} (d : list (string * V)) (k : string) : option V :=
  match d with
  | [] => None
  | (k', v) :: d' => if String.eqb k' k then Some v else dict_get d' k
  end.

(** The first candidate key present in the dict ([for candidate in ...:
    if candidate in self._data: return self._data[candidate]]). *)
Fixpoint first_hit {V : Type} (d : list (string * V)) (keys : list string) : option V :=
  match keys with
  | [] => None
  | k :: keys' =>
      match dict_get d k with
      | Some v => Some v
      | None => first_hit d keys'
      end
  end.

Section Costs.
Context {F : Type} `{PyFloat F}.

(** [_tiered_cost(tokens, base_rate, above_rate, threshold)] *)
Definition _tiered_cost (tokens : Z) (base_rate above_rate : F) (threshold : Z) : F :=
  if tokens <=? 0 then fzero
  else if (threshold <? tokens) && fpos above_rate then
    let below := Z.min tokens threshold in
    let above := tokens - threshold in
    fadd (fmul (of_int below) base_rate) (fmul (of_int above) above_rate)
  else fmul (of_int tokens) base_rate.

(** [calculate_cost(pricing, input_tokens, output_tokens, cached_tokens)] *)
Definition calculate_cost (pricing : ModelPricing F)
    (input_tokens output_tokens cached_tokens : Z) : F :=
  let regular_input := Z.max 0 (input_tokens - cached_tokens) in
  let input_cost_ :=
    _tiered_cost regular_input (input_cost pricing) (input_cost_above pricing)
      _TIERED_THRESHOLD in
  let output_cost_ :=
    _tiered_cost output_tokens (output_cost pricing) (output_cost_above pricing)
      _TIERED_THRESHOLD in
  let cache_read :=
    _tiered_cost cached_tokens (cache_read_cost pricing) (cache_read_cost_above pricing)
      _TIERED_THRESHOLD in
  fadd (fadd input_cost_ output_cost_) cache_read.

(** [bare = model.split("/", 1)[-1] if "/" in model else model] *)
Definition bare_of (model : string) : string :=
  if Py.contains model "/" then Py.split1_last model "/" else model.

(** [not rest or rest[0] in ("-", ".", ":") or rest[0].isdigit()] *)
Definition on_boundary (rest : string) : bool :=
  match rest with
  | EmptyString => true
  | String c _ =>
      Ascii.eqb c "-" || Ascii.eqb c "." || Ascii.eqb c ":" || Py.isdigit c
  end.

(** One iteration of the fuzzy longest-prefix loop over [self._data.items()];
    the loop state is [(best, best_len)]. *)
Definition fuzzy_step (bare_lower : string)
    (st : option (ModelPricing F) * nat) (kv : string * ModelPricing F)
    : option (ModelPricing F) * nat :=
  let key_bare :=
    if Py.contains (fst kv) "/" then Py.lower (Py.split1_last (fst kv) "/")
    else Py.lower (fst kv) in
  if Py.startswith bare_lower key_bare && (snd st <? String.length key_bare)%nat then
    if on_boundary (Py.drop (String.length key_bare) bare_lower)
    then (Some (snd kv), String.length key_bare)
    else st
  else if Py.startswith key_bare bare_lower && (snd st <? String.length bare_lower)%nat then
    if on_boundary (Py.drop (String.length bare_lower) key_bare)
    then (Some (snd kv), String.length bare_lower)
    else st
  else st.

Definition fuzzy_match (data : list (string * ModelPricing F)) (bare : string)
    : option (ModelPricing F) :=
  fst (fold_left (fuzzy_step (Py.lower bare)) data (None, 0%nat)).

(** [PricingDB._resolve_model(model, _seen)].  The recursion through the
    alias table is bounded by [fuel]; the outer [None] means the bound was
    reached ([resolve_fuel_total] below shows it never is at the bound
    [_resolve_model] uses). *)
Fixpoint resolve_fuel (fuel : nat) (data : list (string * ModelPricing F))
    (model : string) (seen : list string) : option (option (ModelPricing F)) :=
  match fuel with
  | O => None
  | S fuel' =>
      let bare := bare_of model in
      match first_hit data [model; bare] with
      | Some p => Some (Some p)
      | None =>
          match first_hit data (map (fun prefix => (prefix ++ bare)%string) _PROVIDER_PREFIXES) with
          | Some p => Some (Some p)
          | None =>
              match dict_get _MODEL_ALIASES bare with
              | Some alias =>
                  if Py.truthy_str alias && negb (existsb (String.eqb alias) seen)
                  then resolve_fuel fuel' data alias (alias :: seen)
                  else Some (fuzzy_match data bare)
              | None => Some (fuzzy_match data bare)
              end
          end
      end
  end.

Definition _resolve_model (data : list (string * ModelPricing F)) (model : string)
    : option (ModelPricing F) :=
  match resolve_fuel 2 data model [] with
  | Some r => r
  | None => None
  end.

(** [PricingDB.get_cost(model, input_tokens, output_tokens, cached_tokens)],
    on the loaded table [self._data]. *)
Definition get_cost (data : list (string * ModelPricing F)) (model : string)
    (input_tokens output_tokens cached_tokens : Z) : F :=
  match _resolve_model data model with
  | None => fzero
  | Some pricing => calculate_cost pricing input_tokens output_tokens cached_tokens
  end.

(** [PricingDB.get_context_limit(model)] *)
Definition get_context_limit (data : list (string * ModelPricing F)) (model : string) : Z :=
  match _resolve_model data model with
  | Some pricing => if 0 <? max_input_tokens pricing then max_input_tokens pricing else 128000
  | None => 128000
  end.

End Costs.

(** The pricing entry of the specification's cache-pricing scenario. *)
Definition scenario_pricing : ModelPricing Q :=
  mkModelPricing 0.000005%Q 0.000015%Q 0%Q 0.0000005%Q 0%Q 0%Q 0%Q 0%Q 0.

Definition scenario_pricing_binary64 : ModelPricing float :=
  mkModelPricing 5e-6%float 15e-6%float 0%float 5e-7%float 0%float 0%float 0%float 0%float 0.

Definition scenario_db : list (string * ModelPricing Q) :=
  [ ("scenario-model"%string, scenario_pricing) ].

(** A pricing entry with tiered rates, and a small table around it. *)
Definition tiered_pricing : ModelPricing Q :=
  mkModelPricing 0.000003%Q 0.000015%Q 0.00000375%Q 0.0000003%Q
                 0.000006%Q 0.0000225%Q 0.0000075%Q 0.0000006%Q 1000000.

Definition sample_db : list (string * ModelPricing Q) :=
  [ ("claude-sonnet-4-5"%string, tiered_pricing);
    ("openai/gpt-5"%string, scenario_pricing) ].

(** A term of the cost formula is [tiered] when it charges the base rate
    for everything up to the threshold (and for everything when the
    "above" rate is zero), and the "above" rate only for the tokens beyond
    the threshold. *)
Definition tiered (tokens : Z) (rate above cost : Q) : Prop :=
  ((tokens <= 200000)%Z \/ (above == 0)%Q -> (cost == inject_Z tokens * rate)%Q)
  /\ ((200000 < tokens)%Z -> (0 < above)%Q ->
      (cost == inject_Z 200000 * rate + inject_Z (tokens - 200000) * above)%Q).

End Pricing.

(* ===================================================================== *)
(** ** esprit/providers/account_pool.py *)
(* ===================================================================== *)

Module Accounts.

(** Escalating backoff for consecutive 429s on the same account. *)
Definition BACKOFF_TIERS_S : list Z := [60; 300; 1800; 7200].
Definition BACKOFF_RESET_S : Z := 120.

(** [OAuthCredentials] (esprit.providers.base): the pool only stores it and
    hands it back, so it is carried as its serialized fields. *)
Record OAuthCredentials := mkCredentials {
  cred_type : string;
  access_token : option string;
  refresh_token : option string;
  expires_at : option Z
}.

(** [@dataclass AccountEntry].  The stored form (one dict of accounts.json,
    as [_account_to_dict] writes it, every key present) and the loaded form
    carry the same fields, so one record serves for both. *)
Record AccountEntry := mkAccount {
  email : string;
  credentials : OAuthCredentials;
  account_id : option string;
  enabled : bool;
  added_at : Z;
  last_used : option Z;
  rate_limits : gmap string Z;
  cooling_until : option Z;
  consecutive_429s : Z;
  last_429_at : option Z
}.

Definition set_last_used (v : option Z) (a : AccountEntry) : AccountEntry :=
  mkAccount (email a) (credentials a) (account_id a) (enabled a) (added_at a)
    v (rate_limits a) (cooling_until a) (consecutive_429s a) (last_429_at a).

Definition set_rate_limits (v : gmap string Z) (a : AccountEntry) : AccountEntry :=
  mkAccount (email a) (credentials a) (account_id a) (enabled a) (added_at a)
    (last_used a) v (cooling_until a) (consecutive_429s a) (last_429_at a).

Definition set_cooling_until (v : option Z) (a : AccountEntry) : AccountEntry :=
  mkAccount (email a) (credentials a) (account_id a) (enabled a) (added_at a)
    (last_used a) (rate_limits a) v (consecutive_429s a) (last_429_at a).

Definition set_consecutive_429s (v : Z) (a : AccountEntry) : AccountEntry :=
  mkAccount (email a) (credentials a) (account_id a) (enabled a) (added_at a)
    (last_used a) (rate_limits a) (cooling_until a) v (last_429_at a).

Definition set_last_429_at (v : option Z) (a : AccountEntry) : AccountEntry :=
  mkAccount (email a) (credentials a) (account_id a) (enabled a) (added_at a)
    (last_used a) (rate_limits a) (cooling_until a) (consecutive_429s a) v.

(** One provider's pool: [{"accounts": [...], "active_index": ..., "strategy": ...}]. *)
Record Pool := mkPool {
  accounts : list AccountEntry;
  active_index : Z;
  strategy : string
}.

Definition default_pool : Pool := mkPool [] 0 "sticky".

(** The [AccountPool] object: the content of accounts.json ([None] when the
    file is missing or unreadable) and the in-memory cache [self._pools]. *)
Record AccountPool := mkAccountPool {
  accounts_file : option (gmap string Pool);
  _pools : option (gmap string Pool)
}.

(** [_load]: the cache once filled is never re-read from the file. *)
Definition _load (self : AccountPool) : gmap string Pool * AccountPool :=
  match _pools self with
  | Some pools => (pools, self)
  | None =>
      let pools := default ∅ (accounts_file self) in
      (pools, mkAccountPool (accounts_file self) (Some pools))
  end.

(** [_save]: writes [{"version": 1, "pools": self._load()}] over the file. *)
Definition _save (self : AccountPool) : AccountPool :=
  let '(pools, self1) := _load self in
  mkAccountPool (Some pools) (_pools self1).

(** [_get_pool]: inserts the default pool for an unknown provider (in the
    cache only). *)
Definition _get_pool (self : AccountPool) (provider_id : string) : Pool * AccountPool :=
  let '(pools, self1) := _load self in
  match pools !! provider_id with
  | Some pool => (pool, self1)
  | None =>
      (default_pool,
       mkAccountPool (accounts_file self1) (Some (<[provider_id := default_pool]> pools)))
  end.

(** Assignment to a key of the pool dict that [_get_pool] returned: the dict
    is the cached one, so the cache changes. *)
Definition put_pool (self : AccountPool) (provider_id : string) (pool : Pool) : AccountPool :=
  let '(pools, self1) := _load self in
  mkAccountPool (accounts_file self1) (Some (<[provider_id := pool]> pools)).

(** [_load_accounts] *)
Definition _load_accounts (self : AccountPool) (provider_id : string)
    : list AccountEntry * AccountPool :=
  let '(pool, self1) := _get_pool self provider_id in
  (accounts pool, self1).

(** [_save_accounts] *)
Definition _save_accounts (self : AccountPool) (provider_id : string)
    (accts : list AccountEntry) : AccountPool :=
  let '(pool, self1) := _get_pool self provider_id in
  _save (put_pool self1 provider_id (mkPool accts (active_index pool) (strategy pool))).

(** The body of [_clear_expired_limits] for one account. *)
Definition clear_expired (now_ms : Z) (acct : AccountEntry) : AccountEntry :=
  let a1 :=
    set_rate_limits (filter (fun kv : string * Z => ¬ (snd kv <= now_ms)) (rate_limits acct)) acct in
  let a2 :=
    if Py.truthy_int (cooling_until a1) && (default 0 (cooling_until a1) <=? now_ms)
    then set_cooling_until None a1 else a1 in
  if Py.truthy_int (last_429_at a2)
     && (BACKOFF_RESET_S * 1000 <? now_ms - default 0 (last_429_at a2))
  then set_consecutive_429s 0 a2 else a2.

(** [_clear_expired_limits(accounts, now_ms)] *)
Definition _clear_expired_limits (accts : list AccountEntry) (now_ms : Z) : list AccountEntry :=
  map (clear_expired now_ms) accts.

(** What [_clear_expired_limits] leaves behind in the cache when the cleared
    accounts are not saved: each loaded [AccountEntry] shares its
    [rate_limits] dict with the cached pool ([rate_limits=d.get("rate_limits", {})]),
    so the [del acct.rate_limits[m]] reach the cache; [cooling_until] and
    [consecutive_429s] are attributes of the loaded copy only. *)
Definition alias_rate_limits (self : AccountPool) (provider_id : string)
    (cleared : list AccountEntry) : AccountPool :=
  let '(pool, self1) := _get_pool self provider_id in
  put_pool self1 provider_id
    (mkPool (zip_with (fun stored c => set_rate_limits (rate_limits c) stored)
               (accounts pool) cleared)
            (active_index pool) (strategy pool)).

(** [enumerate(accounts)] with integer indices. *)
Fixpoint enumerate_from {A : Type} (i : Z) (l : list A) : list (Z * A) :=
  match l with
  | [] => []
  | x :: l' => (i, x) :: enumerate_from (i + 1) l'
  end.

Definition enumerate {A : Type} (l : list A) : list (Z * A) := enumerate_from 0 l.

(** [a.enabled and (not a.cooling_until or a.cooling_until <= now_ms)] *)
Definition not_cooling (now_ms : Z) (a : AccountEntry) : bool :=
  enabled a && (negb (Py.truthy_int (cooling_until a)) || (default 0 (cooling_until a) <=? now_ms)).

(** The sort key [(x[0] <= active_idx, x[0])] and its order ([False < True]). *)
Definition rr_key (active_idx : Z) (x : Z * AccountEntry) : bool * Z :=
  (fst x <=? active_idx, fst x).

Definition key_le (k1 k2 : bool * Z) : bool :=
  match fst k1, fst k2 with
  | false, true => true
  | true, false => false
  | _, _ => snd k1 <=? snd k2
  end.

(** [list.sort(key=...)]: a stable insertion sort. *)
Fixpoint insert_by {A K : Type} (le : K -> K -> bool) (key : A -> K) (x : A) (l : list A) : list A :=
  match l with
  | [] => [x]
  | y :: l' => if le (key x) (key y) then x :: y :: l' else y :: insert_by le key x l'
  end.

Definition sort_by {A K : Type} (le : K -> K -> bool) (key : A -> K) (l : list A) : list A :=
  foldr (insert_by le key) [] l.

(** The selection shared, line for line, by [peek_best_account] and
    [get_best_account]: from the cleared accounts to the chosen
    [(index, account)]. *)
Definition available_accounts (accts : list AccountEntry) (now_ms : Z) : list (Z * AccountEntry) :=
  let available := filter (fun x => not_cooling now_ms (snd x) = true) (enumerate accts) in
  match available with
  | [] => filter (fun x => enabled (snd x) = true) (enumerate accts)
  | _ => available
  end.

Definition drop_rate_limited (model : option string) (available : list (Z * AccountEntry))
    : list (Z * AccountEntry) :=
  match model with
  | Some m =>
      if Py.truthy_str m then
        match filter (fun x => rate_limits (snd x) !! m = None) available with
        | [] => available
        | not_limited => not_limited
        end
      else available
  | None => available
  end.

Definition choose (strategy_ : string) (active_idx : Z) (available : list (Z * AccountEntry))
    : option (Z * AccountEntry) :=
  if String.eqb strategy_ "round-robin" then
    head (sort_by key_le (rr_key active_idx) available)
  else
    match filter (fun x => fst x = active_idx) available with
    | m :: _ => Some m
    | [] => head available
    end.

(** [peek_best_account(provider_id, model)] at clock reading [now_ms]. *)
Definition peek_best_account (self : AccountPool) (provider_id : string)
    (model : option string) (now_ms : Z) : option AccountEntry * AccountPool :=
  let '(accts, self1) := _load_accounts self provider_id in
  match accts with
  | [] => (None, self1)
  | _ =>
      let cleared := _clear_expired_limits accts now_ms in
      let self2 := alias_rate_limits self1 provider_id cleared in
      let '(pool, self3) := _get_pool self2 provider_id in
      match available_accounts cleared now_ms with
      | [] => (None, self3)
      | available =>
          match choose (strategy pool) (active_index pool)
                  (drop_rate_limited model available) with
          | Some (_, chosen) => (Some chosen, self3)
          | None => (None, self3)
          end
      end
  end.

(** [get_best_account(provider_id, model)] at clock reading [now_ms]. *)
Definition get_best_account (self : AccountPool) (provider_id : string)
    (model : option string) (now_ms : Z) : option AccountEntry * AccountPool :=
  let '(accts, self1) := _load_accounts self provider_id in
  match accts with
  | [] => (None, self1)
  | _ =>
      let cleared := _clear_expired_limits accts now_ms in
      let self2 := alias_rate_limits self1 provider_id cleared in
      let '(pool, self3) := _get_pool self2 provider_id in
      match available_accounts cleared now_ms with
      | [] => (None, self3)
      | available =>
          match choose (strategy pool) (active_index pool)
                  (drop_rate_limited model available) with
          | Some (chosen_idx, chosen) =>
              let chosen' := set_last_used (Some now_ms) chosen in
              let accts' := <[Z.to_nat chosen_idx := chosen']> cleared in
              let self4 :=
                put_pool self3 provider_id
                  (mkPool (accounts pool) chosen_idx (strategy pool)) in
              (Some chosen', _save_accounts self4 provider_id accts')
          | None => (None, self3)
          end
      end
  end.

(** [int(x)] on a float (IEEE binary64): truncation toward zero; [None] is
    the [ValueError] of a NaN or the [OverflowError] of an infinity. *)
Definition py_int (x : float) : option Z :=
  match Prim2SF x with
  | S754_zero _ => Some 0
  | S754_infinity _ => None
  | S754_nan => None
  | S754_finite s m e =>
      let magnitude := if 0 <=? e then Z.shiftl (Z.pos m) e else Z.shiftr (Z.pos m) (- e) in
      Some (if s then - magnitude else magnitude)
  end.

(** [l[i]] with Python's negative indices; [None] is [IndexError]. *)
Definition py_index {A : Type} (l : list A) (i : Z) : option A :=
  let n := Z.of_nat (length l) in
  if 0 <=? i then l !! Z.to_nat i
  else if - n <=? i then l !! Z.to_nat (n + i)
  else None.

(** [acct.last_429_at and (now_ms - acct.last_429_at) < BACKOFF_RESET_S * 1000] *)
Definition within_reset_window (last : option Z) (now_ms : Z) : bool :=
  Py.truthy_int last && (now_ms - default 0 last <? BACKOFF_RESET_S * 1000).

(** The body of the loop of [mark_rate_limited] for the matching account.
    [reset_seconds] is a Python float and [reset_seconds * 1000] its
    binary64 product; [None] is an exception: that of [int(...)] on a
    product that is not finite, or the [IndexError] of
    [BACKOFF_TIERS_S[tier]]. *)
Definition mark_entry (now_ms : Z) (model : string) (reset_seconds : float)
    (acct : AccountEntry) : option AccountEntry :=
  match py_int (PrimFloat.mul reset_seconds 1000) with
  | None => None
  | Some reset_ms =>
      let reset_at := now_ms + reset_ms in
      let a1 := set_rate_limits (<[model := reset_at]> (rate_limits acct)) acct in
      let consecutive :=
        if within_reset_window (last_429_at a1) now_ms
        then consecutive_429s a1 + 1 else 1 in
      let a2 := set_last_429_at (Some now_ms) (set_consecutive_429s consecutive a1) in
      let tier := Z.min (consecutive - 1) (Z.of_nat (length BACKOFF_TIERS_S) - 1) in
      match py_index BACKOFF_TIERS_S tier with
      | Some cooldown => Some (set_cooling_until (Some (now_ms + cooldown * 1000)) a2)
      | None => None
      end
  end.

(** The reset delay is a number of milliseconds: [int(reset_seconds * 1000)]
    returns. *)
Definition finite_reset (reset_seconds : float) : Prop :=
  is_Some (py_int (PrimFloat.mul reset_seconds 1000)).

(** [for acct in accounts: if acct.email == email: ...; break] *)
Fixpoint mark_first (now_ms : Z) (email_ model : string) (reset_seconds : float)
    (accts : list AccountEntry) : option (list AccountEntry) :=
  match accts with
  | [] => Some []
  | acct :: rest =>
      if String.eqb (email acct) email_
      then option_map (fun acct' => acct' :: rest) (mark_entry now_ms model reset_seconds acct)
      else option_map (cons acct) (mark_first now_ms email_ model reset_seconds rest)
  end.

(** [mark_rate_limited(provider_id, email, model, reset_seconds)] at clock
    reading [now_ms]; [None] when the call raises. *)
Definition mark_rate_limited (self : AccountPool) (provider_id email_ model : string)
    (reset_seconds : float) (now_ms : Z) : option AccountPool :=
  let '(accts, self1) := _load_accounts self provider_id in
  match mark_first now_ms email_ model reset_seconds accts with
  | Some accts' => Some (_save_accounts self1 provider_id accts')
  | None => None
  end.

(** The three [continue] tests of the loop of [rotate]. *)
Definition rotate_skips (now_ms : Z) (model : option string) (acct : AccountEntry) : bool :=
  negb (enabled acct)
  || (Py.truthy_int (cooling_until acct) && (now_ms <? default 0 (cooling_until acct)))
  || (Py.truthy_ostr model && bool_decide (is_Some (rate_limits acct !! default "" model))).

(** [for offset in range(1, len(accounts)): idx = (current + offset) % len(accounts); ...] *)
Fixpoint rotate_scan (accts : list AccountEntry) (now_ms : Z) (model : option string)
    (current : Z) (offsets : list nat) : option (Z * AccountEntry) :=
  match offsets with
  | [] => None
  | offset :: offsets' =>
      let idx := (current + Z.of_nat offset) `mod` Z.of_nat (length accts) in
      match accts !! Z.to_nat idx with
      | Some acct =>
          if rotate_skips now_ms model acct
          then rotate_scan accts now_ms model current offsets'
          else Some (idx, acct)
      | None => None
      end
  end.

(** [rotate(provider_id, model)] at clock reading [now_ms]. *)
Definition rotate (self : AccountPool) (provider_id : string) (model : option string)
    (now_ms : Z) : option AccountEntry * AccountPool :=
  let '(pool, self1) := _get_pool self provider_id in
  let '(accts, self2) := _load_accounts self1 provider_id in
  if (length accts <=? 1)%nat then (None, self2)
  else
    let current := active_index pool in
    let cleared := _clear_expired_limits accts now_ms in
    let self3 := alias_rate_limits self2 provider_id cleared in
    match rotate_scan cleared now_ms model current (seq 1 (length accts - 1)) with
    | Some (idx, acct) =>
        let '(pool3, _) := _get_pool self3 provider_id in
        let self4 := put_pool self3 provider_id (mkPool (accounts pool3) idx (strategy pool3)) in
        let acct' := set_last_used (Some now_ms) acct in
        (Some acct', _save_accounts self4 provider_id (<[Z.to_nat idx := acct']> cleared))
    | None => (None, self3)
    end.

(** The accounts and active index a pool object holds for a provider, as the
    next [_load_accounts] would see them. *)
Definition accounts_of (self : AccountPool) (provider_id : string) : list AccountEntry :=
  fst (_load_accounts self provider_id).

Definition active_index_of (self : AccountPool) (provider_id : string) : Z :=
  active_index (fst (_get_pool self provider_id)).

(** The pools a pool object works on: its cache, or the file's content when
    the cache is not filled yet. *)
Definition pools_of (self : AccountPool) : gmap string Pool := fst (_load self).

(** The first account with a given email, the one [mark_rate_limited]
    updates. *)
Definition account_of (self : AccountPool) (provider_id email_ : string)
    : option AccountEntry :=
  List.find (fun a => String.eqb (email a) email_) (accounts_of self provider_id).

(** The cooldown of a tier reached after [consecutive] 429s, in ms. *)
Definition cooldown_ms (consecutive : Z) : Z :=
  default 0 (py_index BACKOFF_TIERS_S
               (Z.min (consecutive - 1) (Z.of_nat (length BACKOFF_TIERS_S) - 1))) * 1000.

(** A run of [mark_rate_limited] calls for one email, each with its model,
    reset delay and clock reading: the cooldown left by each call,
    [cooling_until - now] in ms.  [None] when a call raises or finds no
    such account. *)
Fixpoint cooldowns (self : AccountPool) (provider_id email_ : string)
    (run : list (string * float * Z)) : option (list Z) :=
  match run with
  | [] => Some []
  | (model, reset_seconds, now_ms) :: run' =>
      match mark_rate_limited self provider_id email_ model reset_seconds now_ms with
      | Some self' =>
          match account_of self' provider_id email_ with
          | Some acct =>
              match cooling_until acct, cooldowns self' provider_id email_ run' with
              | Some until, Some ds => Some ((until - now_ms) :: ds)
              | _, _ => None
              end
          | None => None
          end
      | None => None
      end
  end.

(** Each 429 of the run falls within the reset window of the one before. *)
Fixpoint chained (times : list Z) : Prop :=
  match times with
  | t1 :: ((t2 :: _) as times') => within_reset_window (Some t1) t2 = true /\ chained times'
  | _ => True
  end.

Fixpoint nondecreasing (l : list Z) : Prop :=
  match l with
  | a :: ((b :: _) as l') => a <= b /\ nondecreasing l'
  | _ => True
  end.

(** Sample data: two OpenAI accounts, both enabled. *)
Definition sample_credentials : OAuthCredentials :=
  mkCredentials "oauth" (Some "access"%string) (Some "refresh"%string) (Some 0).

Definition fresh_account (email_ : string) : AccountEntry :=
  mkAccount email_ sample_credentials None true 0 None ∅ None 0 None.

Definition two_accounts : Pool :=
  mkPool [fresh_account "a@x"; fresh_account "b@y"] 0 "sticky".

Definition sample_pool : AccountPool :=
  mkAccountPool (Some {[ "openai"%string := two_accounts ]}) None.

(** A pool object on a machine with no accounts.json yet. *)
Definition empty_pool : AccountPool := mkAccountPool None None.

(** The pools once the default pool of a provider is in place. *)
Definition ensure (provider_id : string) (m : gmap string Pool) : gmap string Pool :=
  match m !! provider_id with
  | Some _ => m
  | None => <[provider_id := default_pool]> m
  end.

(** The pool [_get_pool] returns. *)
Definition pool_at (self : AccountPool) (provider_id : string) : Pool :=
  default default_pool (pools_of self !! provider_id).

(** The count [mark_rate_limited] stores: one more within the reset window,
    one otherwise. *)
Definition next_consecutive (acct : AccountEntry) (now_ms : Z) : Z :=
  if within_reset_window (last_429_at acct) now_ms then consecutive_429s acct + 1 else 1.

(** The cooldowns of [n] consecutive 429s, the first of them the [c]-th. *)
Fixpoint tier_steps (c : Z) (n : nat) : list Z :=
  match n with
  | O => []
  | S n' => cooldown_ms c :: tier_steps (c + 1) n'
  end.

(** The count the first call of a run stores. *)
Definition first_count (a : AccountEntry) (run : list (string * float * Z)) : Z :=
  match run with
  | [] => 1
  | (_, _, now_ms) :: _ => next_consecutive a now_ms
  end.

(** Five 429s on [a@x], ten seconds apart. *)
Definition sample_run : list (string * float * Z) :=
  [ ("gpt-5"%string, 30%float, 1000); ("gpt-5"%string, 30%float, 11000);
    ("gpt-5"%string, 30%float, 21000); ("gpt-5"%string, 30%float, 31000);
    ("gpt-5"%string, 30%float, 41000) ].

(** Three 429s on [a@x], ten seconds apart. *)
Definition short_run : list (string * float * Z) :=
  [ ("gpt-5"%string, 30%float, 1000); ("gpt-5"%string, 30%float, 11000);
    ("gpt-5"%string, 30%float, 21000) ].

(** An accounts.json whose first account stores a 429 count of -2 and a
    429 at 900 ms. *)
Definition wrapped_pool : AccountPool :=
  mkAccountPool
    (Some {[ "openai"%string :=
               mkPool [set_last_429_at (Some 900)
                         (set_consecutive_429s (-2) (fresh_account "a@x"));
                       fresh_account "b@y"] 0 "sticky" ]})
    None.

(** An accounts.json that holds a pool for another provider only. *)
Definition antigravity_only : AccountPool :=
  mkAccountPool (Some {[ "antigravity"%string := two_accounts ]}) None.

(** The postcondition of a successful [rotate]: the returned account sits
    at an index other than the active one, which becomes the active index;
    it was enabled, not cooling and not rate-limited for the model. *)
Definition rotates_to (s : AccountPool) (p : string) (model : option string)
    (now_ms : Z) (acct : AccountEntry) : Prop :=
  exists idx orig,
    idx ≠ active_index_of s p
    /\ 0 <= idx < Z.of_nat (length (accounts_of s p))
    /\ accounts_of s p !! Z.to_nat idx = Some orig
    /\ acct = set_last_used (Some now_ms) (clear_expired now_ms orig)
    /\ active_index_of (snd (rotate s p model now_ms)) p = idx
    /\ accounts_of (snd (rotate s p model now_ms)) p !! Z.to_nat idx = Some acct
    /\ enabled acct = true
    /\ Py.truthy_int (cooling_until acct) = false
    /\ (forall c, cooling_until orig = Some c -> c = 0 \/ c <= now_ms)
    /\ (forall m, model = Some m -> m ≠ ""%string ->
        rate_limits acct !! m = None
        /\ forall t, rate_limits orig !! m = Some t -> t <= now_ms).

(** What a successful [get_best_account] leaves behind, beyond what
    [peek_best_account] returns: the expired limits cleared, [last_used]
    stamped on the chosen account, its index as [active_index], all of it
    written to the accounts file. *)
Definition persists_choice (s : AccountPool) (p : string) (model : option string)
    (now_ms : Z) (chosen : AccountEntry) : Prop :=
  exists idx,
    0 <= idx
    /\ _clear_expired_limits (accounts_of s p) now_ms !! Z.to_nat idx = Some chosen
    /\ enabled chosen = true
    /\ accounts_file (snd (get_best_account s p model now_ms))
       = Some (pools_of (snd (get_best_account s p model now_ms)))
    /\ active_index_of (snd (get_best_account s p model now_ms)) p = idx
    /\ accounts_of (snd (get_best_account s p model now_ms)) p
       = <[Z.to_nat idx := set_last_used (Some now_ms) chosen]>
           (_clear_expired_limits (accounts_of s p) now_ms).

(** An accounts.json whose only account carries a rate limit for gpt-5 that
    expired at 500 ms. *)
Definition stale_limit_pool : AccountPool :=
  mkAccountPool
    (Some {[ "openai"%string :=
               mkPool [set_rate_limits {[ "gpt-5"%string := 500 ]} (fresh_account "a@x")]
                 0 "sticky" ]})
    None.


(** ** Managing the accounts of a pool *)

Definition set_credentials (v : OAuthCredentials) (a : AccountEntry) : AccountEntry :=
  mkAccount (email a) v (account_id a) (enabled a) (added_at a)
    (last_used a) (rate_limits a) (cooling_until a) (consecutive_429s a) (last_429_at a).

(** [has_accounts] *)
Definition has_accounts (self : AccountPool) (provider_id : string) : bool * AccountPool :=
  let '(accts, self1) := _load_accounts self provider_id in
  (existsb enabled accts, self1).

(** [add_account(provider_id, credentials, email)] at clock reading [now_ms].
    [cred_account_id] is [credentials.account_id], a field of the credentials
    class that the record above does not carry. *)
Definition add_account (self : AccountPool) (provider_id : string)
    (credentials_ : OAuthCredentials) (cred_account_id : option string)
    (email_ : string) (now_ms : Z) : AccountPool :=
  let '(accts, self1) := _load_accounts self provider_id in
  let accts1 := filter (fun a => email a ≠ email_) accts in
  let accts2 :=
    accts1 ++ [mkAccount email_ credentials_ cred_account_id true now_ms None ∅ None 0 None] in
  _save_accounts self1 provider_id accts2.

(** [remove_account(provider_id, email)] *)
Definition remove_account (self : AccountPool) (provider_id email_ : string)
    : bool * AccountPool :=
  let '(accts, self1) := _load_accounts self provider_id in
  let before := length accts in
  let accts1 := filter (fun a => email a ≠ email_) accts in
  if (length accts1 =? before)%nat then (false, self1)
  else (true, _save_accounts self1 provider_id accts1).

(** [list_accounts] *)
Definition list_accounts (self : AccountPool) (provider_id : string)
    : list AccountEntry * AccountPool :=
  _load_accounts self provider_id.

(** [account_count] *)
Definition account_count (self : AccountPool) (provider_id : string) : Z * AccountPool :=
  let '(accts, self1) := _load_accounts self provider_id in
  (Z.of_nat (length (filter (fun a => enabled a = true) accts)), self1).

(** [get_active_credentials] at clock reading [now_ms]. *)
Definition get_active_credentials (self : AccountPool) (provider_id : string) (now_ms : Z)
    : option OAuthCredentials * AccountPool :=
  let '(acct, self1) := get_best_account self provider_id None now_ms in
  (option_map credentials acct, self1).

(** [for acct in accounts: if acct.email == email: acct.credentials = credentials; break] *)
Fixpoint update_first (email_ : string) (credentials_ : OAuthCredentials)
    (accts : list AccountEntry) : list AccountEntry :=
  match accts with
  | [] => []
  | acct :: rest =>
      if String.eqb (email acct) email_
      then set_credentials credentials_ acct :: rest
      else acct :: update_first email_ credentials_ rest
  end.

(** [update_credentials(provider_id, email, credentials)] *)
Definition update_credentials (self : AccountPool) (provider_id email_ : string)
    (credentials_ : OAuthCredentials) : AccountPool :=
  let '(accts, self1) := _load_accounts self provider_id in
  _save_accounts self1 provider_id (update_first email_ credentials_ accts).

(** Every 429 counter of a provider's accounts is non-negative: the states
    the operations of the pool produce from such a state. *)
Definition counts_ok (self : AccountPool) (provider_id : string) : Prop :=
  Forall (fun a => 0 <= consecutive_429s a) (accounts_of self provider_id).

(** No two accounts of a provider share an email. *)
Definition unique_emails (self : AccountPool) (provider_id : string) : Prop :=
  NoDup (map email (accounts_of self provider_id)).

(** Refreshed credentials, for the samples. *)
Definition refreshed_credentials : OAuthCredentials :=
  mkCredentials "oauth" (Some "access2"%string) (Some "refresh2"%string) (Some 3600000).

End Accounts.

(* ===================================================================== *)
(** ** esprit/llm/llm.py *)
(* ===================================================================== *)

Module Dispatch.
Import Accounts.

(** [@dataclass LLMResponse]; tool invocations and thinking blocks are
    carried as opaque payloads. *)
Record LLMResponse := mkResponse {
  content : string;
  tool_invocations : option (list string);
  thinking_blocks : option (list string)
}.

(** One streamed chunk, as [_stream] reads it: [_get_chunk_content(chunk)]
    and the truth of [getattr(chunk, "usage", None)]. *)
Record Chunk := mkChunk {
  chunk_content : string;
  chunk_usage : bool
}.

(** What the handlers read of a caught exception: [e.status_code],
    [e.response.status_code] and [e.response.headers]. *)
Record HttpResponse := mkHttpResponse {
  resp_status_code : option Z;
  resp_headers : list (string * string)
}.

Record Exn := mkExn {
  status_code : option Z;
  response : option HttpResponse
}.

(** The clock readings of the three pool calls of one rotation. *)
Record Readings := mkReadings {
  at_peek : Z;
  at_mark : Z;
  at_rotate : Z
}.

(** One attempt of the retry loop as the provider plays it: the chunks the
    stream delivers, the exception it raises once they are delivered (if
    any), and the clock during the handler. *)
Record Attempt := mkAttempt {
  chunks : list Chunk;
  failure : option Exn;
  clock : Readings
}.

(** The dispatcher's mutable state: [self.config.model_name] and the
    process-wide account pool. *)
Record LLM := mkLLM {
  model_name : string;
  pool : AccountPool
}.

(** The account-pool calls a handler makes, in order. *)
Inductive PoolCall :=
| CallPeek (provider_id : string) (model : option string)
| CallMark (provider_id email_ model : string) (reset_seconds : float)
| CallRotate (provider_id : string) (model : option string).

Definition FUNCTION_END : string := "</function>".

(** The loop of [_stream] over the chunks: the contents of the partial
    snapshots it yields, the buffer it leaves, and whether it read the
    stream to its end (rather than leaving by [break]). *)
Fixpoint stream_loop (cs : list Chunk) (accumulated : string) (done_streaming : Z)
    : list string * string * bool :=
  match cs with
  | [] => ([], accumulated, true)
  | chunk :: cs' =>
      if negb (done_streaming =? 0) then
        if chunk_usage chunk || (5 <? done_streaming + 1)
        then ([], accumulated, false)
        else stream_loop cs' accumulated (done_streaming + 1)
      else
        let delta := chunk_content chunk in
        if Py.truthy_str delta then
          let accumulated1 := (accumulated ++ delta)%string in
          match Py.find accumulated1 FUNCTION_END with
          | Some i =>
              let accumulated2 := Py.take (i + String.length FUNCTION_END) accumulated1 in
              let '(ys, final, exhausted) := stream_loop cs' accumulated2 1 in
              (accumulated2 :: ys, final, exhausted)
          | None =>
              let '(ys, final, exhausted) := stream_loop cs' accumulated1 0 in
              (accumulated1 :: ys, final, exhausted)
          end
        else stream_loop cs' accumulated 0
  end.

(** How one run of a stream ends. *)
Inductive StreamEnd :=
| Finished (terminal : LLMResponse)
| Raised (e : Exn).

(** [code = getattr(e, "status_code", None) or
            getattr(getattr(e, "response", None), "status_code", None)] *)
Definition error_code (e : Exn) : option Z :=
  if Py.truthy_int (status_code e) then status_code e
  else match response e with
       | Some r => resp_status_code r
       | None => None
       end.

Section Dispatcher.

(** Collaborators that live outside the sources at hand. *)

(** [fix_incomplete_tool_call(_truncate_to_first_function(s))]
    (esprit.llm.utils). *)
Variable finalize : string -> string.
(** [parse_tool_invocations] (esprit.llm.utils) and [_extract_thinking]. *)
Variable parse_tool_invocations : string -> option (list string).
Variable extract_thinking : list Chunk -> option (list string).
(** [litellm._should_retry(code)] *)
Variable litellm_should_retry : Z -> bool.
(** [float(ra)]; [None] is [ValueError]. *)
Variable parse_float : string -> option float.
(** [PROVIDERS_AVAILABLE], [self._is_antigravity()] and
    [get_auth_client().detect_provider(model)] as functions of the model
    name. *)
Variable PROVIDERS_AVAILABLE : bool.
Variable is_antigravity : string -> bool.
Variable detect_provider : string -> option string.
(** [self._try_model_fallback(e)]: the model switched to, if any. *)
Variable try_model_fallback : string -> Exn -> option string.
(** [int(Config.get("esprit_llm_max_retries") or "5")] *)
Variable max_retries : Z.
(** [LLM._stream_antigravity] (the Cloud Code mode), as the provider plays it. *)
Variable _stream_antigravity : Attempt -> list LLMResponse * StreamEnd.

(** [LLM._stream]: the partial snapshots, then how the run ends.  The
    request counter and the usage statistics the method also updates do not
    bear on what it yields and are left out. *)
Definition _stream (a : Attempt) : list LLMResponse * StreamEnd :=
  let '(ys, accumulated, exhausted) := stream_loop (chunks a) "" 0 in
  let partials := map (fun s => mkResponse s None None) ys in
  match exhausted, failure a with
  | true, Some e => (partials, Raised e)
  | _, _ =>
      let accumulated' := finalize accumulated in
      (partials,
       Finished (mkResponse accumulated' (parse_tool_invocations accumulated')
                   (extract_thinking (chunks a))))
  end.

(** [LLM._should_retry] *)
Definition _should_retry (e : Exn) : bool :=
  match error_code e with
  | None => true
  | Some code => litellm_should_retry code
  end.

(** The [Retry-After] parse of [_try_rotate_on_rate_limit]. *)
Definition retry_after_of (e : Exn) : float :=
  match response e with
  | Some resp =>
      match Pricing.dict_get (resp_headers resp) "retry-after" with
      | Some ra =>
          if Py.truthy_str ra then
            match parse_float ra with
            | Some v => v
            | None => 60%float
            end
          else 60%float
      | None => 60%float
      end
  | None => 60%float
  end.

(** The outcome of [_try_rotate_on_rate_limit]: its return value, the pool
    it leaves and the pool calls it made. *)
Record RotateOutcome := mkRotateOutcome {
  rotated : bool;
  pool_after : AccountPool;
  calls : list PoolCall
}.

(** [LLM._try_rotate_on_rate_limit(e)]; [None] when [mark_rate_limited]
    raises. *)
Definition _try_rotate_on_rate_limit (self : LLM) (e : Exn) (now : Readings)
    : option RotateOutcome :=
  if negb PROVIDERS_AVAILABLE then Some (mkRotateOutcome false (pool self) [])
  else if negb (bool_decide (error_code e = Some 429)) then
    Some (mkRotateOutcome false (pool self) [])
  else
    let model := model_name self in
    let provider :=
      if is_antigravity model then Some "antigravity"%string else detect_provider model in
    if negb (Py.truthy_ostr provider) then Some (mkRotateOutcome false (pool self) [])
    else
      let provider_id := default ""%string provider in
      let '(current, pool1) := peek_best_account (pool self) provider_id None (at_peek now) in
      match current with
      | None => Some (mkRotateOutcome false pool1 [CallPeek provider_id None])
      | Some current =>
          let bare_model := Py.split1_last model "/" in
          let retry_after := retry_after_of e in
          match mark_rate_limited pool1 provider_id (email current) bare_model
                  retry_after (at_mark now) with
          | None => None
          | Some pool2 =>
              let '(rotated_, pool3) := rotate pool2 provider_id (Some bare_model) (at_rotate now) in
              Some (mkRotateOutcome
                      (match rotated_ with Some _ => true | None => false end)
                      pool3
                      [CallPeek provider_id None;
                       CallMark provider_id (email current) bare_model retry_after;
                       CallRotate provider_id (Some bare_model)])
          end
      end.

(** How the generator ends. *)
Inductive Failure :=
| LLMRequestFailedError (cause : Exn)
| HandlerRaised.

(** One iteration of the [while] loop of [generate], after the test
    [attempt <= max_retries]. *)
Inductive Step :=
| StepReturn (yielded : list LLMResponse)
| StepContinue (yielded : list LLMResponse) (attempt : Z) (self : LLM)
| StepRaise (yielded : list LLMResponse) (err : Failure).

Definition generate_step (self : LLM) (attempt : Z) (a : Attempt) : Step :=
  match (if is_antigravity (model_name self) then _stream_antigravity a else _stream a) with
  | (ys, Finished terminal) => StepReturn (ys ++ [terminal])
  | (ys, Raised e) =>
      match _try_rotate_on_rate_limit self e (clock a) with
      | None => StepRaise ys HandlerRaised
      | Some r =>
          let self1 := mkLLM (model_name self) (pool_after r) in
          if rotated r then StepContinue ys attempt self1
          else if (max_retries <=? attempt) || negb (_should_retry e) then
            match (if is_antigravity (model_name self1)
                   then try_model_fallback (model_name self1) e else None) with
            | Some model' => StepContinue ys 0 (mkLLM model' (pool self1))
            | None => StepRaise ys (LLMRequestFailedError e)
            end
          else StepContinue ys (attempt + 1) self1
      end
  end.

(** How far the scripted attempts carry the generator. *)
Inductive Outcome :=
| Returned
| Failed (err : Failure)
| AwaitingProvider.

(** [LLM.generate]: the snapshots yielded over the scripted attempts
    ([_prepare_messages] only shapes the request and is left out; the
    [asyncio.sleep] of the backoff takes time but changes nothing). *)
Fixpoint generate_loop (script : list Attempt) (self : LLM) (attempt : Z)
    : list LLMResponse * Outcome :=
  if attempt <=? max_retries then
    match script with
    | [] => ([], AwaitingProvider)
    | a :: script' =>
        match generate_step self attempt a with
        | StepReturn ys => (ys, Returned)
        | StepContinue ys attempt' self' =>
            let '(ys', o) := generate_loop script' self' attempt' in
            (ys ++ ys', o)
        | StepRaise ys err => (ys, Failed err)
        end
    end
  else ([], Returned).

Definition generate (script : list Attempt) (self : LLM) : list LLMResponse * Outcome :=
  generate_loop script self 0.

End Dispatcher.

(** A list of contents in which each is a prefix of the next. *)
Fixpoint cumulative (l : list string) : Prop :=
  match l with
  | a :: ((b :: _) as l') => Py.is_prefix a b /\ cumulative l'
  | _ => True
  end.

(** The last element of a non-empty list given by its head and tail. *)
Definition last_of (a : string) (ys : list string) : string := List.last ys a.

(** The value of the [Retry-After] header the handler looks at. *)
Definition retry_after_header (e : Exn) : option string :=
  match response e with
  | Some resp => Pricing.dict_get (resp_headers resp) "retry-after"
  | None => None
  end.

(** A two-attempt script: the first stream delivers "ab" and then breaks
    with an error that carries no status code; the second delivers "c" and
    ends. *)
Definition retry_script : list Attempt :=
  [ mkAttempt [mkChunk "ab" false] (Some (mkExn None None)) (mkReadings 0 0 0);
    mkAttempt [mkChunk "c" false] None (mkReadings 0 0 0) ].

Definition plain_llm : LLM := mkLLM "ollama/llama3" empty_pool.

(** A 429 that carries [Retry-After: 30]. *)
Definition error_429 : Exn :=
  mkExn (Some 429) (Some (mkHttpResponse (Some 429) [("retry-after"%string, "30"%string)])).

Definition parse_30 (s : string) : option float :=
  if String.eqb s "30" then Some 30%float else None.

Definition openai_llm (pool_ : AccountPool) : LLM := mkLLM "openai/gpt-5" pool_.


(** ** Masking an email for the logs *)

(** [s.rsplit(c, 1)] for a one-character separator: what precedes and what
    follows the last [c]; [None] when [c] does not occur (the list
    [rsplit] returns has one element then). *)
Fixpoint rsplit1 (s : string) (c : ascii) : option (string * string) :=
  match s with
  | EmptyString => None
  | String x s' =>
      match rsplit1 s' c with
      | Some (l, r) => Some (String x l, r)
      | None => if Ascii.eqb x c then Some (EmptyString, s') else None
      end
  end.

(** [_mask_email(email)]; [None] is the [ValueError] of unpacking
    [local, domain] from a list of one element. *)
Definition _mask_email (email_ : string) : option string :=
  if Py.contains email_ "@" then
    match rsplit1 email_ "@" with
    | Some (local, domain) =>
        Some (Py.take 3 local ++ "***@" ++ Py.take 3 domain ++ "***")%string
    | None => None
    end
  else Some (Py.take 3 email_ ++ "***")%string.

(** ** Model fallback *)

(** [ANTIGRAVITY_FALLBACK_CHAIN] (esprit.providers.antigravity): ordered by
    capability, high to low. *)
Definition ANTIGRAVITY_FALLBACK_CHAIN : list string :=
  [ "claude-opus-4-6-thinking"; "claude-opus-4-5-thinking"; "claude-sonnet-4-5-thinking";
    "claude-sonnet-4-5"; "gemini-3-pro-high"; "gemini-3-pro-low"; "gemini-2.5-pro";
    "gemini-3-flash"; "gemini-2.5-flash"; "gemini-2.5-flash-thinking";
    "gemini-2.5-flash-lite" ]%string.

(** [l.index(x)]; [None] is [ValueError]. *)
Fixpoint index (l : list string) (x : string) : option nat :=
  match l with
  | [] => None
  | y :: l' => if String.eqb y x then Some 0%nat else option_map S (index l' x)
  end.

(** [get_fallback_models(current_model)] *)
Definition get_fallback_models (current_model : string) : list string :=
  let bare := Pricing.bare_of current_model in
  match index ANTIGRAVITY_FALLBACK_CHAIN bare with
  | Some idx => drop (idx + 1) ANTIGRAVITY_FALLBACK_CHAIN
  | None =>
      match index ANTIGRAVITY_FALLBACK_CHAIN "gemini-3-flash" with
      | Some idx => drop idx ANTIGRAVITY_FALLBACK_CHAIN
      | None => []
      end
  end.

(** What [_try_model_fallback] reads and writes of the [LLM] object:
    [self.config.model_name] and the attributes [_original_model] and
    [_tried_models], [None] while an attribute is not set. *)
Record FallbackLLM := mkFallbackLLM {
  fb_model_name : string;
  _original_model : option string;
  _tried_models : option (gset string)
}.

(** [LLM._try_model_fallback(e)]: the exception is only logged.
    [auto_fallback] is [Config.get("esprit_auto_fallback")]. *)
Definition _try_model_fallback (auto_fallback : option string) (PROVIDERS_AVAILABLE : bool)
    (self : FallbackLLM) : bool * FallbackLLM :=
  if existsb (String.eqb (Py.lower (default ""%string auto_fallback)))
       ["false"; "0"; "no"]%string
  then (false, self)
  else if negb PROVIDERS_AVAILABLE then (false, self)
  else
    let current_model := fb_model_name self in
    let fallbacks := get_fallback_models current_model in
    match fallbacks with
    | [] => (false, self)
    | _ =>
        let original :=
          match _original_model self with
          | Some o => Some o
          | None => Some current_model
          end in
        let tried := {[ Pricing.bare_of current_model ]} ∪ default ∅ (_tried_models self) in
        match List.find (fun fallback => negb (bool_decide (fallback ∈ tried))) fallbacks with
        | Some fallback =>
            let prefix :=
              if Py.contains current_model "/"
              then (Py.split1_first current_model "/" ++ "/")%string
              else "antigravity/"%string in
            (true,
             mkFallbackLLM (prefix ++ fallback) original (Some ({[ fallback ]} ∪ tried)))
        | None => (false, mkFallbackLLM current_model original (Some tried))
        end
    end.

(** [n] fallbacks in a row, each of them successful; [None] as soon as one
    is refused. *)
Fixpoint fallback_run (auto_fallback : option string) (PROVIDERS_AVAILABLE : bool)
    (n : nat) (self : FallbackLLM) : option FallbackLLM :=
  match n with
  | O => Some self
  | S n' =>
      match _try_model_fallback auto_fallback PROVIDERS_AVAILABLE self with
      | (true, self') => fallback_run auto_fallback PROVIDERS_AVAILABLE n' self'
      | (false, _) => None
      end
  end.

(** The models of the chain a dispatcher has not tried yet. *)
Definition untried (self : FallbackLLM) : list string :=
  filter (fun m => m ∉ default ∅ (_tried_models self)) ANTIGRAVITY_FALLBACK_CHAIN.

(** A dispatcher on the top model of the chain, no fallback made yet. *)
Definition opus_llm : FallbackLLM :=
  mkFallbackLLM "antigravity/claude-opus-4-6-thinking" None None.

(** A script of attempts that all break with a retryable error before any
    chunk. *)
Definition failing_script (n : nat) : list Attempt :=
  repeat (mkAttempt [] (Some (mkExn (Some 500) None)) (mkReadings 0 0 0)) n.

End Dispatch.

(* ===================================================================== *)
(** ** esprit/gui/tracer_bridge.py *)
(* ===================================================================== *)

Module Fanout.

(** An ISO-8601 text with what [datetime.fromisoformat] makes of it:
    microseconds since the epoch, or [None] when it raises. *)
Record IsoTime := mkIsoTime {
  iso_text : string;
  iso_parsed : option Z
}.

(** One entry of [tracer.agents]. *)
Record Agent := mkAgent {
  agent_name : string;
  agent_task : string;
  agent_status : string;
  agent_parent_id : option string;
  agent_created_at : string;
  agent_updated_at : string
}.

(** The [result] of a tool execution: absent, a dict, or a string. *)
Inductive ToolResult :=
| NoResult
| DictResult (items : list (string * string))
| StrResult (text : string).

(** One entry of [tracer.tool_executions]. *)
Record ToolExecution := mkToolExecution {
  tool_agent_id : string;
  tool_name : string;
  tool_status : string;
  tool_timestamp : string;
  tool_completed_at : option string;
  tool_args : list (string * string);
  tool_result : ToolResult
}.

(** What [tracer.get_total_llm_stats()] returns, as [_get_stats] reads it:
    [total.output_tokens], [max_context_tokens], and the rest as JSON text. *)
Record LLMStats := mkLLMStats {
  total_output_tokens : Z;
  llm_max_context_tokens : Z;
  llm_rest : string
}.

(** The tracer (esprit.telemetry.tracer.Tracer), by the attributes and
    methods the bridge reads.  [total_llm_stats] is [None] when
    [get_total_llm_stats()] raises. *)
Record Tracer := mkTracer {
  agents : list (string * Agent);
  tool_executions : list (Z * ToolExecution);
  chat_messages : list string;
  vulnerability_reports : list string;
  streaming_content : gmap string string;
  latest_browser_screenshots : list (string * Z);
  compacting_agents : gset string;
  scan_config : option (gmap string string);
  final_scan_result : option string;
  start_time : option IsoTime;
  end_time : option IsoTime;
  run_status : option string;
  run_model : option string;
  run_name : option string;
  run_id : string;
  total_llm_stats : option LLMStats;
  agent_tool_count : string -> Z;
  real_tool_count : Z
}.

(** What a poll reads besides the tracer: the wall clock
    ([datetime.now(UTC)], microseconds) and the pricing table. *)
Record Env := mkEnv {
  now_us : Z;
  pricing_data : list (string * Pricing.ModelPricing Q)
}.

(** The dict [_get_stats] returns.  [tokens_per_second] is kept in tenths,
    the precision [round(x, 1)] leaves. *)
Record Stats := mkStats {
  stats_llm : LLMStats;
  stats_agent_count : Z;
  stats_tool_count : Z;
  stats_vuln_count : Z;
  stats_start_time : option string;
  stats_end_time : option string;
  stats_status : string;
  stats_max_context_tokens : Z;
  stats_context_limit : Z;
  stats_tokens_per_second_tenths : Z;
  stats_run_name : option string;
  stats_run_id : string
}.

#[export] Instance LLMStats_eq_dec : EqDecision LLMStats.
Proof. solve_decision. Defined.

#[export] Instance Stats_eq_dec : EqDecision Stats.
Proof. solve_decision. Defined.

Record SerializedAgent := mkSerializedAgent {
  sa_id : string;
  sa_name : string;
  sa_task : string;
  sa_status : string;
  sa_parent_id : option string;
  sa_created_at : string;
  sa_updated_at : string;
  sa_has_screenshot : bool;
  sa_tool_count : Z;
  sa_compacting : bool
}.

Inductive ResultSummary :=
| NoSummary
| DictSummary (items : list (string * string)) (has_screenshot : bool)
| StrSummary (text : string).

Record SerializedTool := mkSerializedTool {
  st_execution_id : Z;
  st_agent_id : string;
  st_tool_name : string;
  st_status : string;
  st_timestamp : string;
  st_completed_at : option string;
  st_args : list (string * string);
  st_result_summary : ResultSummary
}.

(** The delta messages of one poll. *)
Inductive Delta :=
| AgentsUpdate (agents_ : list SerializedAgent)
| ToolsUpdate (tools : list SerializedTool)
| ChatUpdate (messages : list string)
| VulnerabilityUpdate (vulnerabilities : list string)
| StreamingUpdate (streaming : gmap string string)
| ScreenshotUpdate (agent_id : string)
| StatsUpdate (stats : Stats)
| ScanConfigUpdate (scan_config_ : gmap string string)
| ScanComplete (final_report : string).

(** The tracking attributes of [TracerBridge].  [_last_stats_hash] holds
    the stats whose [json.dumps(stats, sort_keys=True)] it is ([None] for
    the initial empty string, which no dump equals): the dump of a stats
    dict determines each of its typed fields. *)
Record TracerBridge := mkTracerBridge {
  _last_agent_count : Z;
  _last_agent_statuses : gmap string string;
  _last_tool_count : Z;
  _last_chat_count : Z;
  _last_vuln_count : Z;
  _last_streaming : gmap string string;
  _last_screenshot_ids : list (string * Z);
  _last_stats_hash : option Stats;
  _last_scan_config : option (gmap string string);
  _sent_final_report : bool
}.

(** [TracerBridge.__init__] *)
Definition new_bridge : TracerBridge :=
  mkTracerBridge 0 ∅ 0 0 0 ∅ [] None None false.

Definition len {A : Type} (l : list A) : Z := Z.of_nat (length l).

(** [l[n:]] for [n >= 0]. *)
Definition slice_from {A : Type} (n : Z) (l : list A) : list A := drop (Z.to_nat n) l.

(** Round half to even, to the nearest integer. *)
Definition round_half_even (q : Q) : Z :=
  let f := Qfloor q in
  match (q - inject_Z f ?= 1 # 2)%Q with
  | Lt => f
  | Gt => f + 1
  | Eq => if Z.even f then f else f + 1
  end.

(** [_serialize_agents] *)
Definition _serialize_agents (t : Tracer) : list SerializedAgent :=
  map (fun kv : string * Agent =>
         let '(agent_id, data) := kv in
         mkSerializedAgent agent_id (agent_name data) (agent_task data) (agent_status data)
           (agent_parent_id data) (agent_created_at data) (agent_updated_at data)
           (bool_decide (is_Some (Pricing.dict_get (latest_browser_screenshots t) agent_id)))
           (agent_tool_count t agent_id)
           (bool_decide (agent_id ∈ compacting_agents t)))
      (agents t).

Definition strip_screenshot (items : list (string * string)) : list (string * string) :=
  filter (fun kv => fst kv ≠ "screenshot"%string) items.

(** [_serialize_tools(offset)] *)
Definition _serialize_tools (t : Tracer) (offset : Z) : list SerializedTool :=
  omap (fun kv : Z * ToolExecution =>
          let '(exec_id, data) := kv in
          if (exec_id <=? offset) && (0 <? offset) then None
          else
            Some (mkSerializedTool exec_id (tool_agent_id data) (tool_name data)
                    (tool_status data) (tool_timestamp data) (tool_completed_at data)
                    (strip_screenshot (tool_args data))
                    (match tool_result data with
                     | NoResult => NoSummary
                     | DictResult items =>
                         DictSummary (strip_screenshot items)
                           (Py.truthy_ostr (Pricing.dict_get items "screenshot"))
                     | StrResult text =>
                         StrSummary (if (500 <? String.length text)%nat
                                     then Py.take 500 text else text)
                     end)))
       (tool_executions t).

(** The [tokens_per_second] block of [_get_stats], in tenths. *)
Definition tokens_per_second_tenths (t : Tracer) (e : Env) (output_tokens : Z) : Z :=
  match start_time t with
  | Some st =>
      if Py.truthy_str (iso_text st) && (0 <? output_tokens) then
        match iso_parsed st with
        | Some start =>
            let end_ :=
              match end_time t with
              | Some et => if Py.truthy_str (iso_text et) then iso_parsed et else Some (now_us e)
              | None => Some (now_us e)
              end in
            match end_ with
            | Some end_us =>
                let elapsed := ((end_us - start) # 1000000)%Q in
                if Qle_bool elapsed 0 then 0
                else round_half_even (inject_Z output_tokens / elapsed * 10)%Q
            | None => 0
            end
        | None => 0
        end
      else 0
  | None => 0
  end.

(** [_get_stats] *)
Definition _get_stats (t : Tracer) (e : Env) : Stats :=
  let stats := default (mkLLMStats 0 0 "") (total_llm_stats t) in
  let output_tokens := total_output_tokens stats in
  let context_limit :=
    match run_model t with
    | Some model =>
        if Py.truthy_str model
        then Pricing.get_context_limit (pricing_data e) model else 128000
    | None => 128000
    end in
  mkStats stats (len (agents t)) (real_tool_count t) (len (vulnerability_reports t))
    (option_map iso_text (start_time t)) (option_map iso_text (end_time t))
    (default "running"%string (run_status t))
    (llm_max_context_tokens stats) context_limit
    (tokens_per_second_tenths t e output_tokens)
    (run_name t) (run_id t).

(** The [screenshot_update] deltas: one per key whose id changed. *)
Definition screenshot_deltas (current last : list (string * Z)) : list Delta :=
  omap (fun kv : string * Z =>
          if bool_decide (Pricing.dict_get last (fst kv) = Some (snd kv))
          then None else Some (ScreenshotUpdate (fst kv)))
       current.

(** Dict equality on insertion-ordered dicts: same keys, same values. *)
Definition dict_eqb (d1 d2 : list (string * Z)) : bool :=
  bool_decide ((list_to_map d1 : gmap string Z) = list_to_map d2).

(** [_detect_deltas]: the deltas of one poll and the bridge it leaves. *)
Definition _detect_deltas (t : Tracer) (e : Env) (self : TracerBridge)
    : list Delta * TracerBridge :=
  (* Agents *)
  let current_agent_count := len (agents t) in
  let current_statuses : gmap string string :=
    list_to_map (map (fun kv : string * Agent => (fst kv, agent_status (snd kv))) (agents t)) in
  let agents_changed :=
    negb (current_agent_count =? _last_agent_count self)
    || negb (bool_decide (current_statuses = _last_agent_statuses self)) in
  let d_agents := if agents_changed then [AgentsUpdate (_serialize_agents t)] else [] in
  let last_agent_count' := if agents_changed then current_agent_count else _last_agent_count self in
  let last_agent_statuses' :=
    if agents_changed then current_statuses else _last_agent_statuses self in
  (* Tools *)
  let current_tool_count := len (tool_executions t) in
  let tools_changed := negb (current_tool_count =? _last_tool_count self) in
  let d_tools :=
    if tools_changed then
      match _serialize_tools t (_last_tool_count self) with
      | [] => []
      | new_tools => [ToolsUpdate new_tools]
      end
    else [] in
  let last_tool_count' := if tools_changed then current_tool_count else _last_tool_count self in
  (* Chat *)
  let current_chat_count := len (chat_messages t) in
  let chat_changed := negb (current_chat_count =? _last_chat_count self) in
  let d_chat :=
    if chat_changed
    then [ChatUpdate (slice_from (_last_chat_count self) (chat_messages t))] else [] in
  let last_chat_count' := if chat_changed then current_chat_count else _last_chat_count self in
  (* Vulnerabilities *)
  let current_vuln_count := len (vulnerability_reports t) in
  let vuln_changed := negb (current_vuln_count =? _last_vuln_count self) in
  let d_vuln :=
    if vuln_changed
    then [VulnerabilityUpdate (slice_from (_last_vuln_count self) (vulnerability_reports t))]
    else [] in
  let last_vuln_count' := if vuln_changed then current_vuln_count else _last_vuln_count self in
  (* Streaming content *)
  let current_streaming := streaming_content t in
  let streaming_changed := negb (bool_decide (current_streaming = _last_streaming self)) in
  let d_streaming := if streaming_changed then [StreamingUpdate current_streaming] else [] in
  let last_streaming' := if streaming_changed then current_streaming else _last_streaming self in
  (* Screenshots *)
  let current_screenshots := latest_browser_screenshots t in
  let screenshots_changed := negb (dict_eqb current_screenshots (_last_screenshot_ids self)) in
  let d_screenshots :=
    if screenshots_changed
    then screenshot_deltas current_screenshots (_last_screenshot_ids self) else [] in
  let last_screenshot_ids' :=
    if screenshots_changed then current_screenshots else _last_screenshot_ids self in
  (* Stats *)
  let stats := _get_stats t e in
  let stats_changed := negb (bool_decide (Some stats = _last_stats_hash self)) in
  let d_stats := if stats_changed then [StatsUpdate stats] else [] in
  let last_stats_hash' := if stats_changed then Some stats else _last_stats_hash self in
  (* Scan config *)
  let config_changed :=
    match scan_config t with
    | Some cfg =>
        negb (bool_decide (cfg = ∅)) && negb (bool_decide (Some cfg = _last_scan_config self))
    | None => false
    end in
  let d_config :=
    if config_changed then [ScanConfigUpdate (default ∅ (scan_config t))] else [] in
  let last_scan_config' := if config_changed then scan_config t else _last_scan_config self in
  (* Final report *)
  let final_due := Py.truthy_ostr (final_scan_result t) && negb (_sent_final_report self) in
  let d_final :=
    if final_due then [ScanComplete (default ""%string (final_scan_result t))] else [] in
  let sent_final_report' := if final_due then true else _sent_final_report self in
  (d_agents ++ d_tools ++ d_chat ++ d_vuln ++ d_streaming ++ d_screenshots
     ++ d_stats ++ d_config ++ d_final,
   mkTracerBridge last_agent_count' last_agent_statuses' last_tool_count' last_chat_count'
     last_vuln_count' last_streaming' last_screenshot_ids' last_stats_hash'
     last_scan_config' sent_final_report').

(** What one tick of [_poll_loop] broadcasts: a [delta_batch] frame when the
    poll found deltas, nothing otherwise. *)
Definition poll (t : Tracer) (e : Env) (self : TracerBridge)
    : option (list Delta) * TracerBridge :=
  let '(deltas, self') := _detect_deltas t e self in
  match deltas with
  | [] => (None, self')
  | _ => (Some deltas, self')
  end.

(** A run in progress: one agent, 100 output tokens so far, started at
    [t0], not ended. *)
Definition running_tracer : Tracer :=
  mkTracer
    [ ("agent-1"%string, mkAgent "Scanner" "Scan target" "running" None "t0" "t0") ]
    [] [ "Starting scan"%string ] [] ∅ [] ∅ None None
    (Some (mkIsoTime "2026-01-01T00:00:00+00:00" (Some 0))) None
    (Some "running"%string) None (Some "test-run"%string) "run-1"
    (Some (mkLLMStats 100 700 "")) (fun _ => 0) 0.

(** The same run before any token was produced. *)
Definition idle_tracer : Tracer :=
  mkTracer
    [ ("agent-1"%string, mkAgent "Scanner" "Scan target" "running" None "t0" "t0") ]
    [] [ "Starting scan"%string ] [] ∅ [] ∅ None None
    (Some (mkIsoTime "2026-01-01T00:00:00+00:00" (Some 0))) None
    (Some "running"%string) None (Some "test-run"%string) "run-1"
    (Some (mkLLMStats 0 0 "")) (fun _ => 0) 0.

(** The wall clock 1.0 s and 1.5 s after the start of the run. *)
Definition first_tick : Env := mkEnv 1000000 [].
Definition second_tick : Env := mkEnv 1500000 [].


(** ** What a delta carries *)

Definition chat_of (d : Delta) : option (list string) :=
  match d with
  | ChatUpdate messages => Some messages
  | _ => None
  end.

Definition vulnerabilities_of (d : Delta) : option (list string) :=
  match d with
  | VulnerabilityUpdate vulnerabilities => Some vulnerabilities
  | _ => None
  end.

Definition tools_of (d : Delta) : option (list SerializedTool) :=
  match d with
  | ToolsUpdate tools => Some tools
  | _ => None
  end.

(** The keys a serialized tool sends: those of its arguments and of its
    result summary. *)
Definition sent_keys (st : SerializedTool) : list string :=
  map fst (st_args st)
  ++ match st_result_summary st with
     | DictSummary items _ => map fst items
     | _ => []
     end.

(** A tracer seen at a later time: the same run with other tool
    executions, chat messages and vulnerability reports. *)
Definition set_tool_executions (v : list (Z * ToolExecution)) (t : Tracer) : Tracer :=
  mkTracer (agents t) v (chat_messages t) (vulnerability_reports t) (streaming_content t)
    (latest_browser_screenshots t) (compacting_agents t) (scan_config t)
    (final_scan_result t) (start_time t) (end_time t) (run_status t) (run_model t)
    (run_name t) (run_id t) (total_llm_stats t) (agent_tool_count t) (real_tool_count t).

(** ** Client management *)

(** [l.remove(x)] for [x in l]: the first occurrence goes. *)
Fixpoint list_remove (x : Z) (l : list Z) : list Z :=
  match l with
  | [] => []
  | y :: l' => if y =? x then l' else y :: list_remove x l'
  end.

(** [add_client]; a WebSocket is known by its identity. *)
Definition add_client (_clients : list Z) (ws : Z) : list Z :=
  if bool_decide (ws ∈ _clients) then _clients else _clients ++ [ws].

(** [remove_client] *)
Definition remove_client (_clients : list Z) (ws : Z) : list Z :=
  if bool_decide (ws ∈ _clients) then list_remove ws _clients else _clients.

(** [_broadcast]: the clients left once the payload was sent; [send_ok ws]
    tells whether [ws.send_text] returned rather than raised. *)
Definition _broadcast (send_ok : Z -> bool) (_clients : list Z) : list Z :=
  let dead := filter (fun ws => send_ok ws = false) _clients in
  fold_left remove_client dead _clients.

(** ** The screenshot endpoint *)

(** The dict [get_screenshot] returns. *)
Record Screenshot := mkScreenshot {
  shot_screenshot : option string;
  shot_url : string;
  shot_agent_id : string
}.

(** [t.tool_executions.get(exec_id)] *)
Fixpoint exec_get (d : list (Z * ToolExecution)) (k : Z) : option ToolExecution :=
  match d with
  | [] => None
  | (k', v) :: d' => if k' =? k then Some v else exec_get d' k
  end.

(** [screenshot and isinstance(screenshot, str) and screenshot != "[rendered]"]
    on [result.get("screenshot")]. *)
Definition usable_screenshot (items : list (string * string)) : option string :=
  match Pricing.dict_get items "screenshot" with
  | Some ss => if Py.truthy_str ss && negb (String.eqb ss "[rendered]") then Some ss else None
  | None => None
  end.

(** [result.get("url") or tool_data.get("args", {}).get("url") or ""] *)
Definition screenshot_url (items : list (string * string)) (data : ToolExecution) : string :=
  if Py.truthy_ostr (Pricing.dict_get items "url")
  then default ""%string (Pricing.dict_get items "url")
  else if Py.truthy_ostr (Pricing.dict_get (tool_args data) "url")
       then default ""%string (Pricing.dict_get (tool_args data) "url")
       else ""%string.

(** One iteration of the fallback scan; the state is
    [(best_exec_id, best_screenshot, best_url)]. *)
Definition scan_step (agent_id : string) (st : Z * option string * string)
    (kv : Z * ToolExecution) : Z * option string * string :=
  let '(best_exec_id, best_screenshot, best_url) := st in
  let '(eid, td) := kv in
  if negb (String.eqb (tool_name td) "browser_action") then st
  else if negb (String.eqb (tool_agent_id td) agent_id) then st
  else
    match tool_result td with
    | DictResult r =>
        match usable_screenshot r with
        | Some ss =>
            if best_exec_id <? eid then (eid, Some ss, screenshot_url r td) else st
        | None => st
        end
    | _ => st
    end.

(** [get_screenshot(agent_id)] *)
Definition get_screenshot (t : Tracer) (agent_id : string) : Screenshot :=
  let exec_id := Pricing.dict_get (latest_browser_screenshots t) agent_id in
  let direct :=
    if Py.truthy_int exec_id then
      match exec_get (tool_executions t) (default 0 exec_id) with
      | Some tool_data =>
          match tool_result tool_data with
          | DictResult result =>
              match usable_screenshot result with
              | Some screenshot =>
                  Some (mkScreenshot (Some screenshot) (screenshot_url result tool_data)
                          agent_id)
              | None => None
              end
          | _ => None
          end
      | None => None
      end
    else None in
  match direct with
  | Some found => found
  | None =>
      let '(_, best_screenshot, best_url) :=
        fold_left (scan_step agent_id) (tool_executions t) (-1, None, ""%string) in
      if Py.truthy_ostr best_screenshot
      then mkScreenshot best_screenshot best_url agent_id
      else mkScreenshot None "" agent_id
  end.

(** What the fallback scan holds: a capture of a browser action of the
    agent, with an execution id above the initial [-1]. *)
Definition scanned (agent_id : string) (l : list (Z * ToolExecution))
    (st : Z * option string * string) : Prop :=
  forall ss, snd (fst st) = Some ss ->
    exists data items,
      (fst (fst st), data) ∈ l
      /\ -1 < fst (fst st)
      /\ tool_name data = "browser_action"%string
      /\ tool_agent_id data = agent_id
      /\ tool_result data = DictResult items
      /\ usable_screenshot items = Some ss.

(** A browser action of [agent-1] with a page capture, and one that was
    already rendered. *)
Definition captured (shot : string) : ToolExecution :=
  mkToolExecution "agent-1" "browser_action" "completed" "t1" None
    [("url"%string, "https://example.test"%string)]
    (DictResult [("screenshot"%string, shot)]).

Definition browsing_tracer : Tracer :=
  set_tool_executions [(1, captured "AAAA"); (2, captured "[rendered]")] running_tracer.


(** The same run with other chat messages and vulnerability reports. *)
Definition set_messages (chat vulns : list string) (t : Tracer) : Tracer :=
  mkTracer (agents t) (tool_executions t) chat vulns (streaming_content t)
    (latest_browser_screenshots t) (compacting_agents t) (scan_config t)
    (final_scan_result t) (start_time t) (end_time t) (run_status t) (run_model t)
    (run_name t) (run_id t) (total_llm_stats t) (agent_tool_count t) (real_tool_count t).

(** The run of [running_tracer] once it has ended, ten seconds after its
    start. *)
Definition ended_tracer : Tracer :=
  mkTracer (agents running_tracer) (tool_executions running_tracer)
    (chat_messages running_tracer) (vulnerability_reports running_tracer)
    (streaming_content running_tracer) (latest_browser_screenshots running_tracer)
    (compacting_agents running_tracer) (scan_config running_tracer)
    (final_scan_result running_tracer) (start_time running_tracer)
    (Some (mkIsoTime "2026-01-01T00:00:10+00:00" (Some 10000000)))
    (Some "completed"%string) (run_model running_tracer) (run_name running_tracer)
    (run_id running_tracer) (total_llm_stats running_tracer)
    (agent_tool_count running_tracer) (real_tool_count running_tracer).

End Fanout.

(* ===================================================================== *)
(** * Properties *)
(* ===================================================================== *)

(* ===================================================================== *)
(** ** Pricing catalog *)
(* ===================================================================== *)

Module PricingFacts.
Import Pricing.
Local Open Scope Q_scope.

Lemma fpos_Q_true (x : Q) : fpos x = true <-> 0 < x.
Proof.
  cbn. rewrite negb_true_iff. split.
  - intros Hle. apply Qnot_le_lt. intros Hx.
    apply Qle_bool_iff in Hx. congruence.
  - intros Hlt. destruct (Qle_bool x 0) eqn:E; [|reflexivity].
    apply Qle_bool_iff in E. exfalso. exact (Qlt_not_le _ _ Hlt E).
Qed.

Lemma fpos_Q_zero (x : Q) : x == 0 -> fpos x = false.
Proof.
  intros Hx. destruct (fpos x) eqn:E; [|reflexivity].
  apply fpos_Q_true in E. rewrite Hx in E. exfalso. exact (Qlt_irrefl _ E).
Qed.

Lemma tiered_cost_base (n : Z) (rate above : Q) :
  (0 <= n)%Z -> (n <= 200000)%Z \/ above == 0 ->
  _tiered_cost n rate above _TIERED_THRESHOLD == inject_Z n * rate.
Proof.
  intros Hn Hcase. unfold _tiered_cost, _TIERED_THRESHOLD.
  destruct (Z.leb_spec n 0) as [Hle|Hgt].
  - assert (n = 0%Z) as -> by lia. cbn. ring.
  - destruct Hcase as [Hsmall|Hzero].
    + destruct (Z.ltb_spec 200000 n) as [Hbig|_]; [lia|]. reflexivity.
    + rewrite (fpos_Q_zero _ Hzero), andb_false_r. reflexivity.
Qed.

Lemma tiered_cost_above (n : Z) (rate above : Q) :
  (200000 < n)%Z -> 0 < above ->
  _tiered_cost n rate above _TIERED_THRESHOLD
  == inject_Z 200000 * rate + inject_Z (n - 200000) * above.
Proof.
  intros Hn Habove. unfold _tiered_cost, _TIERED_THRESHOLD.
  destruct (Z.leb_spec n 0) as [Hle|_]; [lia|].
  destruct (Z.ltb_spec 200000 n) as [_|Hsmall]; [|lia].
  apply fpos_Q_true in Habove. rewrite Habove. cbn [andb].
  rewrite Z.min_r by lia. reflexivity.
Qed.

(** A non-positive "above" rate never tiers: the guard is [above_rate > 0]. *)
Lemma tiered_cost_nonpositive_above (n : Z) (rate above : Q) :
  (0 <= n)%Z -> above <= 0 ->
  _tiered_cost n rate above _TIERED_THRESHOLD == inject_Z n * rate.
Proof.
  intros Hn Habove. unfold _tiered_cost, _TIERED_THRESHOLD.
  destruct (Z.leb_spec n 0) as [Hle|Hgt].
  - assert (n = 0%Z) as -> by lia. cbn. ring.
  - assert (fpos above = false) as ->.
    { destruct (fpos above) eqn:E; [|reflexivity].
      apply fpos_Q_true in E. exfalso. exact (Qlt_not_le _ _ E Habove). }
    rewrite andb_false_r. reflexivity.
Qed.

Lemma tiered_cost_is_tiered (n : Z) (rate above : Q) :
  (0 <= n)%Z -> tiered n rate above (_tiered_cost n rate above _TIERED_THRESHOLD).
Proof.
  intros Hn. split.
  - intros Hcase. now apply tiered_cost_base.
  - intros Hbig Hpos. now apply tiered_cost_above.
Qed.

Lemma calculate_cost_terms (p : ModelPricing Q) (i o c : Z) :
  (c <= i)%Z ->
  calculate_cost p i o c
  = _tiered_cost (i - c) (input_cost p) (input_cost_above p) _TIERED_THRESHOLD
    + _tiered_cost o (output_cost p) (output_cost_above p) _TIERED_THRESHOLD
    + _tiered_cost c (cache_read_cost p) (cache_read_cost_above p) _TIERED_THRESHOLD.
Proof.
  intros Hci. unfold calculate_cost. rewrite Z.max_r by lia. reflexivity.
Qed.

(** The alias table never chains: no target of an alias is itself aliased. *)
Lemma alias_targets_unaliased (b a : string) :
  dict_get _MODEL_ALIASES b = Some a -> dict_get _MODEL_ALIASES (bare_of a) = None.
Proof.
  unfold _MODEL_ALIASES. cbn [dict_get].
  repeat match goal with
         | |- (if ?c then _ else _) = _ -> _ =>
             destruct c; [intros [= <-]; vm_compute; reflexivity|]
         end.
  discriminate.
Qed.

Section Resolution.
Context {F : Type} `{PyFloat F}.

(** The alias recursion of [_resolve_model] stops after one step, so the
    bound used by [_resolve_model] is never reached. *)
Lemma resolve_fuel_total (data : list (string * ModelPricing F)) (model : string)
    (seen : list string) :
  exists r, resolve_fuel 2 data model seen = Some r.
Proof.
  cbn [resolve_fuel].
  destruct (first_hit data [model; bare_of model]); [eauto|].
  destruct (first_hit data _); [eauto|].
  destruct (dict_get _MODEL_ALIASES (bare_of model)) as [alias|] eqn:Ealias; [|eauto].
  destruct (_ && _); [|eauto].
  destruct (first_hit data [alias; bare_of alias]); [eauto|].
  destruct (first_hit data _); [eauto|].
  rewrite (alias_targets_unaliased _ _ Ealias). eauto.
Qed.

Lemma resolve_fuel_enough (n : nat) (data : list (string * ModelPricing F))
    (model : string) (seen : list string) :
  resolve_fuel (S (S n)) data model seen = resolve_fuel 2 data model seen.
Proof.
  cbn [resolve_fuel].
  destruct (first_hit data [model; bare_of model]); [reflexivity|].
  destruct (first_hit data _); [reflexivity|].
  destruct (dict_get _MODEL_ALIASES (bare_of model)) as [alias|] eqn:Ealias; [|reflexivity].
  destruct (_ && _); [|reflexivity].
  destruct (first_hit data [alias; bare_of alias]); [reflexivity|].
  destruct (first_hit data _); [reflexivity|].
  rewrite (alias_targets_unaliased _ _ Ealias). reflexivity.
Qed.

(** An exact hit on the model name resolves at once. *)
Lemma resolve_exact (data : list (string * ModelPricing F)) (model : string)
    (p : ModelPricing F) :
  dict_get data model = Some p -> _resolve_model data model = Some p.
Proof.
  intros Hhit. unfold _resolve_model. cbn [resolve_fuel first_hit].
  rewrite Hhit. reflexivity.
Qed.

End Resolution.

(** The lookup steps on a small table: exact, bare, provider prefix, alias,
    fuzzy longest prefix, and a miss. *)
Example resolve_steps :
  _resolve_model sample_db "openai/gpt-5" = Some scenario_pricing
  /\ _resolve_model sample_db "anthropic/claude-sonnet-4-5" = Some tiered_pricing
  /\ _resolve_model sample_db "gpt-5" = Some scenario_pricing
  /\ _resolve_model sample_db "claude-sonnet-4-5-thinking" = Some tiered_pricing
  /\ _resolve_model sample_db "claude-sonnet-4-5-20250514" = Some tiered_pricing
  /\ _resolve_model sample_db "mistral-large" = None.
Proof. repeat split; vm_compute; reflexivity. Qed.

(** C1. For every pricing entry a model resolves to and all non-negative
    token counts with [cached <= input], [get_cost] is the sum of three
    terms, for [input - cached] tokens at the input rate, [output] tokens at
    the output rate and [cached] tokens at the cache-read rate; each term
    charges the "above" rate only for the tokens beyond the 200,000-token
    threshold, and the base rate throughout when its "above" rate is zero. *)
Theorem C1_get_cost_cache_math (data : list (string * ModelPricing Q)) (model : string)
    (p : ModelPricing Q) (input_tokens output_tokens cached_tokens : Z) :
  _resolve_model data model = Some p ->
  (0 <= cached_tokens)%Z -> (cached_tokens <= input_tokens)%Z -> (0 <= output_tokens)%Z ->
  get_cost data model input_tokens output_tokens cached_tokens
  = calculate_cost p input_tokens output_tokens cached_tokens
  /\ exists t_in t_out t_cache : Q,
       calculate_cost p input_tokens output_tokens cached_tokens == t_in + t_out + t_cache
       /\ tiered (input_tokens - cached_tokens) (input_cost p) (input_cost_above p) t_in
       /\ tiered output_tokens (output_cost p) (output_cost_above p) t_out
       /\ tiered cached_tokens (cache_read_cost p) (cache_read_cost_above p) t_cache.
Proof.
  intros Hres Hc Hci Ho. split.
  - unfold get_cost. rewrite Hres. reflexivity.
  - rewrite calculate_cost_terms by assumption.
    eexists _, _, _. split; [reflexivity|].
    repeat split; apply tiered_cost_is_tiered; lia.
Qed.

(** C1 at the tiered entry of the sample table, with input and output
    beyond the threshold. *)
Lemma C1_get_cost_cache_math_witness :
  get_cost sample_db "claude-sonnet-4-5" 300000 250000 50000
  = calculate_cost tiered_pricing 300000 250000 50000
  /\ exists t_in t_out t_cache : Q,
       calculate_cost tiered_pricing 300000 250000 50000 == t_in + t_out + t_cache
       /\ tiered (300000 - 50000) (input_cost tiered_pricing)
            (input_cost_above tiered_pricing) t_in
       /\ tiered 250000 (output_cost tiered_pricing) (output_cost_above tiered_pricing) t_out
       /\ tiered 50000 (cache_read_cost tiered_pricing)
            (cache_read_cost_above tiered_pricing) t_cache.
Proof.
  apply (C1_get_cost_cache_math sample_db "claude-sonnet-4-5" tiered_pricing
           300000 250000 50000); [reflexivity | lia | lia | lia].
Defined.

(** The tiered scenario evaluated: 200,000 input tokens at the base rate
    and 50,000 above, likewise for output; the cached tokens untiered. *)
Example tiered_scenario_value :
  get_cost sample_db "claude-sonnet-4-5" 300000 250000 50000
  == 200000 * 0.000003 + 50000 * 0.000006
     + (200000 * 0.000015 + 50000 * 0.0000225)
     + 50000 * 0.0000003.
Proof. vm_compute. reflexivity. Qed.

(** C2 as stated fails: the scenario's cost is not 0.00320. *)
Lemma C2_scenario_cost_is_not_0_0032 :
  ~ (get_cost scenario_db "scenario-model" 1000 200 400 == 0.0032).
Proof. vm_compute. discriminate. Qed.

(** C2 (amended). For a model priced at input rate 5e-6, output rate 15e-6
    and cache-read rate 5e-7, [get_cost] with 1000 input, 200 output and
    400 cached tokens returns [600*5e-6 + 200*15e-6 + 400*5e-7 = 0.0062]. *)
Theorem C2_scenario_cost (data : list (string * ModelPricing Q)) (model : string)
    (p : ModelPricing Q) :
  _resolve_model data model = Some p ->
  input_cost p == 0.000005 -> output_cost p == 0.000015 ->
  cache_read_cost p == 0.0000005 ->
  get_cost data model 1000 200 400 == 0.0062
  /\ 0.0062 == 600 * 0.000005 + 200 * 0.000015 + 400 * 0.0000005.
Proof.
  intros Hres Hin Hout Hcache. split; [|vm_compute; reflexivity].
  unfold get_cost. rewrite Hres, calculate_cost_terms by lia.
  rewrite !tiered_cost_base by (try lia; left; lia).
  rewrite Hin, Hout, Hcache. vm_compute. reflexivity.
Qed.

(** C2 (amended) on a table that holds the scenario's entry. *)
Lemma C2_scenario_cost_witness :
  get_cost scenario_db "scenario-model" 1000 200 400 == 0.0062
  /\ 0.0062 == 600 * 0.000005 + 200 * 0.000015 + 400 * 0.0000005.
Proof.
  apply (C2_scenario_cost scenario_db "scenario-model" scenario_pricing);
    [reflexivity | vm_compute; reflexivity | vm_compute; reflexivity
    | vm_compute; reflexivity].
Defined.

(** The same scenario in IEEE binary64, the arithmetic Python runs: the
    result is the double nearest 0.0062, and not the one nearest 0.0032. *)
Example scenario_cost_binary64 :
  PrimFloat.eqb (calculate_cost scenario_pricing_binary64 1000 200 400) 0.0062%float = true
  /\ PrimFloat.eqb (calculate_cost scenario_pricing_binary64 1000 200 400) 0.0032%float = false.
Proof. split; vm_compute; reflexivity. Qed.

(** C9. For every model whose pricing no lookup step resolves, [get_cost]
    returns exactly [0.0] whatever the token counts. *)
Theorem C9_unresolved_model_costs_zero {F : Type} `{PyFloat F}
    (data : list (string * ModelPricing F)) (model : string)
    (input_tokens output_tokens cached_tokens : Z) :
  _resolve_model data model = None ->
  get_cost data model input_tokens output_tokens cached_tokens = fzero.
Proof.
  intros Hnone. unfold get_cost.
  destruct (_resolve_model data model) as [p|] eqn:Hres.
  - discriminate Hnone.
  - reflexivity.
Qed.

(** C9 at a model the sample table does not resolve. *)
Lemma C9_unresolved_model_costs_zero_witness :
  get_cost sample_db "mistral-large" 123456 7890 1000 = 0%Q.
Proof.
  exact (@C9_unresolved_model_costs_zero Q PyFloat_Q sample_db "mistral-large"
           123456 7890 1000 eq_refl).
Defined.

(** *** Further properties of the catalog *)

Lemma dict_get_In {V : Type} (d : list (string * V)) (k : string) (v : V) :
  dict_get d k = Some v -> In (k, v) d.
Proof.
  induction d as [|[k' v'] d IH]; [discriminate|]. cbn [dict_get].
  destruct (String.eqb_spec k' k) as [->|_].
  - intros [= ->]. now left.
  - intros Hget. right. now apply IH.
Qed.

Lemma first_hit_In {V : Type} (d : list (string * V)) (keys : list string) (v : V) :
  first_hit d keys = Some v -> exists k, In k keys /\ In (k, v) d.
Proof.
  induction keys as [|k keys IH]; [discriminate|]. cbn [first_hit].
  destruct (dict_get d k) as [v'|] eqn:Hget.
  - intros [= ->]. exists k. split; [now left|now apply dict_get_In].
  - intros Hrest. destruct (IH Hrest) as (k' & Hin & Hd). exists k'. split; [now right|exact Hd].
Qed.

(** Every alias target is a non-empty name. *)
Lemma alias_targets_truthy (b a : string) :
  dict_get _MODEL_ALIASES b = Some a -> Py.truthy_str a = true.
Proof.
  unfold _MODEL_ALIASES. cbn [dict_get].
  repeat match goal with
         | |- (if ?c then _ else _) = _ -> _ =>
             destruct c; [intros [= <-]; reflexivity|]
         end.
  discriminate.
Qed.

Section ResolutionMore.
Context {F : Type} `{PyFloat F}.

Lemma fuzzy_fold_In (data : list (string * ModelPricing F)) (bare_lower : string)
    (l : list (string * ModelPricing F)) :
  forall st : option (ModelPricing F) * nat,
    (forall p, fst st = Some p -> exists k, In (k, p) data) ->
    (forall kv, In kv l -> In kv data) ->
    forall p, fst (fold_left (fuzzy_step bare_lower) l st) = Some p ->
              exists k, In (k, p) data.
Proof.
  induction l as [|[k v] l IH]; intros st Hst Hl p; [apply Hst|].
  cbn [fold_left]. apply IH; [|intros kv Hkv; apply Hl; now right].
  intros q. unfold fuzzy_step. cbn [fst snd].
  assert (In (k, v) data) as Hkv by (apply Hl; now left).
  repeat match goal with
         | |- context [if ?c then _ else _] => destruct c
         end; cbn [fst]; try apply Hst; intros [= <-]; eauto.
Qed.

Lemma fuzzy_match_In (data : list (string * ModelPricing F)) (bare : string)
    (p : ModelPricing F) :
  fuzzy_match data bare = Some p -> exists k, In (k, p) data.
Proof.
  unfold fuzzy_match. apply fuzzy_fold_In; [discriminate|auto].
Qed.

Lemma resolve_fuel_In (fuel : nat) (data : list (string * ModelPricing F)) :
  forall (model : string) (seen : list string) (p : ModelPricing F),
    resolve_fuel fuel data model seen = Some (Some p) -> exists k, In (k, p) data.
Proof.
  induction fuel as [|fuel IH]; intros model seen p; [discriminate|].
  cbn [resolve_fuel].
  destruct (first_hit data [model; bare_of model]) as [q|] eqn:H1.
  { intros [= ->]. destruct (first_hit_In _ _ _ H1) as (k & _ & Hk). eauto. }
  destruct (first_hit data (map _ _PROVIDER_PREFIXES)) as [q|] eqn:H2.
  { intros [= ->]. destruct (first_hit_In _ _ _ H2) as (k & _ & Hk). eauto. }
  destruct (dict_get _MODEL_ALIASES (bare_of model)) as [alias|].
  - destruct (_ && _); [apply IH|]. intros [= Hf]. now apply fuzzy_match_In in Hf.
  - intros [= Hf]. now apply fuzzy_match_In in Hf.
Qed.

(** X1. Whatever [_resolve_model] returns is the pricing of some key of the
    table: no lookup step makes an entry up. *)
Theorem resolve_model_from_table (data : list (string * ModelPricing F)) (model : string)
    (p : ModelPricing F) :
  _resolve_model data model = Some p -> exists k, In (k, p) data.
Proof.
  unfold _resolve_model.
  destruct (resolve_fuel 2 data model []) as [[q|]|] eqn:Hres; try discriminate.
  intros [= ->]. exact (resolve_fuel_In 2 data model [] p Hres).
Qed.

(** X2. A provider-qualified name that is not itself a key of the table is
    priced as its bare name. *)
Theorem resolve_model_strips_provider (data : list (string * ModelPricing F))
    (model : string) :
  dict_get data model = None ->
  Py.contains (bare_of model) "/" = false ->
  _resolve_model data model = _resolve_model data (bare_of model).
Proof.
  intros Hmiss Hbare.
  assert (bare_of (bare_of model) = bare_of model) as Hbb.
  { unfold bare_of at 1. now rewrite Hbare. }
  unfold _resolve_model. cbn [resolve_fuel first_hit]. rewrite Hbb, Hmiss.
  destruct (dict_get data (bare_of model)); reflexivity.
Qed.

(** X3. An aliased name that the table holds under no direct or prefixed key is
    priced as its alias target. *)
Theorem resolve_model_follows_alias (data : list (string * ModelPricing F))
    (model alias : string) :
  dict_get _MODEL_ALIASES (bare_of model) = Some alias ->
  first_hit data [model; bare_of model] = None ->
  first_hit data (map (fun prefix => (prefix ++ bare_of model)%string) _PROVIDER_PREFIXES)
  = None ->
  _resolve_model data model = _resolve_model data alias.
Proof.
  intros Halias Hdirect Hprefixed.
  unfold _resolve_model.
  assert (resolve_fuel 2 data model [] = resolve_fuel 1 data alias [alias]) as ->.
  { cbn [resolve_fuel]. rewrite Hdirect, Hprefixed, Halias.
    rewrite (alias_targets_truthy _ _ Halias). reflexivity. }
  clear Hdirect Hprefixed. cbn [resolve_fuel].
  destruct (first_hit data [alias; bare_of alias]); [reflexivity|].
  destruct (first_hit data (map _ _PROVIDER_PREFIXES)); [reflexivity|].
  rewrite (alias_targets_unaliased _ _ Halias). reflexivity.
Qed.

End ResolutionMore.

Lemma resolve_model_from_table_witness :
  exists k, In (k, tiered_pricing) sample_db.
Proof.
  apply (resolve_model_from_table sample_db "claude-sonnet-4-5-20250514" tiered_pricing).
  vm_compute. reflexivity.
Defined.

Lemma resolve_model_strips_provider_witness :
  _resolve_model sample_db "anthropic/claude-sonnet-4-5"
  = _resolve_model sample_db (bare_of "anthropic/claude-sonnet-4-5").
Proof.
  apply (resolve_model_strips_provider sample_db "anthropic/claude-sonnet-4-5");
    vm_compute; reflexivity.
Defined.

Lemma resolve_model_follows_alias_witness :
  _resolve_model sample_db "antigravity/claude-sonnet-4-5-thinking"
  = _resolve_model sample_db "claude-sonnet-4-5".
Proof.
  apply (resolve_model_follows_alias sample_db "antigravity/claude-sonnet-4-5-thinking"
           "claude-sonnet-4-5"); vm_compute; reflexivity.
Defined.


(** *** Sign and growth of a cost *)

Lemma tiered_cost_nonneg (tokens : Z) (rate above : Q) (threshold : Z) :
  0 <= rate -> 0 <= above -> (0 <= threshold)%Z ->
  0 <= _tiered_cost tokens rate above threshold.
Proof.
  intros Hrate Habove Hthr. unfold _tiered_cost.
  destruct (Z.leb_spec tokens 0) as [Hle|Hgt]; [apply Qle_refl|].
  destruct ((threshold <? tokens)%Z && fpos above) eqn:Htier; cbn [fadd fmul of_int PyFloat_Q].
  - apply andb_true_iff in Htier as [Hlt _]. apply Z.ltb_lt in Hlt.
    rewrite Z.min_r by lia.
    rewrite <- (Qplus_0_r 0). apply Qplus_le_compat; apply Qmult_le_0_compat; trivial.
    + change 0 with (inject_Z 0). rewrite <- Zle_Qle. exact Hthr.
    + change 0 with (inject_Z 0). rewrite <- Zle_Qle. lia.
  - apply Qmult_le_0_compat; [|exact Hrate].
    change 0 with (inject_Z 0). rewrite <- Zle_Qle. lia.
Qed.

(** X4. With non-negative rates, [_tiered_cost] never decreases when the token
    count grows, whether or not the larger count crosses the threshold. *)
Theorem tiered_cost_monotone (n m : Z) (rate above : Q) (threshold : Z) :
  (n <= m)%Z -> 0 <= rate -> 0 <= above -> (0 <= threshold)%Z ->
  _tiered_cost n rate above threshold <= _tiered_cost m rate above threshold.
Proof.
  intros Hnm Hrate Habove Hthr.
  destruct (Z.leb_spec n 0) as [Hn|Hn].
  { assert (_tiered_cost n rate above threshold = 0) as ->.
    { unfold _tiered_cost. destruct (Z.leb_spec n 0); [reflexivity|lia]. }
    now apply tiered_cost_nonneg. }
  unfold _tiered_cost.
  destruct (Z.leb_spec n 0) as [|_]; [lia|].
  destruct (Z.leb_spec m 0) as [|_]; [lia|].
  cbn [fadd fmul of_int PyFloat_Q].
  destruct (fpos above) eqn:Hpos; rewrite ?andb_true_r, ?andb_false_r.
  - destruct (Z.ltb_spec threshold n) as [Hbig|Hsmall].
    + destruct (Z.ltb_spec threshold m) as [_|]; [|lia].
      rewrite !Z.min_r by lia.
      apply Qplus_le_compat; [apply Qle_refl|].
      apply Qmult_le_compat_r; [|exact Habove]. rewrite <- Zle_Qle. lia.
    + destruct (Z.ltb_spec threshold m) as [Hbig|_].
      * rewrite Z.min_r by lia.
        rewrite <- (Qplus_0_r (inject_Z n * rate)).
        apply Qplus_le_compat.
        -- apply Qmult_le_compat_r; [|exact Hrate]. rewrite <- Zle_Qle. exact Hsmall.
        -- apply Qmult_le_0_compat; [|exact Habove].
           change 0 with (inject_Z 0). rewrite <- Zle_Qle. lia.
      * apply Qmult_le_compat_r; [|exact Hrate]. rewrite <- Zle_Qle. exact Hnm.
  - apply Qmult_le_compat_r; [|exact Hrate]. rewrite <- Zle_Qle. exact Hnm.
Qed.

Lemma tiered_cost_monotone_witness :
  _tiered_cost 150000 (3 # 1000000) (6 # 1000000) _TIERED_THRESHOLD
  <= _tiered_cost 250000 (3 # 1000000) (6 # 1000000) _TIERED_THRESHOLD.
Proof.
  apply (tiered_cost_monotone 150000 250000 (3 # 1000000) (6 # 1000000) _TIERED_THRESHOLD);
    [lia | discriminate | discriminate | discriminate].
Defined.

(** X5. With non-negative rates a request never has a negative cost, whatever
    the token counts: negative counts are charged nothing and a cached count
    above the input count leaves no regular input to charge. *)
Theorem calculate_cost_nonneg (p : ModelPricing Q) (i o c : Z) :
  0 <= input_cost p -> 0 <= input_cost_above p ->
  0 <= output_cost p -> 0 <= output_cost_above p ->
  0 <= cache_read_cost p -> 0 <= cache_read_cost_above p ->
  0 <= calculate_cost p i o c.
Proof.
  intros Hi Hia Ho Hoa Hc Hca. unfold calculate_cost. cbn [fadd PyFloat_Q].
  assert (0 <= _TIERED_THRESHOLD)%Z as Hthr by discriminate.
  rewrite <- (Qplus_0_r 0). apply Qplus_le_compat; [|now apply tiered_cost_nonneg].
  rewrite <- (Qplus_0_r 0). apply Qplus_le_compat; now apply tiered_cost_nonneg.
Qed.

Lemma calculate_cost_nonneg_witness :
  0 <= calculate_cost tiered_pricing 1000 (-5) 4000.
Proof.
  apply (calculate_cost_nonneg tiered_pricing 1000 (-5) 4000); discriminate.
Defined.

End PricingFacts.

(* ===================================================================== *)
(** ** Account pool *)
(* ===================================================================== *)

Module AccountsFacts.
Import Accounts.

(** *** The pool object: cache and file *)

Lemma load_eq (self : AccountPool) :
  _load self = (pools_of self, mkAccountPool (accounts_file self) (Some (pools_of self))).
Proof. destruct self as [file [cache|]]; reflexivity. Qed.

Lemma pools_of_cached (file : option (gmap string Pool)) (m : gmap string Pool) :
  pools_of (mkAccountPool file (Some m)) = m.
Proof. reflexivity. Qed.

Lemma ensure_lookup (provider_id : string) (m : gmap string Pool) :
  ensure provider_id m !! provider_id = Some (default default_pool (m !! provider_id)).
Proof.
  unfold ensure. destruct (m !! provider_id) as [pool|] eqn:E.
  - rewrite E. reflexivity.
  - rewrite lookup_insert_eq. reflexivity.
Qed.

Lemma ensure_lookup_ne (provider_id other : string) (m : gmap string Pool) :
  provider_id ≠ other -> ensure provider_id m !! other = m !! other.
Proof.
  intros Hne. unfold ensure. destruct (m !! provider_id); [reflexivity|].
  now rewrite lookup_insert_ne.
Qed.

Lemma insert_ensure (provider_id : string) (pool : Pool) (m : gmap string Pool) :
  <[provider_id := pool]> (ensure provider_id m) = <[provider_id := pool]> m.
Proof.
  unfold ensure. destruct (m !! provider_id); [reflexivity|].
  apply insert_insert_eq.
Qed.

Lemma get_pool_eq (self : AccountPool) (provider_id : string) :
  _get_pool self provider_id
  = (pool_at self provider_id,
     mkAccountPool (accounts_file self) (Some (ensure provider_id (pools_of self)))).
Proof.
  unfold _get_pool, pool_at, ensure. rewrite load_eq.
  destruct (pools_of self !! provider_id); reflexivity.
Qed.

Lemma load_accounts_eq (self : AccountPool) (provider_id : string) :
  _load_accounts self provider_id
  = (accounts (pool_at self provider_id),
     mkAccountPool (accounts_file self) (Some (ensure provider_id (pools_of self)))).
Proof. unfold _load_accounts. rewrite get_pool_eq. reflexivity. Qed.

Lemma put_pool_eq (self : AccountPool) (provider_id : string) (pool : Pool) :
  put_pool self provider_id pool
  = mkAccountPool (accounts_file self) (Some (<[provider_id := pool]> (pools_of self))).
Proof. unfold put_pool. rewrite load_eq. reflexivity. Qed.

Lemma save_accounts_eq (self : AccountPool) (provider_id : string)
    (accts : list AccountEntry) :
  _save_accounts self provider_id accts
  = let m := <[provider_id := mkPool accts (active_index (pool_at self provider_id))
                                (strategy (pool_at self provider_id))]> (pools_of self) in
    mkAccountPool (Some m) (Some m).
Proof.
  unfold _save_accounts. rewrite get_pool_eq, put_pool_eq.
  cbn [accounts_file]. rewrite pools_of_cached, insert_ensure.
  unfold _save. rewrite load_eq. reflexivity.
Qed.

Lemma alias_rate_limits_eq (self : AccountPool) (provider_id : string)
    (cleared : list AccountEntry) :
  alias_rate_limits self provider_id cleared
  = mkAccountPool (accounts_file self)
      (Some (<[provider_id :=
                 mkPool (zip_with (fun stored c => set_rate_limits (rate_limits c) stored)
                           (accounts (pool_at self provider_id)) cleared)
                        (active_index (pool_at self provider_id))
                        (strategy (pool_at self provider_id))]> (pools_of self))).
Proof.
  unfold alias_rate_limits. rewrite get_pool_eq, put_pool_eq.
  cbn [accounts_file]. rewrite pools_of_cached, insert_ensure. reflexivity.
Qed.

Lemma accounts_of_eq (self : AccountPool) (provider_id : string) :
  accounts_of self provider_id = accounts (pool_at self provider_id).
Proof. unfold accounts_of. rewrite load_accounts_eq. reflexivity. Qed.

Lemma active_index_of_eq (self : AccountPool) (provider_id : string) :
  active_index_of self provider_id = active_index (pool_at self provider_id).
Proof. unfold active_index_of. rewrite get_pool_eq. reflexivity. Qed.

Lemma pool_at_cached_insert (file : option (gmap string Pool)) (m : gmap string Pool)
    (provider_id : string) (pool : Pool) :
  pool_at (mkAccountPool file (Some (<[provider_id := pool]> m))) provider_id = pool.
Proof. unfold pool_at. rewrite pools_of_cached, lookup_insert_eq. reflexivity. Qed.

Lemma pool_at_cached_insert_ne (file : option (gmap string Pool)) (m : gmap string Pool)
    (provider_id other : string) (pool : Pool) :
  provider_id ≠ other ->
  pool_at (mkAccountPool file (Some (<[provider_id := pool]> m))) other
  = default default_pool (m !! other).
Proof.
  intros Hne. unfold pool_at. rewrite pools_of_cached, lookup_insert_ne by done.
  reflexivity.
Qed.

(** *** [mark_rate_limited] *)

Lemma mark_first_no_match (now_ms : Z) (email_ model : string) (reset_seconds : float)
    (accts : list AccountEntry) :
  Forall (fun a => email a ≠ email_) accts ->
  mark_first now_ms email_ model reset_seconds accts = Some accts.
Proof.
  induction 1 as [|a accts Ha _ IH]; [reflexivity|].
  cbn [mark_first]. destruct (String.eqb_spec (email a) email_) as [Heq|_]; [done|].
  rewrite IH. reflexivity.
Qed.

Lemma cooldown_ms_cases (c : Z) :
  1 <= c ->
  (c = 1 /\ cooldown_ms c = 60000) \/ (c = 2 /\ cooldown_ms c = 300000)
  \/ (c = 3 /\ cooldown_ms c = 1800000) \/ (4 <= c /\ cooldown_ms c = 7200000).
Proof.
  intros Hc. unfold cooldown_ms.
  change (Z.of_nat (length BACKOFF_TIERS_S)) with 4.
  destruct (Z.eq_dec c 1) as [->|]; [left; split; reflexivity|].
  destruct (Z.eq_dec c 2) as [->|]; [right; left; split; reflexivity|].
  destruct (Z.eq_dec c 3) as [->|]; [right; right; left; split; reflexivity|].
  right; right; right. split; [lia|].
  replace (Z.min (c - 1) (4 - 1)) with 3 by lia.
  reflexivity.
Qed.

Lemma cooldown_ms_mono (c : Z) : 1 <= c -> cooldown_ms c <= cooldown_ms (c + 1).
Proof.
  intros Hc.
  destruct (cooldown_ms_cases c Hc) as [[? ->]|[[? ->]|[[? ->]|[? ->]]]];
    destruct (cooldown_ms_cases (c + 1) ltac:(lia)) as [[? ->]|[[? ->]|[[? ->]|[? ->]]]];
    lia.
Qed.

(** [int] raises on a NaN and on the two infinities, and on nothing else. *)
Lemma py_int_raises (x : float) :
  py_int x = None
  <-> Prim2SF x = S754_nan \/ exists s, Prim2SF x = S754_infinity s.
Proof.
  unfold py_int. destruct (Prim2SF x) as [s|s| |s m e].
  - split; [discriminate|]. intros [|[? ?]]; discriminate.
  - split; [eauto|reflexivity].
  - split; [auto|reflexivity].
  - split; [discriminate|]. intros [|[? ?]]; discriminate.
Qed.

(** [int(reset_seconds * 1000)] on some delays: the product is rounded to
    binary64 and then truncated toward zero. *)
Example py_int_samples :
  py_int (PrimFloat.mul 30 1000) = Some 30000
  /\ py_int (PrimFloat.mul 60 1000) = Some 60000
  /\ py_int (PrimFloat.mul 0.0015 1000) = Some 1
  /\ py_int (PrimFloat.mul 0.0009 1000) = Some 0
  /\ py_int (PrimFloat.mul (-2.7) 1000) = Some (-2700)
  /\ py_int (PrimFloat.mul 1e306 1000) = None
  /\ py_int (PrimFloat.mul nan 1000) = None
  /\ py_int (PrimFloat.mul infinity 1000) = None
  /\ py_int (PrimFloat.mul neg_infinity 1000) = None.
Proof. repeat split; vm_compute; reflexivity. Qed.

Lemma mark_entry_not_finite (now_ms : Z) (model : string) (reset_seconds : float)
    (acct : AccountEntry) :
  py_int (PrimFloat.mul reset_seconds 1000) = None ->
  mark_entry now_ms model reset_seconds acct = None.
Proof. intros Hnone. unfold mark_entry. now rewrite Hnone. Qed.

Lemma mark_entry_eq (now_ms : Z) (model : string) (reset_seconds : float) (acct : AccountEntry)
    (reset_ms : Z) :
  0 <= consecutive_429s acct ->
  py_int (PrimFloat.mul reset_seconds 1000) = Some reset_ms ->
  mark_entry now_ms model reset_seconds acct
  = Some (mkAccount (email acct) (credentials acct) (account_id acct) (enabled acct)
            (added_at acct) (last_used acct)
            (<[model := now_ms + reset_ms]> (rate_limits acct))
            (Some (now_ms + cooldown_ms (next_consecutive acct now_ms)))
            (next_consecutive acct now_ms) (Some now_ms)).
Proof.
  intros Hc Hms. unfold mark_entry, cooldown_ms. rewrite Hms.
  cbn [last_429_at consecutive_429s set_rate_limits].
  fold (next_consecutive acct now_ms).
  assert (1 <= next_consecutive acct now_ms) as Hn.
  { unfold next_consecutive. destruct (within_reset_window _ _); lia. }
  change (Z.of_nat (length BACKOFF_TIERS_S)) with 4.
  set (tier := Z.min (next_consecutive acct now_ms - 1) (4 - 1)).
  assert (tier = 0 \/ tier = 1 \/ tier = 2 \/ tier = 3) as Htier by (subst tier; lia).
  destruct Htier as [-> | [-> | [-> | ->]]]; reflexivity.
Qed.

Lemma mark_first_match (now_ms : Z) (email_ model : string) (reset_seconds : float)
    (accts : list AccountEntry) (acct acct' : AccountEntry) :
  List.find (fun a => String.eqb (email a) email_) accts = Some acct ->
  mark_entry now_ms model reset_seconds acct = Some acct' ->
  email acct' = email acct ->
  exists accts',
    mark_first now_ms email_ model reset_seconds accts = Some accts'
    /\ List.find (fun a => String.eqb (email a) email_) accts' = Some acct'.
Proof.
  intros Hfind Hmark Hemail. induction accts as [|a accts IH]; [discriminate|].
  cbn [List.find mark_first] in *.
  destruct (String.eqb (email a) email_) eqn:E.
  - injection Hfind as ->. rewrite Hmark. eexists. split; [reflexivity|].
    cbn [List.find]. rewrite Hemail, E. reflexivity.
  - destruct (IH Hfind) as (accts' & -> & Hfind'). eexists. split; [reflexivity|].
    cbn [List.find]. rewrite E. exact Hfind'.
Qed.

Lemma mark_rate_limited_account (s : AccountPool) (p e model : string) (reset_seconds : float)
    (now_ms : Z) (a : AccountEntry) :
  account_of s p e = Some a ->
  0 <= consecutive_429s a ->
  finite_reset reset_seconds ->
  exists s' a',
    mark_rate_limited s p e model reset_seconds now_ms = Some s'
    /\ account_of s' p e = Some a'
    /\ cooling_until a' = Some (now_ms + cooldown_ms (next_consecutive a now_ms))
    /\ consecutive_429s a' = next_consecutive a now_ms
    /\ last_429_at a' = Some now_ms.
Proof.
  intros Hacct Hc [reset_ms Hms]. unfold account_of in Hacct. rewrite accounts_of_eq in Hacct.
  destruct (mark_first_match now_ms e model reset_seconds _ a _ Hacct
              (mark_entry_eq now_ms model reset_seconds a reset_ms Hc Hms) eq_refl)
    as (accts' & Hmark & Hfind).
  unfold mark_rate_limited. rewrite load_accounts_eq, Hmark.
  eexists _, _. split; [reflexivity|]. split.
  - unfold account_of. rewrite accounts_of_eq, save_accounts_eq.
    cbv zeta. rewrite pool_at_cached_insert. exact Hfind.
  - cbn [cooling_until consecutive_429s last_429_at]. auto.
Qed.

Lemma tier_steps_nondecreasing (n : nat) (c : Z) :
  1 <= c -> nondecreasing (tier_steps c n).
Proof.
  revert c. induction n as [|n IH]; intros c Hc; [exact I|].
  cbn [tier_steps]. destruct n as [|n]; [exact I|].
  cbn [tier_steps nondecreasing] in *. split.
  - now apply cooldown_ms_mono.
  - apply (IH (c + 1)). lia.
Qed.

Lemma tier_steps_tiers (n : nat) (c : Z) :
  1 <= c ->
  Forall (fun d => In d [60000; 300000; 1800000; 7200000] /\ d <= 7200 * 1000)
    (tier_steps c n).
Proof.
  revert c. induction n as [|n IH]; intros c Hc; constructor.
  - destruct (cooldown_ms_cases c Hc) as [[? ->]|[[? ->]|[[? ->]|[? ->]]]];
      cbn [In]; split; (lia || tauto).
  - apply IH. lia.
Qed.

Lemma length_tier_steps (n : nat) (c : Z) : length (tier_steps c n) = n.
Proof. revert c. induction n as [|n IH]; intros c; cbn; [|rewrite IH]; reflexivity. Qed.

Lemma next_consecutive_ge_1 (a : AccountEntry) (now_ms : Z) :
  0 <= consecutive_429s a -> 1 <= next_consecutive a now_ms.
Proof. intros Hc. unfold next_consecutive. destruct (within_reset_window _ _); lia. Qed.

Lemma cooldowns_chain (p e : string) (run : list (string * float * Z)) :
  forall (s : AccountPool) (a : AccountEntry),
    account_of s p e = Some a ->
    0 <= consecutive_429s a ->
    Forall (fun call => finite_reset (snd (fst call))) run ->
    chained (map snd run) ->
    cooldowns s p e run = Some (tier_steps (first_count a run) (length run)).
Proof.
  induction run as [|[[model reset_seconds] now_ms] run IH];
    intros s a Hacct Hc Hfinite Hchain; [reflexivity|].
  apply Forall_cons in Hfinite as [Hreset Hfinite]. cbn [fst snd] in Hreset.
  destruct (mark_rate_limited_account s p e model reset_seconds now_ms a Hacct Hc Hreset)
    as (s' & a' & Hmark & Hacct' & Hcool & Hcount & Hlast).
  cbn [cooldowns length tier_steps first_count]. rewrite Hmark, Hacct', Hcool.
  assert (1 <= next_consecutive a now_ms) as Hn by now apply next_consecutive_ge_1.
  rewrite (IH s' a' Hacct') ; cycle 1.
  - lia.
  - exact Hfinite.
  - destruct run as [|[[? ?] ?] run]; [exact I|]. cbn [map chained] in *. tauto.
  - replace (now_ms + cooldown_ms (next_consecutive a now_ms) - now_ms)
      with (cooldown_ms (next_consecutive a now_ms)) by lia.
    do 2 f_equal.
    destruct run as [|[[model2 reset2] now2] run]; [reflexivity|].
    cbn [first_count map chained snd] in *. destruct Hchain as [Hwin _].
    unfold next_consecutive at 1. rewrite Hlast, Hwin, Hcount. reflexivity.
Qed.

(** C5 (amended). In a run of [mark_rate_limited] calls on one account
    whose stored 429 counter is not negative when the run starts, each call
    with a reset delay whose product by 1000 is a finite float (so that
    [int(reset_seconds * 1000)] returns) and each 429 within the reset
    window of the one before, every call returns and the cooldown it leaves
    ([cooling_until - now]) never decreases, is one of the tiers 60, 300,
    1800, 7200 s, never exceeds 7200 s, and steps one tier up with each call
    until the last tier. *)
Theorem C5_backoff_monotone (s : AccountPool) (p e : string)
    (run : list (string * float * Z)) (a : AccountEntry) :
  account_of s p e = Some a ->
  0 <= consecutive_429s a ->
  Forall (fun call => finite_reset (snd (fst call))) run ->
  chained (map snd run) ->
  exists ds,
    cooldowns s p e run = Some ds
    /\ length ds = length run
    /\ nondecreasing ds
    /\ Forall (fun d => In d [60000; 300000; 1800000; 7200000] /\ d <= 7200 * 1000) ds
    /\ ds = tier_steps (first_count a run) (length run).
Proof.
  intros Hacct Hc Hfinite Hchain. eexists.
  split; [now apply (cooldowns_chain p e run s a)|].
  assert (1 <= first_count a run) as H1.
  { destruct run as [|[[? ?] ?] run]; [cbn; lia|]. now apply next_consecutive_ge_1. }
  split; [apply length_tier_steps|].
  split; [now apply tier_steps_nondecreasing|].
  split; [now apply tier_steps_tiers|reflexivity].
Qed.

(** C5 (amended) on the sample run. *)
Lemma C5_backoff_monotone_witness :
  exists ds,
    cooldowns sample_pool "openai" "a@x" sample_run = Some ds
    /\ length ds = length sample_run
    /\ nondecreasing ds
    /\ Forall (fun d => In d [60000; 300000; 1800000; 7200000] /\ d <= 7200 * 1000) ds
    /\ ds = tier_steps (first_count (fresh_account "a@x") sample_run) (length sample_run).
Proof.
  apply (C5_backoff_monotone sample_pool "openai" "a@x" sample_run (fresh_account "a@x")).
  - reflexivity.
  - cbn. lia.
  - repeat constructor; vm_compute; eauto.
  - cbn. repeat split; reflexivity.
Defined.

(** C5 as stated fails.  A stored count below zero (an accounts.json
    written by hand) indexes [BACKOFF_TIERS_S] from its end: from a count
    of -2 three chained 429s cool for 1800 s, 7200 s and then 60 s, which
    decreases.  And a call whose reset delay is not a number raises in
    [int(reset_seconds * 1000)] and leaves no cooldown. *)
Lemma C5_negative_count_breaks_the_ladder :
  account_of wrapped_pool "openai" "a@x"
  = Some (set_last_429_at (Some 900) (set_consecutive_429s (-2) (fresh_account "a@x")))
  /\ chained (map snd short_run)
  /\ cooldowns wrapped_pool "openai" "a@x" short_run = Some [1800000; 7200000; 60000]
  /\ ~ nondecreasing [1800000; 7200000; 60000]
  /\ mark_rate_limited sample_pool "openai" "a@x" "gpt-5" nan 1000 = None
  /\ cooldowns sample_pool "openai" "a@x" [("gpt-5"%string, nan, 1000)] = None.
Proof.
  split; [reflexivity|]. split; [cbn; repeat split; reflexivity|].
  split; [vm_compute; reflexivity|]. split; [|split; vm_compute; reflexivity].
  cbn [nondecreasing]. intros (_ & Hle & _). lia.
Qed.

Example sample_run_cooldowns :
  cooldowns sample_pool "openai" "a@x" sample_run
  = Some [60000; 300000; 1800000; 7200000; 7200000].
Proof. vm_compute. reflexivity. Qed.

(** A stored count below zero (a hand-edited accounts.json) breaks the
    ladder: [BACKOFF_TIERS_S[-1]] is the last tier. *)
Example negative_count_wraps :
  option_map cooling_until
    (mark_entry 1000 "gpt-5" 30%float
       (set_last_429_at (Some 900) (set_consecutive_429s (-1) (fresh_account "a@x"))))
  = Some (Some (1000 + 7200 * 1000)).
Proof. vm_compute. reflexivity. Qed.

Lemma pool_at_ensure (file : option (gmap string Pool)) (m : gmap string Pool)
    (provider_id : string) :
  pool_at (mkAccountPool file (Some (ensure provider_id m))) provider_id
  = default default_pool (m !! provider_id).
Proof. unfold pool_at. rewrite pools_of_cached, ensure_lookup. reflexivity. Qed.

Lemma pool_eta (pool : Pool) :
  mkPool (accounts pool) (active_index pool) (strategy pool) = pool.
Proof. destruct pool; reflexivity. Qed.

(** With no account of that email, [mark_rate_limited] only puts the
    provider's pool (the default one if it had none) back in place and
    writes the pools out. *)
Lemma mark_rate_limited_no_match (s : AccountPool) (p e model : string)
    (reset_seconds : float) (now_ms : Z) :
  Forall (fun a => email a ≠ e) (accounts_of s p) ->
  mark_rate_limited s p e model reset_seconds now_ms
  = Some (mkAccountPool (Some (<[p := pool_at s p]> (pools_of s)))
            (Some (<[p := pool_at s p]> (pools_of s)))).
Proof.
  intros Hno. rewrite accounts_of_eq in Hno.
  unfold mark_rate_limited. rewrite load_accounts_eq, (mark_first_no_match _ _ _ _ _ Hno).
  rewrite save_accounts_eq. cbv zeta.
  rewrite pool_at_ensure, pools_of_cached, insert_ensure.
  fold (pool_at s p). rewrite pool_eta. reflexivity.
Qed.

(** C10 as stated fails: marking an email no account has, for a provider
    with no pool yet, does not rewrite the accounts file with identical
    content: the written file gains an empty pool for that provider. *)
Lemma C10_file_gains_a_pool :
  exists s',
    Forall (fun a => email a ≠ "nobody@x"%string) (accounts_of antigravity_only "openai")
    /\ mark_rate_limited antigravity_only "openai" "nobody@x" "gpt-5" 60%float 1000 = Some s'
    /\ accounts_file s' ≠ accounts_file antigravity_only
    /\ default ∅ (accounts_file s') !! "openai"%string = Some default_pool
    /\ default ∅ (accounts_file antigravity_only) !! "openai"%string = None.
Proof.
  eexists. split; [constructor|]. split; [reflexivity|].
  split; [|split; vm_compute; reflexivity].
  intros Heq.
  apply (f_equal (fun f => default ∅ f !! "openai"%string)) in Heq.
  vm_compute in Heq. discriminate Heq.
Qed.

(** C10 (amended). Calling [mark_rate_limited] with an email that matches
    no stored account of the provider leaves the accounts, the active index
    and the strategy of every provider as the pool object held them; it
    writes the accounts file from the in-memory pools, with the provider's
    pool in place (an empty default pool if it had none); the written
    content is the previous content when the pool object was in step with
    the file and the provider already had a pool. *)
Theorem C10_mark_unknown_email_frame (s : AccountPool) (p e model : string)
    (reset_seconds : float) (now_ms : Z) :
  Forall (fun a => email a ≠ e) (accounts_of s p) ->
  exists s',
    mark_rate_limited s p e model reset_seconds now_ms = Some s'
    /\ (forall q, pool_at s' q = pool_at s q)
    /\ (forall q, accounts_of s' q = accounts_of s q)
    /\ accounts_file s' = Some (<[p := pool_at s p]> (pools_of s))
    /\ (accounts_file s = Some (pools_of s) -> is_Some (pools_of s !! p) ->
        accounts_file s' = accounts_file s).
Proof.
  intros Hno. rewrite (mark_rate_limited_no_match s p e model reset_seconds now_ms Hno).
  eexists. split; [reflexivity|].
  assert (forall q,
            pool_at (mkAccountPool (Some (<[p := pool_at s p]> (pools_of s)))
                       (Some (<[p := pool_at s p]> (pools_of s)))) q
            = pool_at s q) as Hframe.
  { intros q. destruct (decide (p = q)) as [<-|Hne].
    - apply pool_at_cached_insert.
    - now rewrite pool_at_cached_insert_ne. }
  split; [exact Hframe|]. split.
  - intros q. now rewrite !accounts_of_eq, Hframe.
  - split; [reflexivity|].
    intros Hsync [pool Hpool]. cbn [accounts_file]. rewrite Hsync. f_equal.
    apply insert_id. unfold pool_at. rewrite Hpool. reflexivity.
Qed.

(** C10 (amended) on the sample pool. *)
Lemma C10_mark_unknown_email_frame_witness :
  exists s',
    mark_rate_limited sample_pool "openai" "nobody@x" "gpt-5" 60%float 1000 = Some s'
    /\ (forall q, pool_at s' q = pool_at sample_pool q)
    /\ (forall q, accounts_of s' q = accounts_of sample_pool q)
    /\ accounts_file s'
       = Some (<["openai"%string := pool_at sample_pool "openai"]> (pools_of sample_pool))
    /\ (accounts_file sample_pool = Some (pools_of sample_pool) ->
        is_Some (pools_of sample_pool !! "openai"%string) ->
        accounts_file s' = accounts_file sample_pool).
Proof.
  apply (C10_mark_unknown_email_frame sample_pool "openai" "nobody@x" "gpt-5" 60%float 1000).
  repeat constructor; discriminate.
Defined.

(** On the sample pool the file is indeed rewritten with what it held. *)
Example sample_pool_file_unchanged :
  option_map accounts_file
    (mark_rate_limited sample_pool "openai" "nobody@x" "gpt-5" 60%float 1000)
  = Some (accounts_file sample_pool).
Proof. vm_compute. reflexivity. Qed.

(** *** [_clear_expired_limits] *)

Lemma clear_expired_enabled (now_ms : Z) (a : AccountEntry) :
  enabled (clear_expired now_ms a) = enabled a.
Proof. unfold clear_expired. repeat (destruct (_ && _)); reflexivity. Qed.

Lemma clear_expired_email (now_ms : Z) (a : AccountEntry) :
  email (clear_expired now_ms a) = email a.
Proof. unfold clear_expired. repeat (destruct (_ && _)); reflexivity. Qed.

Lemma clear_expired_rate_limits (now_ms : Z) (a : AccountEntry) :
  rate_limits (clear_expired now_ms a)
  = filter (fun kv : string * Z => ¬ (snd kv <= now_ms)) (rate_limits a).
Proof. unfold clear_expired. repeat (destruct (_ && _)); reflexivity. Qed.

Lemma clear_expired_cooling_until (now_ms : Z) (a : AccountEntry) :
  cooling_until (clear_expired now_ms a)
  = if Py.truthy_int (cooling_until a) && (default 0 (cooling_until a) <=? now_ms)
    then None else cooling_until a.
Proof.
  unfold clear_expired. cbn [cooling_until set_rate_limits].
  destruct (Py.truthy_int (cooling_until a) && _);
    cbn [last_429_at set_cooling_until]; destruct (_ && _); reflexivity.
Qed.

Lemma lookup_map_Some {A B : Type} (f : A -> B) (l : list A) (i : nat) (y : B) :
  map f l !! i = Some y -> exists x, l !! i = Some x /\ y = f x.
Proof.
  revert i. induction l as [|x l IH]; intros [|i] Hy; try discriminate.
  - injection Hy as <-. eauto.
  - apply (IH i Hy).
Qed.

(** *** [rotate] *)

Lemma rotate_scan_found (accts : list AccountEntry) (now_ms : Z) (model : option string)
    (current : Z) (offsets : list nat) (idx : Z) (acct : AccountEntry) :
  rotate_scan accts now_ms model current offsets = Some (idx, acct) ->
  exists offset,
    In offset offsets
    /\ idx = (current + Z.of_nat offset) `mod` Z.of_nat (length accts)
    /\ accts !! Z.to_nat idx = Some acct
    /\ rotate_skips now_ms model acct = false.
Proof.
  induction offsets as [|offset offsets IH]; [discriminate|].
  cbn [rotate_scan].
  destruct (accts !! Z.to_nat ((current + Z.of_nat offset) `mod` Z.of_nat (length accts)))
    as [a|] eqn:Hlook; [|intros [=]].
  destruct (rotate_skips now_ms model a) eqn:Hskip.
  - intros Hrest. destruct (IH Hrest) as (off & Hin & Hrest'). exists off.
    split; [now right|exact Hrest'].
  - intros [= <- <-]. exists offset. split; [now left|]. auto.
Qed.

Lemma offset_moves (current n : Z) (offset : nat) :
  0 <= current < n -> (1 <= offset)%nat -> Z.of_nat offset < n ->
  (current + Z.of_nat offset) `mod` n ≠ current
  /\ 0 <= (current + Z.of_nat offset) `mod` n < n.
Proof.
  intros Hcur Hoff Hlt. split; [|apply Z.mod_pos_bound; lia].
  destruct (Z.lt_ge_cases (current + Z.of_nat offset) n) as [Hsmall|Hwrap].
  - rewrite Z.mod_small by lia. lia.
  - replace (current + Z.of_nat offset) with ((current + Z.of_nat offset - n) + 1 * n) by lia.
    rewrite Z.mod_add by lia. rewrite Z.mod_small by lia. lia.
Qed.

Lemma ensure_idemp (p : string) (m : gmap string Pool) : ensure p (ensure p m) = ensure p m.
Proof. unfold ensure at 1. rewrite ensure_lookup. reflexivity. Qed.

Lemma rotate_few (s : AccountPool) (p : string) (model : option string) (now_ms : Z) :
  (length (accounts_of s p) <= 1)%nat -> fst (rotate s p model now_ms) = None.
Proof.
  intros Hlen. rewrite accounts_of_eq in Hlen. unfold rotate.
  rewrite get_pool_eq, load_accounts_eq, pool_at_ensure. fold (pool_at s p).
  destruct (Nat.leb_spec (length (accounts (pool_at s p))) 1) as [_|Hgt]; [reflexivity|lia].
Qed.

(** What [rotate] does once its scan has found an account. *)
Lemma rotate_eq (s : AccountPool) (p : string) (model : option string) (now_ms : Z) :
  (1 < length (accounts_of s p))%nat ->
  rotate s p model now_ms
  = let cleared := _clear_expired_limits (accounts_of s p) now_ms in
    match rotate_scan cleared now_ms model (active_index_of s p)
            (seq 1 (length (accounts_of s p) - 1)) with
    | Some (idx, acct) =>
        let acct' := set_last_used (Some now_ms) acct in
        let m := <[p := mkPool (<[Z.to_nat idx := acct']> cleared) idx
                          (strategy (pool_at s p))]> (pools_of s) in
        (Some acct', mkAccountPool (Some m) (Some m))
    | None =>
        (None,
         mkAccountPool (accounts_file s)
           (Some (<[p := mkPool
                           (zip_with (fun stored c => set_rate_limits (rate_limits c) stored)
                              (accounts_of s p) cleared)
                           (active_index_of s p) (strategy (pool_at s p))]> (pools_of s))))
    end.
Proof.
  intros Hlen. rewrite accounts_of_eq in Hlen. unfold rotate.
  rewrite get_pool_eq, load_accounts_eq, pool_at_ensure. fold (pool_at s p).
  rewrite accounts_of_eq, active_index_of_eq.
  destruct (Nat.leb_spec (length (accounts (pool_at s p))) 1) as [Hle|_]; [lia|].
  cbv zeta. cbn [accounts_file]. rewrite alias_rate_limits_eq.
  rewrite !pools_of_cached, ensure_idemp, pool_at_ensure. fold (pool_at s p).
  cbn [accounts_file]. rewrite insert_ensure.
  destruct (rotate_scan _ _ _ _ _) as [[idx acct]|]; [|reflexivity].
  rewrite get_pool_eq, pool_at_cached_insert. cbn [accounts_file accounts strategy].
  rewrite put_pool_eq, save_accounts_eq. cbv zeta.
  rewrite pool_at_cached_insert, !pools_of_cached. cbn [active_index strategy accounts_file].
  rewrite !insert_insert_eq. reflexivity.
Qed.

Lemma truthy_str_ne (m : string) : m ≠ ""%string -> Py.truthy_str m = true.
Proof. destruct m; [congruence|reflexivity]. Qed.

Lemma rotate_skips_false (now_ms : Z) (model : option string) (orig : AccountEntry) :
  rotate_skips now_ms model (clear_expired now_ms orig) = false ->
  enabled orig = true
  /\ Py.truthy_int (cooling_until (clear_expired now_ms orig)) = false
  /\ (forall c, cooling_until orig = Some c -> c = 0 \/ c <= now_ms)
  /\ (forall m, model = Some m -> m ≠ ""%string ->
      rate_limits (clear_expired now_ms orig) !! m = None
      /\ forall t, rate_limits orig !! m = Some t -> t <= now_ms).
Proof.
  unfold rotate_skips. rewrite !orb_false_iff, negb_false_iff, clear_expired_enabled.
  rewrite clear_expired_cooling_until, clear_expired_rate_limits.
  intros [[Hen Hcool] Hlim]. split; [exact Hen|].
  assert (forall c, cooling_until orig = Some c -> c = 0 \/ c <= now_ms) as Hc.
  { intros c Hc. rewrite Hc in Hcool. cbn [Py.truthy_int default] in Hcool.
    unfold id in Hcool.
    destruct (Z.eqb_spec c 0) as [Hz|Hnz]; [now left|right]. cbn [negb andb] in Hcool.
    destruct (Z.leb_spec c now_ms) as [Hle|Hgt]; [exact Hle|].
    cbn [Py.truthy_int default] in Hcool. unfold id in Hcool.
    destruct (Z.eqb_spec c 0) as [?|_]; [done|]. cbn [negb andb] in Hcool.
    destruct (Z.ltb_spec now_ms c); [discriminate|lia]. }
  split; [|split; [exact Hc|]].
  - destruct (cooling_until orig) as [c|] eqn:Ec; [|reflexivity].
    cbn [Py.truthy_int default]. unfold id.
    destruct (Z.eqb_spec c 0) as [Hz|Hnz]; [subst c; reflexivity|].
    cbn [negb andb]. destruct (Hc c eq_refl) as [?|Hle]; [done|].
    destruct (Z.leb_spec c now_ms); [reflexivity|lia].
  - intros m -> Hm. cbn [Py.truthy_ostr default] in Hlim.
    rewrite (truthy_str_ne m Hm) in Hlim. cbn [andb] in Hlim.
    apply bool_decide_eq_false in Hlim.
    assert (filter (fun kv : string * Z => ¬ snd kv <= now_ms) (rate_limits orig) !! m = None)
      as Hnone.
    { destruct (filter _ _ !! m) eqn:E; [|reflexivity]. exfalso. apply Hlim. eauto. }
    split; [exact Hnone|].
    intros t Ht. destruct (Z.le_gt_cases t now_ms) as [Hle|Hgt]; [exact Hle|].
    assert (filter (fun kv : string * Z => ¬ snd kv <= now_ms) (rate_limits orig) !! m = Some t)
      as Hsome.
    { apply map_lookup_filter_Some. split; [exact Ht|]. cbn. lia. }
    congruence.
Qed.

(** C6. [rotate] never returns the account at the current [active_index]
    when that index is valid: what it returns sits at a different index,
    which becomes the active one, and is enabled, not cooling and without an
    unexpired rate-limit entry for the given model; with at most one stored
    account it returns nil. *)
Theorem C6_rotate_never_returns_current (s : AccountPool) (p : string)
    (model : option string) (now_ms : Z) :
  ((length (accounts_of s p) <= 1)%nat -> fst (rotate s p model now_ms) = None)
  /\ (0 <= active_index_of s p < Z.of_nat (length (accounts_of s p)) ->
      forall acct, fst (rotate s p model now_ms) = Some acct ->
      rotates_to s p model now_ms acct).
Proof.
  split; [apply rotate_few|].
  intros Hvalid acct Hret. unfold rotates_to.
  destruct (Nat.le_gt_cases (length (accounts_of s p)) 1) as [Hfew|Hmany].
  { rewrite (rotate_few s p model now_ms Hfew) in Hret. discriminate Hret. }
  rewrite (rotate_eq s p model now_ms Hmany) in Hret |- *. cbv zeta in Hret |- *.
  destruct (rotate_scan _ _ _ _ _) as [[idx a]|] eqn:Hscan; [|discriminate Hret].
  cbn [fst snd] in Hret |- *. injection Hret as <-.
  destruct (rotate_scan_found _ _ _ _ _ _ _ Hscan) as (offset & Hin & Hidx & Hlook & Hskip).
  unfold _clear_expired_limits in Hidx, Hlook. rewrite length_map in Hidx.
  apply in_seq in Hin.
  destruct (offset_moves (active_index_of s p) (Z.of_nat (length (accounts_of s p))) offset)
    as [Hmoved Hrange]; [lia | lia | lia |].
  rewrite <- Hidx in Hmoved, Hrange.
  destruct (lookup_map_Some _ _ _ _ Hlook) as (orig & Horig & ->).
  destruct (rotate_skips_false _ _ _ Hskip) as (Hen & Hcool & Hc & Hlim).
  exists idx, orig.
  split; [exact Hmoved|]. split; [exact Hrange|]. split; [exact Horig|].
  split; [reflexivity|].
  split; [rewrite active_index_of_eq, pool_at_cached_insert; reflexivity|].
  split.
  { rewrite accounts_of_eq, pool_at_cached_insert. cbn [accounts].
    apply list_lookup_insert_eq. unfold _clear_expired_limits. rewrite length_map. lia. }
  split; [cbn [enabled set_last_used]; now rewrite clear_expired_enabled|].
  split; [exact Hcool|]. split; [exact Hc|exact Hlim].
Qed.

(** C6 on the sample pool: from index 0 the rotation lands on [b@y]. *)
Lemma C6_rotate_never_returns_current_witness :
  rotates_to sample_pool "openai" (Some "gpt-5"%string) 1000
    (set_last_used (Some 1000) (fresh_account "b@y")).
Proof.
  apply (proj2 (C6_rotate_never_returns_current sample_pool "openai"
                  (Some "gpt-5"%string) 1000)).
  - vm_compute. split; [discriminate|reflexivity].
  - vm_compute. reflexivity.
Defined.

(** Specification scenario 1: after a 429 on [a@x], [rotate] hands out
    [b@y] and makes it the active account; with [b@y] cooling too there is
    nothing to rotate to. *)
Example rotate_after_429 :
  match mark_rate_limited sample_pool "openai" "a@x" "gpt-5" 30%float 1000 with
  | Some s =>
      option_map email (fst (rotate s "openai" (Some "gpt-5"%string) 1001)) = Some "b@y"%string
      /\ active_index_of (snd (rotate s "openai" (Some "gpt-5"%string) 1001)) "openai" = 1
      /\ match mark_rate_limited (snd (rotate s "openai" (Some "gpt-5"%string) 1001))
                 "openai" "b@y" "gpt-5" 30%float 1002 with
         | Some s2 => fst (rotate s2 "openai" (Some "gpt-5"%string) 1003) = None
         | None => False
         end
  | None => False
  end.
Proof. vm_compute. repeat split; reflexivity. Qed.

(** *** [peek_best_account] and [get_best_account] *)

Lemma enumerate_from_elem {A : Type} (l : list A) (k i : Z) (a : A) :
  (i, a) ∈ enumerate_from k l -> k <= i /\ l !! Z.to_nat (i - k) = Some a.
Proof.
  revert k. induction l as [|x l IH]; intros k Hin; cbn [enumerate_from] in Hin.
  - now apply elem_of_nil in Hin.
  - apply elem_of_cons in Hin. destruct Hin as [[= -> ->]|Hin].
    + split; [lia|]. now replace (k - k) with 0 by lia.
    + destruct (IH _ Hin) as [Hle Hlook]. split; [lia|].
      replace (Z.to_nat (i - k)) with (S (Z.to_nat (i - (k + 1)))) by lia.
      exact Hlook.
Qed.

Lemma available_accounts_elem (accts : list AccountEntry) (now_ms : Z)
    (x : Z * AccountEntry) :
  x ∈ available_accounts accts now_ms -> x ∈ enumerate accts /\ enabled (snd x) = true.
Proof.
  unfold available_accounts.
  destruct (filter _ (enumerate accts)) as [|y ys] eqn:Hav.
  - intros Hin. apply list_elem_of_filter in Hin. tauto.
  - rewrite <- Hav. intros Hin. apply list_elem_of_filter in Hin.
    destruct Hin as [Hcool Hin]. split; [exact Hin|].
    unfold not_cooling in Hcool. now apply andb_true_iff in Hcool.
Qed.

Lemma drop_rate_limited_elem (model : option string) (available : list (Z * AccountEntry))
    (x : Z * AccountEntry) :
  x ∈ drop_rate_limited model available -> x ∈ available.
Proof.
  unfold drop_rate_limited. destruct model as [m|]; [|auto].
  destruct (Py.truthy_str m); [|auto].
  destruct (filter _ available) as [|y ys] eqn:Hf; [auto|].
  rewrite <- Hf. intros Hin. apply list_elem_of_filter in Hin. tauto.
Qed.

Lemma insert_by_elem {A K : Type} (le : K -> K -> bool) (key : A -> K) (x y : A)
    (l : list A) :
  y ∈ insert_by le key x l <-> y = x \/ y ∈ l.
Proof.
  induction l as [|z l IH]; cbn [insert_by].
  - rewrite elem_of_cons. tauto.
  - destruct (le (key x) (key z)).
    + rewrite elem_of_cons. tauto.
    + rewrite !elem_of_cons, IH. tauto.
Qed.

Lemma sort_by_elem {A K : Type} (le : K -> K -> bool) (key : A -> K) (y : A) (l : list A) :
  y ∈ sort_by le key l <-> y ∈ l.
Proof.
  unfold sort_by. induction l as [|x l IH]; cbn [foldr]; [tauto|].
  rewrite insert_by_elem, IH, elem_of_cons. tauto.
Qed.

Lemma choose_elem (strategy_ : string) (active_idx : Z)
    (available : list (Z * AccountEntry)) (x : Z * AccountEntry) :
  choose strategy_ active_idx available = Some x -> x ∈ available.
Proof.
  unfold choose. destruct (String.eqb strategy_ "round-robin").
  - intros Hhead. apply head_Some_elem_of in Hhead. now apply sort_by_elem in Hhead.
  - destruct (filter _ available) as [|y ys] eqn:Hf.
    + apply head_Some_elem_of.
    + intros [= ->]. assert (x ∈ filter (fun x => fst x = active_idx) available) as Hin
        by (rewrite Hf; left).
      apply list_elem_of_filter in Hin. tauto.
Qed.

(** The head of a [sort_by] is a least element, for a total and transitive
    order on the keys. *)
Lemma sort_by_head_least {A K : Type} (le : K -> K -> bool) (key : A -> K)
    (l : list A) (m : A) :
  (forall a b, le a b = true \/ le b a = true) ->
  (forall a b c, le a b = true -> le b c = true -> le a c = true) ->
  head (sort_by le key l) = Some m ->
  Forall (fun y => le (key m) (key y) = true) l.
Proof.
  intros Htotal Htrans. revert m. induction l as [|x l IH]; intros m Hhead; [constructor|].
  unfold sort_by in Hhead. cbn [foldr] in Hhead. fold (sort_by le key l) in Hhead.
  destruct (sort_by le key l) as [|y s] eqn:Hs.
  - cbn in Hhead. injection Hhead as <-.
    assert (l = []) as ->.
    { destruct l as [|z l]; [reflexivity|]. exfalso.
      assert (z ∈ sort_by le key (z :: l)) as Hin by (apply sort_by_elem; left).
      rewrite Hs in Hin. now apply elem_of_nil in Hin. }
    constructor; [|constructor]. destruct (Htotal (key x) (key x)); assumption.
  - specialize (IH y eq_refl). cbn [insert_by] in Hhead.
    destruct (le (key x) (key y)) eqn:Hxy; cbn in Hhead; injection Hhead as <-.
    + constructor; [destruct (Htotal (key x) (key x)); assumption|].
      eapply Forall_impl; [exact IH|]. intros z Hyz. now apply (Htrans _ (key y)).
    + constructor; [|exact IH].
      destruct (Htotal (key x) (key y)) as [Hle|Hle]; [congruence|exact Hle].
Qed.

Lemma key_le_total (a b : bool * Z) : key_le a b = true \/ key_le b a = true.
Proof.
  destruct a as [[] i], b as [[] j]; unfold key_le; cbn [fst snd]; auto;
    destruct (Z.leb_spec i j); [now left | right; apply Z.leb_le; lia
                               | now left | right; apply Z.leb_le; lia].
Qed.

Lemma key_le_trans (a b c : bool * Z) :
  key_le a b = true -> key_le b c = true -> key_le a c = true.
Proof.
  destruct a as [[] i], b as [[] j], c as [[] k]; unfold key_le; cbn [fst snd];
    try discriminate; try reflexivity; rewrite !Z.leb_le; lia.
Qed.

(** Round-robin picks the lowest available index strictly above
    [active_index], and wraps to the lowest available index when there is
    none. *)
Lemma choose_round_robin_next (active_idx : Z) (available : list (Z * AccountEntry))
    (x : Z * AccountEntry) :
  choose "round-robin" active_idx available = Some x ->
  Forall (fun y =>
            (active_idx < fst y -> active_idx < fst x <= fst y)
            /\ (fst x <= active_idx -> fst x <= fst y <= active_idx))
         available.
Proof.
  unfold choose. cbn [String.eqb]. change (String.eqb "round-robin" "round-robin") with true.
  cbv iota. intros Hhead.
  apply (sort_by_head_least key_le (rr_key active_idx)) in Hhead;
    [|apply key_le_total|apply key_le_trans].
  eapply Forall_impl; [exact Hhead|]. intros y. unfold key_le, rr_key. cbn [fst snd].
  destruct (Z.leb_spec (fst x) active_idx), (Z.leb_spec (fst y) active_idx);
    rewrite ?Z.leb_le; intros Hle; try discriminate; lia.
Qed.

(** Round-robin takes the lowest index above the active one, or else wraps
    to the lowest index; sticky keeps the active one when it is available. *)
Example choose_round_robin :
  option_map fst
    (choose "round-robin" 1
       (enumerate [fresh_account "a@x"; fresh_account "b@y"; fresh_account "c@z"]))
  = Some 2
  /\ option_map fst
       (choose "round-robin" 2
          (enumerate [fresh_account "a@x"; fresh_account "b@y"; fresh_account "c@z"]))
     = Some 0
  /\ option_map fst
       (choose "sticky" 1
          (enumerate [fresh_account "a@x"; fresh_account "b@y"; fresh_account "c@z"]))
     = Some 1.
Proof. repeat split; vm_compute; reflexivity. Qed.

Lemma peek_leaves_file (s : AccountPool) (p : string) (model : option string) (now_ms : Z) :
  accounts_file (snd (peek_best_account s p model now_ms)) = accounts_file s.
Proof.
  unfold peek_best_account. rewrite load_accounts_eq.
  destruct (accounts (pool_at s p)) as [|a accts]; [reflexivity|].
  rewrite alias_rate_limits_eq, get_pool_eq. cbn [accounts_file].
  destruct (available_accounts _ _) as [|x xs]; [reflexivity|].
  destruct (choose _ _ _) as [[idx chosen]|]; reflexivity.
Qed.

Lemma get_best_selects_like_peek (s : AccountPool) (p : string) (model : option string)
    (now_ms : Z) :
  fst (get_best_account s p model now_ms)
  = option_map (set_last_used (Some now_ms)) (fst (peek_best_account s p model now_ms)).
Proof.
  unfold get_best_account, peek_best_account. rewrite load_accounts_eq.
  destruct (accounts (pool_at s p)) as [|a accts]; [reflexivity|].
  rewrite alias_rate_limits_eq, get_pool_eq. cbn [accounts_file].
  destruct (available_accounts _ _) as [|x xs]; [reflexivity|].
  destruct (choose _ _ _) as [[idx chosen]|]; reflexivity.
Qed.

Lemma get_best_persists (s : AccountPool) (p : string) (model : option string)
    (now_ms : Z) (chosen : AccountEntry) :
  fst (peek_best_account s p model now_ms) = Some chosen ->
  persists_choice s p model now_ms chosen.
Proof.
  unfold persists_choice, get_best_account, peek_best_account.
  rewrite accounts_of_eq, load_accounts_eq.
  destruct (accounts (pool_at s p)) as [|a accts] eqn:Haccts; [discriminate|].
  rewrite <- Haccts. clear a accts Haccts.
  rewrite alias_rate_limits_eq, get_pool_eq, pool_at_cached_insert.
  cbn [accounts_file active_index strategy accounts].
  destruct (available_accounts _ _) as [|x xs] eqn:Hav; [discriminate|].
  rewrite <- Hav.
  destruct (choose _ _ _) as [[idx c]|] eqn:Hchoose; [|discriminate].
  cbn [fst snd]. intros [= ->].
  apply choose_elem, drop_rate_limited_elem, available_accounts_elem in Hchoose.
  destruct Hchoose as [Henum Hen]. apply enumerate_from_elem in Henum.
  destruct Henum as [Hidx Hlook]. rewrite Z.sub_0_r in Hlook.
  exists idx. split; [exact Hidx|]. split; [exact Hlook|]. split; [exact Hen|].
  rewrite put_pool_eq, save_accounts_eq. cbv zeta.
  rewrite pool_at_cached_insert, !pools_of_cached.
  cbn [accounts_file active_index strategy].
  split; [reflexivity|].
  split; [rewrite active_index_of_eq, pool_at_cached_insert; reflexivity|].
  rewrite accounts_of_eq, pool_at_cached_insert. reflexivity.
Qed.

(** C7. From the same pool state and clock, [peek_best_account] selects the
    account [get_best_account] selects (the latter returns it with
    [last_used] stamped), and both return nil together; [peek_best_account]
    leaves the accounts file as it was, while a successful
    [get_best_account] stamps [last_used], makes the chosen index the
    [active_index] and writes the pools to the file. *)
Theorem C7_peek_selects_like_get_best (s : AccountPool) (p : string)
    (model : option string) (now_ms : Z) :
  fst (get_best_account s p model now_ms)
  = option_map (set_last_used (Some now_ms)) (fst (peek_best_account s p model now_ms))
  /\ accounts_file (snd (peek_best_account s p model now_ms)) = accounts_file s
  /\ (forall chosen,
        fst (peek_best_account s p model now_ms) = Some chosen ->
        persists_choice s p model now_ms chosen).
Proof.
  split; [apply get_best_selects_like_peek|].
  split; [apply peek_leaves_file|].
  intros chosen. apply get_best_persists.
Qed.

(** [peek_best_account] is read-only on the file but not on the cache: the
    expired rate limits it clears are gone from the cached pool. *)
Example peek_clears_cached_limits :
  let s' := snd (peek_best_account stale_limit_pool "openai" None 1000) in
  accounts_file s' = accounts_file stale_limit_pool
  /\ map rate_limits (accounts_of stale_limit_pool "openai") = [ {[ "gpt-5"%string := 500 ]} ]
  /\ map rate_limits (accounts_of s' "openai") = [ ∅ ].
Proof. vm_compute. repeat split; reflexivity. Qed.

(** The write of [mark_rate_limited] flushes whatever the cache holds: after
    a [peek_best_account] dropped an expired limit from the cache, marking
    an unknown email rewrites the file without that limit. *)
Example mark_flushes_the_cache :
  let s1 := snd (peek_best_account stale_limit_pool "openai" None 1000) in
  match mark_rate_limited s1 "openai" "nobody@x" "gpt-5" 60%float 1001 with
  | Some s2 =>
      accounts_of s2 "openai" = accounts_of s1 "openai"
      /\ map rate_limits (accounts (default default_pool
                                      (default ∅ (accounts_file s1) !! "openai"%string)))
         = [ {[ "gpt-5"%string := 500 ]} ]
      /\ map rate_limits (accounts (default default_pool
                                      (default ∅ (accounts_file s2) !! "openai"%string)))
         = [ ∅ ]
  | None => False
  end.
Proof. vm_compute. repeat split; reflexivity. Qed.

(** With stored 429 counts that are not negative, [mark_rate_limited]
    raises in one case only: the email matches an account and the reset
    delay is not a number of milliseconds. *)
Lemma mark_first_raises (now_ms : Z) (email_ model : string) (reset_seconds : float)
    (accts : list AccountEntry) :
  Forall (fun a => 0 <= consecutive_429s a) accts ->
  mark_first now_ms email_ model reset_seconds accts = None
  <-> py_int (PrimFloat.mul reset_seconds 1000) = None
      /\ Exists (fun a => email a = email_) accts.
Proof.
  induction 1 as [|a accts Ha Hall IH]; cbn [mark_first].
  - split; [discriminate|]. intros [_ Hex]. now apply Exists_nil in Hex.
  - rewrite Exists_cons. destruct (String.eqb_spec (email a) email_) as [Heq|Hne].
    + destruct (py_int (PrimFloat.mul reset_seconds 1000)) as [reset_ms|] eqn:Hms.
      * rewrite (mark_entry_eq _ _ _ _ reset_ms Ha Hms). cbn [option_map].
        split; [discriminate|]. intros [[=] _].
      * rewrite (mark_entry_not_finite _ _ _ _ Hms). cbn [option_map]. tauto.
    + destruct (mark_first now_ms email_ model reset_seconds accts) as [accts'|];
        cbn [option_map].
      * split; [discriminate|]. intros [Hms [Heq|Hex]]; [contradiction|].
        destruct IH as [_ IH]. specialize (IH (conj Hms Hex)). discriminate.
      * split; [|reflexivity]. intros _. destruct IH as [IH _].
        destruct (IH eq_refl) as [Hms Hex]. auto.
Qed.

Lemma mark_first_total (now_ms : Z) (email_ model : string) (reset_seconds : float)
    (accts : list AccountEntry) :
  Forall (fun a => 0 <= consecutive_429s a) accts ->
  finite_reset reset_seconds ->
  is_Some (mark_first now_ms email_ model reset_seconds accts).
Proof.
  intros Hall [reset_ms Hms].
  destruct (mark_first now_ms email_ model reset_seconds accts) as [accts'|] eqn:Hmark;
    [now eexists|].
  apply (mark_first_raises _ _ _ _ _ Hall) in Hmark as [Hnone _]. congruence.
Qed.

Lemma mark_rate_limited_total (s : AccountPool) (p e model : string) (reset_seconds : float)
    (now_ms : Z) :
  Forall (fun a => 0 <= consecutive_429s a) (accounts_of s p) ->
  finite_reset reset_seconds ->
  is_Some (mark_rate_limited s p e model reset_seconds now_ms).
Proof.
  intros Hall Hms. rewrite accounts_of_eq in Hall. unfold mark_rate_limited.
  rewrite load_accounts_eq.
  destruct (mark_first_total now_ms e model reset_seconds _ Hall Hms) as [accts' ->].
  now eexists.
Qed.

Lemma mark_rate_limited_raises (s : AccountPool) (p e model : string) (reset_seconds : float)
    (now_ms : Z) :
  Forall (fun a => 0 <= consecutive_429s a) (accounts_of s p) ->
  mark_rate_limited s p e model reset_seconds now_ms = None
  <-> py_int (PrimFloat.mul reset_seconds 1000) = None
      /\ Exists (fun a => email a = e) (accounts_of s p).
Proof.
  intros Hall. rewrite accounts_of_eq in *.
  rewrite <- (mark_first_raises now_ms e model reset_seconds _ Hall).
  unfold mark_rate_limited. rewrite load_accounts_eq.
  destruct (mark_first _ _ _ _ _); split; (discriminate || reflexivity).
Qed.


(** *** Adding, removing and refreshing accounts *)

Lemma pool_at_loaded (s : AccountPool) (p : string) :
  pool_at (mkAccountPool (accounts_file s) (Some (ensure p (pools_of s)))) p = pool_at s p.
Proof. apply pool_at_ensure. Qed.

Lemma save_after_load (s : AccountPool) (p : string) (accts : list AccountEntry) :
  _save_accounts (mkAccountPool (accounts_file s) (Some (ensure p (pools_of s)))) p accts
  = mkAccountPool
      (Some (<[p := mkPool accts (active_index (pool_at s p)) (strategy (pool_at s p))]>
               (pools_of s)))
      (Some (<[p := mkPool accts (active_index (pool_at s p)) (strategy (pool_at s p))]>
               (pools_of s))).
Proof.
  rewrite save_accounts_eq. cbv zeta.
  rewrite pool_at_loaded, pools_of_cached, insert_ensure. reflexivity.
Qed.

Lemma filter_length_eq {A : Type} (P : A -> Prop) `{forall x, Decision (P x)} (l : list A) :
  length (filter P l) = length l <-> Forall P l.
Proof.
  induction l as [|x l IH].
  - split; [constructor|reflexivity].
  - rewrite filter_cons. destruct (decide (P x)) as [Hx|Hx].
    + cbn [length]. rewrite Forall_cons. split.
      * intros [= Hlen]. split; [exact Hx|now apply IH].
      * intros [_ Hall]. f_equal. now apply IH.
    + split.
      * intros Hlen. pose proof (length_filter P l) as Hle. cbn [length] in Hlen. lia.
      * intros Hall. apply Forall_cons in Hall as [Hx' _]. contradiction.
Qed.

Lemma filter_all {A : Type} (P : A -> Prop) `{forall x, Decision (P x)} (l : list A) :
  Forall P l -> filter P l = l.
Proof.
  induction 1 as [|x l Hx Hl IH]; [reflexivity|].
  rewrite filter_cons, decide_True by exact Hx. now f_equal.
Qed.

Lemma filter_none {A : Type} (P : A -> Prop) `{forall x, Decision (P x)} (l : list A) :
  Forall (fun x => ¬ P x) l -> filter P l = [].
Proof.
  induction 1 as [|x l Hx Hl IH]; [reflexivity|].
  rewrite filter_cons, decide_False by exact Hx. exact IH.
Qed.

Lemma Forall_filter_keep {A : Type} (Q P : A -> Prop) `{forall x, Decision (P x)}
    (l : list A) :
  Forall Q l -> Forall Q (filter P l).
Proof.
  rewrite !Forall_forall. intros Hall x Hx.
  apply list_elem_of_filter in Hx as [_ Hx]. now apply Hall.
Qed.

Lemma find_app_miss (e : string) (l l' : list AccountEntry) :
  Forall (fun a => email a ≠ e) l ->
  List.find (fun a => String.eqb (email a) e) (l ++ l')
  = List.find (fun a => String.eqb (email a) e) l'.
Proof.
  induction 1 as [|a l Ha Hl IH]; [reflexivity|].
  cbn [app List.find]. destruct (String.eqb_spec (email a) e); [contradiction|exact IH].
Qed.

Lemma find_miss (e : string) (l : list AccountEntry) :
  Forall (fun a => email a ≠ e) l ->
  List.find (fun a => String.eqb (email a) e) l = None.
Proof.
  induction 1 as [|a l Ha Hl IH]; [reflexivity|].
  cbn [List.find]. destruct (String.eqb_spec (email a) e); [contradiction|exact IH].
Qed.

Lemma Forall_filter_ne (e : string) (l : list AccountEntry) :
  Forall (fun a => email a ≠ e) (filter (fun a => email a ≠ e) l).
Proof. apply Forall_forall. intros a Ha. now apply list_elem_of_filter in Ha as [Ha _]. Qed.

(** X6. [add_account] replaces the account of an email rather than doubling it:
    the new entry comes last and is the one found for the email, in its
    initial state (enabled, no rate limit, no cooldown, counter at zero)
    whatever the replaced entry held; the other accounts keep their order;
    the active index, the other providers and the strategy are untouched;
    the pools are written to the accounts file. *)
Theorem add_account_replaces (s : AccountPool) (p : string) (c : OAuthCredentials)
    (cid : option string) (e : string) (now_ms : Z) :
  let s' := add_account s p c cid e now_ms in
  let entry := mkAccount e c cid true now_ms None ∅ None 0 None in
  accounts_of s' p = filter (fun a => email a ≠ e) (accounts_of s p) ++ [entry]
  /\ account_of s' p e = Some entry
  /\ length (filter (fun a => email a = e) (accounts_of s' p)) = 1%nat
  /\ filter (fun a => email a ≠ e) (accounts_of s' p)
     = filter (fun a => email a ≠ e) (accounts_of s p)
  /\ active_index_of s' p = active_index_of s p
  /\ strategy (pool_at s' p) = strategy (pool_at s p)
  /\ (forall q, q ≠ p -> pool_at s' q = pool_at s q)
  /\ accounts_file s' = Some (pools_of s').
Proof.
  cbv zeta. unfold add_account. rewrite load_accounts_eq, save_after_load.
  set (entry := mkAccount e c cid true now_ms None ∅ None 0 None).
  unfold account_of. rewrite !accounts_of_eq, !active_index_of_eq, !pool_at_cached_insert.
  rewrite pools_of_cached. cbn [accounts active_index strategy accounts_file].
  pose proof (Forall_filter_ne e (accounts (pool_at s p))) as Hne.
  split; [reflexivity|].
  split.
  { rewrite find_app_miss by exact Hne. cbn [List.find entry email].
    now rewrite String.eqb_refl. }
  split.
  { rewrite filter_app, length_app, (filter_none (fun a => email a = e)).
    - rewrite filter_cons, decide_True by reflexivity. reflexivity.
    - eapply Forall_impl; [exact Hne|]. auto. }
  split.
  { rewrite filter_app, (filter_all (fun a => email a ≠ e) (filter _ _)) by exact Hne.
    rewrite filter_cons, decide_False by (intros Hx; now apply Hx).
    cbn [filter]. apply app_nil_r. }
  split; [reflexivity|]. split; [reflexivity|].
  split; [|reflexivity].
  intros q Hq. rewrite pool_at_cached_insert_ne by auto. reflexivity.
Qed.

(** X7. [add_account] keeps the emails of a provider's accounts distinct. *)
Theorem add_account_unique_emails (s : AccountPool) (p : string) (c : OAuthCredentials)
    (cid : option string) (e : string) (now_ms : Z) :
  unique_emails s p -> unique_emails (add_account s p c cid e now_ms) p.
Proof.
  unfold unique_emails, add_account. rewrite load_accounts_eq, save_after_load.
  rewrite !accounts_of_eq, pool_at_cached_insert. cbn [accounts].
  intros Hnd. rewrite map_app. cbn [map email].
  apply NoDup_app. split; [|split].
  - induction (accounts (pool_at s p)) as [|a l IH]; [constructor|].
    cbn [map] in Hnd. apply NoDup_cons in Hnd as [Ha Hl].
    rewrite filter_cons. destruct (decide (email a ≠ e)); [|now apply IH].
    cbn [map]. apply NoDup_cons. split; [|now apply IH].
    intros Hin. apply Ha. apply list_elem_of_fmap in Hin as (b & Hb & Hin).
    apply list_elem_of_filter in Hin as [_ Hin].
    apply list_elem_of_fmap. eauto.
  - intros x Hin Hx. apply list_elem_of_singleton in Hx as ->.
    apply list_elem_of_fmap in Hin as (b & Hb & Hin).
    apply list_elem_of_filter in Hin as [Hne _]. now apply Hne.
  - apply NoDup_singleton.
Qed.

Lemma add_account_unique_emails_witness :
  unique_emails (add_account sample_pool "openai" refreshed_credentials None "a@x" 5000)
    "openai".
Proof.
  apply (add_account_unique_emails sample_pool "openai" refreshed_credentials None "a@x" 5000).
  apply (bool_decide_unpack _). vm_compute. exact I.
Defined.

(** X8. [remove_account] answers [False] exactly when no account has the email,
    and then writes nothing; otherwise it drops every account of that email,
    keeps the others in order, leaves the active index as it was and writes
    the pools to the accounts file. *)
Theorem remove_account_spec (s : AccountPool) (p e : string) :
  let r := remove_account s p e in
  (fst r = false <-> Forall (fun a => email a ≠ e) (accounts_of s p))
  /\ (fst r = false ->
      accounts_file (snd r) = accounts_file s /\ accounts_of (snd r) p = accounts_of s p)
  /\ (fst r = true ->
      accounts_of (snd r) p = filter (fun a => email a ≠ e) (accounts_of s p)
      /\ account_of (snd r) p e = None
      /\ (length (accounts_of (snd r) p) < length (accounts_of s p))%nat
      /\ active_index_of (snd r) p = active_index_of s p
      /\ accounts_file (snd r) = Some (pools_of (snd r))).
Proof.
  cbv zeta. unfold remove_account, account_of.
  rewrite load_accounts_eq, save_after_load, !accounts_of_eq.
  destruct (Nat.eqb_spec (length (filter (fun a => email a ≠ e) (accounts (pool_at s p))))
              (length (accounts (pool_at s p)))) as [Hlen|Hlen].
  - cbn [fst snd accounts_file]. split; [|split].
    + split; [intros _; now apply (proj1 (filter_length_eq _ _))|reflexivity].
    + intros _. split; [reflexivity|].
      rewrite pool_at_loaded. reflexivity.
    + discriminate.
  - cbn [fst snd accounts_file]. split; [|split].
    + split; [discriminate|]. intros Hall. now apply (proj2 (filter_length_eq _ _)) in Hall.
    + discriminate.
    + intros _. rewrite !active_index_of_eq.
      rewrite !pool_at_cached_insert, pools_of_cached. cbn [accounts active_index].
      split; [reflexivity|].
      split.
      { apply find_miss, Forall_filter_ne. }
      split; [|split; reflexivity].
      pose proof (length_filter (fun a => email a ≠ e) (accounts (pool_at s p))). lia.
Qed.

(** X9. Removing an account that was just added, when its email was new, gives
    back the accounts as they were. *)
Theorem add_then_remove (s : AccountPool) (p : string) (c : OAuthCredentials)
    (cid : option string) (e : string) (now_ms : Z) :
  Forall (fun a => email a ≠ e) (accounts_of s p) ->
  fst (remove_account (add_account s p c cid e now_ms) p e) = true
  /\ accounts_of (snd (remove_account (add_account s p c cid e now_ms) p e)) p
     = accounts_of s p.
Proof.
  intros Hnew. unfold add_account, remove_account.
  rewrite !load_accounts_eq, !save_after_load, pool_at_cached_insert. cbn [accounts].
  rewrite accounts_of_eq in Hnew.
  rewrite (filter_all _ _ Hnew), filter_app, (filter_all _ _ Hnew).
  rewrite filter_cons, decide_False by (intros Hx; now apply Hx).
  cbn [filter]. rewrite app_nil_r, length_app. cbn [length].
  destruct (Nat.eqb_spec (length (accounts (pool_at s p)))
              (length (accounts (pool_at s p)) + 1)) as [Hlen|_]; [lia|].
  cbn [fst snd]. split; [reflexivity|].
  rewrite !accounts_of_eq, pool_at_cached_insert. reflexivity.
Qed.

Lemma add_then_remove_witness :
  fst (remove_account (add_account sample_pool "openai" refreshed_credentials None "c@z" 5000)
         "openai" "c@z") = true
  /\ accounts_of
       (snd (remove_account
               (add_account sample_pool "openai" refreshed_credentials None "c@z" 5000)
               "openai" "c@z")) "openai"
     = accounts_of sample_pool "openai".
Proof.
  apply (add_then_remove sample_pool "openai" refreshed_credentials None "c@z" 5000).
  vm_compute. repeat constructor; discriminate.
Defined.

Lemma update_first_fields (e : string) (c c0 : OAuthCredentials) (l : list AccountEntry) :
  map (set_credentials c0) (update_first e c l) = map (set_credentials c0) l.
Proof.
  induction l as [|a l IH]; [reflexivity|]. cbn [update_first].
  destruct (String.eqb (email a) e); cbn [map]; [reflexivity|now f_equal].
Qed.

Lemma update_first_find (e : string) (c : OAuthCredentials) (l : list AccountEntry) :
  List.find (fun a => String.eqb (email a) e) (update_first e c l)
  = option_map (set_credentials c) (List.find (fun a => String.eqb (email a) e) l).
Proof.
  induction l as [|a l IH]; [reflexivity|]. cbn [update_first List.find].
  destruct (String.eqb (email a) e) eqn:Heq; cbn [List.find set_credentials email].
  - now rewrite Heq.
  - now rewrite Heq.
Qed.

Lemma update_first_other (e e' : string) (c : OAuthCredentials) (l : list AccountEntry) :
  e' ≠ e ->
  List.find (fun a => String.eqb (email a) e') (update_first e c l)
  = List.find (fun a => String.eqb (email a) e') l.
Proof.
  intros Hne. induction l as [|a l IH]; [reflexivity|]. cbn [update_first].
  destruct (String.eqb_spec (email a) e) as [Heq|Hneq]; cbn [List.find set_credentials email].
  - destruct (String.eqb_spec (email a) e'); [congruence|reflexivity].
  - now rewrite IH.
Qed.

Lemma update_first_split (e : string) (c : OAuthCredentials)
    (before after : list AccountEntry) (a : AccountEntry) :
  Forall (fun b => email b ≠ e) before ->
  email a = e ->
  update_first e c (before ++ a :: after) = before ++ set_credentials c a :: after.
Proof.
  intros Hbefore Ha. induction Hbefore as [|b l Hb _ IH]; cbn [app update_first].
  - apply String.eqb_eq in Ha. now rewrite Ha.
  - apply String.eqb_neq in Hb. rewrite Hb. now f_equal.
Qed.

(** X10. [update_credentials] touches the credentials of one account only: the
    first account of the email carries the new credentials, every other
    field of every account, the order of the accounts, the accounts of
    other emails and the later accounts of the same email are as before; an
    unknown email changes no account. *)
Theorem update_credentials_frame (s : AccountPool) (p e : string) (c : OAuthCredentials) :
  let s' := update_credentials s p e c in
  account_of s' p e = option_map (set_credentials c) (account_of s p e)
  /\ (forall e', e' ≠ e -> account_of s' p e' = account_of s p e')
  /\ (forall c0, map (set_credentials c0) (accounts_of s' p)
                 = map (set_credentials c0) (accounts_of s p))
  /\ (account_of s p e = None -> accounts_of s' p = accounts_of s p)
  /\ active_index_of s' p = active_index_of s p
  /\ accounts_file s' = Some (pools_of s')
  /\ (forall before a after,
        accounts_of s p = before ++ a :: after ->
        Forall (fun b => email b ≠ e) before -> email a = e ->
        accounts_of s' p = before ++ set_credentials c a :: after).
Proof.
  cbv zeta. unfold update_credentials, account_of.
  rewrite load_accounts_eq, save_after_load.
  rewrite !accounts_of_eq, !active_index_of_eq, !pool_at_cached_insert, pools_of_cached.
  cbn [accounts active_index accounts_file].
  split; [apply update_first_find|].
  split; [intros e' He'; now apply update_first_other|].
  split; [intros c0; apply update_first_fields|].
  split.
  { intros Hnone. induction (accounts (pool_at s p)) as [|a l IH]; [reflexivity|].
    cbn [update_first List.find] in *.
    destruct (String.eqb (email a) e); [discriminate|]. f_equal. now apply IH. }
  split; [reflexivity|]. split; [reflexivity|].
  intros before a after -> Hbefore Ha. now apply update_first_split.
Qed.


(** *** Clearing expired limits *)

Lemma rate_limits_filter_idemp (now_ms : Z) (m : gmap string Z) :
  filter (fun kv : string * Z => ¬ (snd kv <= now_ms))
    (filter (fun kv : string * Z => ¬ (snd kv <= now_ms)) m)
  = filter (fun kv : string * Z => ¬ (snd kv <= now_ms)) m.
Proof.
  apply map_eq. intros i. apply option_eq. intros x.
  rewrite !map_lookup_filter_Some. cbn [snd]. tauto.
Qed.

Lemma clear_expired_idemp (now_ms : Z) (a : AccountEntry) :
  clear_expired now_ms (clear_expired now_ms a) = clear_expired now_ms a.
Proof.
  destruct a as [e c aid en added used limits cooling count last].
  unfold clear_expired, set_rate_limits, set_cooling_until, set_consecutive_429s.
  cbn [email credentials account_id enabled added_at last_used rate_limits cooling_until
       consecutive_429s last_429_at].
  destruct (Py.truthy_int cooling && (default 0 cooling <=? now_ms)) eqn:Hcool;
    cbn [email credentials account_id enabled added_at last_used rate_limits cooling_until
         consecutive_429s last_429_at];
    destruct (Py.truthy_int last && (BACKOFF_RESET_S * 1000 <? now_ms - default 0 last))
      eqn:Hlast;
    cbn [email credentials account_id enabled added_at last_used rate_limits cooling_until
         consecutive_429s last_429_at];
    rewrite ?Hcool, ?Hlast, ?rate_limits_filter_idemp;
    cbn [email credentials account_id enabled added_at last_used rate_limits cooling_until
         consecutive_429s last_429_at Py.truthy_int andb];
    rewrite ?Hlast; reflexivity.
Qed.

(** X11. Clearing the expired limits twice at one clock reading clears nothing
    more than clearing them once. *)
Theorem clear_expired_limits_idempotent (accts : list AccountEntry) (now_ms : Z) :
  _clear_expired_limits (_clear_expired_limits accts now_ms) now_ms
  = _clear_expired_limits accts now_ms.
Proof.
  unfold _clear_expired_limits. rewrite map_map. apply map_ext.
  intros a. apply clear_expired_idemp.
Qed.

Lemma clear_expired_consecutive_429s (now_ms : Z) (a : AccountEntry) :
  consecutive_429s (clear_expired now_ms a)
  = if Py.truthy_int (last_429_at a)
       && (BACKOFF_RESET_S * 1000 <? now_ms - default 0 (last_429_at a))
    then 0 else consecutive_429s a.
Proof.
  unfold clear_expired. cbn [cooling_until set_rate_limits].
  destruct (Py.truthy_int (cooling_until a) && _);
    cbn [last_429_at set_cooling_until]; destruct (_ && _); reflexivity.
Qed.

Lemma clear_expired_last_429_at (now_ms : Z) (a : AccountEntry) :
  last_429_at (clear_expired now_ms a) = last_429_at a.
Proof. unfold clear_expired. repeat (destruct (_ && _)); reflexivity. Qed.

Lemma clear_expired_credentials (now_ms : Z) (a : AccountEntry) :
  credentials (clear_expired now_ms a) = credentials a.
Proof. unfold clear_expired. repeat (destruct (_ && _)); reflexivity. Qed.

Lemma clear_expired_account_id (now_ms : Z) (a : AccountEntry) :
  account_id (clear_expired now_ms a) = account_id a.
Proof. unfold clear_expired. repeat (destruct (_ && _)); reflexivity. Qed.

Lemma clear_expired_added_at (now_ms : Z) (a : AccountEntry) :
  added_at (clear_expired now_ms a) = added_at a.
Proof. unfold clear_expired. repeat (destruct (_ && _)); reflexivity. Qed.

Lemma clear_expired_last_used (now_ms : Z) (a : AccountEntry) :
  last_used (clear_expired now_ms a) = last_used a.
Proof. unfold clear_expired. repeat (destruct (_ && _)); reflexivity. Qed.

(** X12. What [_clear_expired_limits] leaves on an account at clock [now_ms],
    field by field.  The rate limits are those that have not expired.  The
    cooldown is kept when it is [0] or still running and is [None]
    otherwise.  The 429 counter is [0] when the last 429 is set, not [0] and
    more than [BACKOFF_RESET_S] old, and is the counter of before in every
    other case.  The email, the credentials, the account id, the enabled
    flag, the dates of addition and of last use and the date of the last 429
    are those of before. *)
Theorem clear_expired_limits_post (accts : list AccountEntry) (now_ms : Z) :
  Forall2 (fun a a' =>
             (forall m t, rate_limits a' !! m = Some t
                          <-> rate_limits a !! m = Some t /\ now_ms < t)
             /\ (forall c, cooling_until a' = Some c ->
                           cooling_until a = Some c /\ (c = 0 \/ now_ms < c))
             /\ (forall c, cooling_until a = Some c -> c = 0 \/ now_ms < c ->
                           cooling_until a' = Some c)
             /\ (forall t, last_429_at a = Some t -> t ≠ 0 ->
                           BACKOFF_RESET_S * 1000 < now_ms - t -> consecutive_429s a' = 0)
             /\ ((forall t, last_429_at a = Some t ->
                            t = 0 \/ now_ms - t <= BACKOFF_RESET_S * 1000) ->
                 consecutive_429s a' = consecutive_429s a)
             /\ email a' = email a /\ enabled a' = enabled a
             /\ credentials a' = credentials a /\ last_429_at a' = last_429_at a
             /\ account_id a' = account_id a /\ added_at a' = added_at a
             /\ last_used a' = last_used a)
          accts (_clear_expired_limits accts now_ms).
Proof.
  unfold _clear_expired_limits. apply Forall2_fmap_r, Forall_Forall2_diag, Forall_forall.
  intros a _. unfold compose.
  rewrite clear_expired_cooling_until, clear_expired_consecutive_429s,
    clear_expired_email, clear_expired_enabled, clear_expired_credentials,
    clear_expired_last_429_at, clear_expired_account_id, clear_expired_added_at,
    clear_expired_last_used.
  split.
  { intros m t. rewrite clear_expired_rate_limits, map_lookup_filter_Some. cbn [snd].
    split; intros [H1 H2]; (split; [exact H1|lia]). }
  split.
  { intros c. destruct (cooling_until a) as [cu|]; cbn [Py.truthy_int default];
      [|discriminate]. unfold id.
    destruct (Z.eqb_spec cu 0) as [Hz|Hnz]; destruct (Z.leb_spec cu now_ms) as [Hle|Hgt];
      cbn [negb andb]; intros [= <-]; (split; [reflexivity|]); auto. }
  split.
  { intros c Hc Hkeep. rewrite Hc. cbn [Py.truthy_int default]. unfold id.
    destruct (Z.eqb_spec c 0) as [Hz|Hnz]; [reflexivity|]. cbn [negb andb].
    destruct (Z.leb_spec c now_ms) as [Hle|_]; [lia|reflexivity]. }
  split.
  { intros t Ht Hnz Hold. rewrite Ht. cbn [Py.truthy_int default]. unfold id.
    destruct (Z.eqb_spec t 0) as [|_]; [contradiction|].
    destruct (Z.ltb_spec (BACKOFF_RESET_S * 1000) (now_ms - t)) as [_|]; [reflexivity|lia]. }
  split.
  { intros Hrecent. destruct (last_429_at a) as [t|]; cbn [Py.truthy_int default];
      [|reflexivity]. unfold id.
    destruct (Z.eqb_spec t 0) as [Hz|Hnz]; [reflexivity|]. cbn [negb andb].
    destruct (Z.ltb_spec (BACKOFF_RESET_S * 1000) (now_ms - t)) as [Hold|_]; [|reflexivity].
    destruct (Hrecent t eq_refl) as [Hz|Hle]; [contradiction|lia]. }
  repeat split; reflexivity.
Qed.


(** *** Which account is selected *)

Lemma not_cooling_clear_expired (now_ms : Z) (a : AccountEntry) :
  not_cooling now_ms (clear_expired now_ms a) = not_cooling now_ms a.
Proof.
  unfold not_cooling. rewrite clear_expired_enabled, clear_expired_cooling_until.
  destruct (enabled a); [|reflexivity]. cbn [andb].
  destruct (cooling_until a) as [c|]; [|reflexivity]. cbn [Py.truthy_int default]. unfold id.
  destruct (c =? 0) eqn:Hz; destruct (c <=? now_ms) eqn:Hle;
    cbn [negb andb orb Py.truthy_int default]; unfold id;
    rewrite ?Hz, ?Hle; reflexivity.
Qed.

Lemma enumerate_from_lookup {A : Type} (l : list A) (k i : Z) (a : A) :
  k <= i -> l !! Z.to_nat (i - k) = Some a -> (i, a) ∈ enumerate_from k l.
Proof.
  revert k. induction l as [|x l IH]; intros k Hk Hlook; [discriminate|].
  cbn [enumerate_from]. destruct (Z.eq_dec i k) as [->|Hne].
  - rewrite Z.sub_diag in Hlook. injection Hlook as ->. apply list_elem_of_here.
  - apply list_elem_of_further, IH; [lia|].
    replace (Z.to_nat (i - k)) with (S (Z.to_nat (i - (k + 1)))) in Hlook by lia.
    exact Hlook.
Qed.

Lemma enumerate_from_In {A : Type} (l : list A) (k : Z) (a : A) :
  a ∈ l -> exists i, (i, a) ∈ enumerate_from k l.
Proof.
  revert k. induction l as [|x l IH]; intros k Ha; [now apply not_elem_of_nil in Ha|].
  apply elem_of_cons in Ha as [->|Ha]; cbn [enumerate_from].
  - exists k. apply list_elem_of_here.
  - destruct (IH (k + 1) Ha) as [i Hi]. exists i. now apply list_elem_of_further.
Qed.

Lemma enumerate_from_snd {A : Type} (l : list A) (k : Z) (x : Z * A) :
  x ∈ enumerate_from k l -> snd x ∈ l.
Proof.
  destruct x as [i a]. intros Hx. apply enumerate_from_elem in Hx as [_ Hlook].
  now apply list_elem_of_lookup_2 in Hlook.
Qed.

Lemma filter_enumerate_nil (Q : AccountEntry -> bool) (l : list AccountEntry) (k : Z) :
  filter (fun x : Z * AccountEntry => Q (snd x) = true) (enumerate_from k l) = []
  <-> Forall (fun a => Q a = false) l.
Proof.
  revert k. induction l as [|a l IH]; intros k; cbn [enumerate_from].
  - split; [constructor|reflexivity].
  - rewrite filter_cons. cbn [snd]. destruct (decide (Q a = true)) as [Ha|Ha].
    + split; [discriminate|]. intros Hall. apply Forall_cons in Hall as [Hf _]. congruence.
    + rewrite IH, Forall_cons. apply not_true_is_false in Ha. tauto.
Qed.

Lemma available_accounts_nil (accts : list AccountEntry) (now_ms : Z) :
  available_accounts accts now_ms = [] <-> Forall (fun a => enabled a = false) accts.
Proof.
  unfold available_accounts, enumerate.
  destruct (filter (fun x => not_cooling now_ms (snd x) = true) (enumerate_from 0 accts))
    as [|x xs] eqn:Hready.
  - apply (filter_enumerate_nil enabled).
  - split; [discriminate|]. intros Hall.
    assert (x ∈ filter (fun x => not_cooling now_ms (snd x) = true) (enumerate_from 0 accts))
      as Hx by (rewrite Hready; apply list_elem_of_here).
    apply list_elem_of_filter in Hx as [Hcool Hx]. apply enumerate_from_snd in Hx.
    rewrite Forall_forall in Hall. specialize (Hall _ Hx).
    unfold not_cooling in Hcool. rewrite Hall in Hcool. discriminate.
Qed.

Lemma available_accounts_ready (accts : list AccountEntry) (now_ms : Z) :
  Exists (fun a => not_cooling now_ms a = true) accts ->
  available_accounts accts now_ms
  = filter (fun x => not_cooling now_ms (snd x) = true) (enumerate accts)
  /\ available_accounts accts now_ms ≠ [].
Proof.
  intros Hex. unfold available_accounts, enumerate.
  destruct (filter (fun x => not_cooling now_ms (snd x) = true) (enumerate_from 0 accts))
    as [|x xs] eqn:Hready; [|split; [reflexivity|discriminate]].
  apply (filter_enumerate_nil (not_cooling now_ms)) in Hready.
  apply Exists_exists in Hex as (a & Ha & Hcool). rewrite Forall_forall in Hready.
  specialize (Hready a Ha). congruence.
Qed.

Lemma drop_rate_limited_nil (model : option string) (available : list (Z * AccountEntry)) :
  drop_rate_limited model available = [] <-> available = [].
Proof.
  unfold drop_rate_limited. destruct model as [m|]; [|reflexivity].
  destruct (Py.truthy_str m); [|reflexivity].
  destruct (filter _ available) as [|y ys] eqn:Hf; [reflexivity|].
  split; [discriminate|]. intros ->. discriminate.
Qed.

Lemma drop_rate_limited_cases (model : option string) (available : list (Z * AccountEntry)) :
  drop_rate_limited model available = available
  \/ exists m, model = Some m /\ m ≠ ""%string
               /\ drop_rate_limited model available
                  = filter (fun x => rate_limits (snd x) !! m = None) available.
Proof.
  unfold drop_rate_limited. destruct model as [m|]; [|now left].
  destruct m as [|ch m]; [now left|]. cbn [Py.truthy_str].
  destruct (filter _ available) as [|y ys] eqn:Hf; [now left|].
  right. exists (String ch m). rewrite Hf. split; [reflexivity|]. split; [discriminate|reflexivity].
Qed.

Lemma sort_by_nil {A K : Type} (le : K -> K -> bool) (key : A -> K) (l : list A) :
  sort_by le key l = [] -> l = [].
Proof.
  destruct l as [|x l]; [reflexivity|]. intros Hs.
  assert (x ∈ sort_by le key (x :: l)) as Hx by (apply sort_by_elem, list_elem_of_here).
  rewrite Hs in Hx. now apply not_elem_of_nil in Hx.
Qed.

Lemma choose_none (strategy_ : string) (active_idx : Z)
    (available : list (Z * AccountEntry)) :
  choose strategy_ active_idx available = None <-> available = [].
Proof.
  unfold choose. split.
  - destruct (String.eqb strategy_ "round-robin").
    + intros Hh. apply (sort_by_nil key_le (rr_key active_idx)).
      destruct (sort_by _ _ _); [reflexivity|discriminate].
    + destruct (filter _ available); [|discriminate].
      destruct available; [reflexivity|discriminate].
  - intros ->. destruct (String.eqb strategy_ "round-robin"); reflexivity.
Qed.

(** The account [peek_best_account] returns, as one selection over the
    cleared accounts. *)
Lemma peek_selection (s : AccountPool) (p : string) (model : option string) (now_ms : Z) :
  fst (peek_best_account s p model now_ms)
  = option_map snd
      (choose (strategy (pool_at s p)) (active_index (pool_at s p))
         (drop_rate_limited model
            (available_accounts (_clear_expired_limits (accounts_of s p) now_ms) now_ms))).
Proof.
  unfold peek_best_account. rewrite accounts_of_eq, load_accounts_eq.
  destruct (accounts (pool_at s p)) as [|a accts] eqn:Haccts.
  { cbn [fst _clear_expired_limits map].
    change (available_accounts [] now_ms) with (@nil (Z * AccountEntry)).
    assert (drop_rate_limited model [] = []) as -> by now apply drop_rate_limited_nil.
    assert (choose (strategy (pool_at s p)) (active_index (pool_at s p)) [] = None) as ->
      by now apply choose_none.
    reflexivity. }
  rewrite <- Haccts. clear a accts Haccts.
  rewrite alias_rate_limits_eq, get_pool_eq, pool_at_cached_insert.
  cbv beta iota zeta. cbn [active_index strategy]. rewrite !pool_at_loaded.
  destruct (available_accounts _ _) as [|x xs] eqn:Hav.
  { assert (drop_rate_limited model [] = []) as -> by now apply drop_rate_limited_nil.
    assert (choose (strategy (pool_at s p)) (active_index (pool_at s p)) [] = None) as ->
      by now apply choose_none.
    reflexivity. }
  destruct (choose _ _ _) as [[idx chosen]|]; reflexivity.
Qed.

Lemma peek_none (s : AccountPool) (p : string) (model : option string) (now_ms : Z) :
  fst (peek_best_account s p model now_ms) = None
  <-> Forall (fun a => enabled a = false) (accounts_of s p).
Proof.
  rewrite peek_selection.
  destruct (choose _ _ _) as [x|] eqn:Hch; cbn [option_map].
  - split; [discriminate|]. intros Hall. exfalso.
    assert (choose (strategy (pool_at s p)) (active_index (pool_at s p))
              (drop_rate_limited model
                 (available_accounts (_clear_expired_limits (accounts_of s p) now_ms)
                    now_ms)) = None) as Hnone; [|congruence].
    apply choose_none, drop_rate_limited_nil, available_accounts_nil.
    unfold _clear_expired_limits. apply Forall_fmap.
    eapply Forall_impl; [exact Hall|]. intros a Ha. cbn.
    now rewrite clear_expired_enabled.
  - split; [|reflexivity]. intros _.
    apply choose_none, drop_rate_limited_nil, available_accounts_nil in Hch.
    unfold _clear_expired_limits in Hch. apply Forall_fmap in Hch.
    eapply Forall_impl; [exact Hch|]. intros a Ha. cbn in Ha.
    now rewrite clear_expired_enabled in Ha.
Qed.

Lemma get_best_none (s : AccountPool) (p : string) (model : option string) (now_ms : Z) :
  fst (get_best_account s p model now_ms) = None
  <-> Forall (fun a => enabled a = false) (accounts_of s p).
Proof.
  rewrite get_best_selects_like_peek, <- (peek_none s p model now_ms).
  destruct (fst (peek_best_account s p model now_ms)); cbn [option_map];
    split; (discriminate || reflexivity).
Qed.

(** X13. [peek_best_account], [get_best_account] and
    [get_active_credentials] answer nil exactly when the provider has no
    enabled account, which is when [has_accounts] answers false and
    [account_count] zero: accounts that are all cooling down or all
    rate-limited for the model still yield one. *)
Theorem peek_none_iff_no_enabled (s : AccountPool) (p : string) (model : option string)
    (now_ms : Z) :
  (fst (peek_best_account s p model now_ms) = None
   <-> Forall (fun a => enabled a = false) (accounts_of s p))
  /\ (fst (get_best_account s p model now_ms) = None
      <-> Forall (fun a => enabled a = false) (accounts_of s p))
  /\ (fst (get_active_credentials s p now_ms) = None
      <-> Forall (fun a => enabled a = false) (accounts_of s p))
  /\ (fst (has_accounts s p) = false
      <-> Forall (fun a => enabled a = false) (accounts_of s p))
  /\ (fst (account_count s p) = 0
      <-> Forall (fun a => enabled a = false) (accounts_of s p)).
Proof.
  split; [apply peek_none|]. split; [apply get_best_none|]. split; [|split].
  - rewrite <- (get_best_none s p None now_ms). unfold get_active_credentials.
    destruct (get_best_account s p None now_ms) as [[a|] s']; cbn [fst option_map];
      split; (discriminate || reflexivity).
  - unfold has_accounts. rewrite load_accounts_eq, accounts_of_eq. cbn [fst].
    induction (accounts (pool_at s p)) as [|a l IH]; cbn [existsb].
    + split; [constructor|reflexivity].
    + rewrite Forall_cons, <- IH. destruct (enabled a); cbn [orb]; [|tauto].
      split; [discriminate|]. intros [Hf _]. discriminate.
  - unfold account_count. rewrite load_accounts_eq, accounts_of_eq. cbn [fst].
    set (l := accounts (pool_at s p)). split.
    + intros Hlen.
      assert (filter (fun a => enabled a = true) l = []) as Hnil
        by (apply length_zero_iff_nil; lia).
      apply Forall_forall. intros b Hb.
      destruct (enabled b) eqn:Hen; [|reflexivity]. exfalso.
      assert (b ∈ filter (fun a => enabled a = true) l) as Hin
        by (apply list_elem_of_filter; auto).
      rewrite Hnil in Hin. now apply not_elem_of_nil in Hin.
    + intros Hall. rewrite (filter_none (fun a => enabled a = true)); [reflexivity|].
      eapply Forall_impl; [exact Hall|]. intros b Hb. cbn in Hb. congruence.
Qed.

(** X14. [peek_best_account] never hands out a disabled account; it hands out a
    cooling account only when every enabled account is cooling, and an
    account rate-limited for the model only when no ready account is free
    of a limit for it. *)
Theorem peek_prefers_ready (s : AccountPool) (p : string) (model : option string)
    (now_ms : Z) (chosen : AccountEntry) :
  fst (peek_best_account s p model now_ms) = Some chosen ->
  enabled chosen = true
  /\ (Exists (fun a => not_cooling now_ms a = true) (accounts_of s p) ->
      not_cooling now_ms chosen = true)
  /\ (forall m, model = Some m -> m ≠ ""%string ->
      Exists (fun a => not_cooling now_ms a = true
                       /\ forall t, rate_limits a !! m = Some t -> t <= now_ms)
        (accounts_of s p) ->
      rate_limits chosen !! m = None).
Proof.
  rewrite peek_selection.
  set (cleared := _clear_expired_limits (accounts_of s p) now_ms).
  destruct (choose _ _ _) as [[idx c]|] eqn:Hch; [|discriminate].
  cbn [option_map snd]. intros [= ->].
  apply choose_elem in Hch.
  split.
  { apply drop_rate_limited_elem, available_accounts_elem in Hch. apply Hch. }
  assert (forall P : AccountEntry -> Prop,
             Exists (fun a => P (clear_expired now_ms a)) (accounts_of s p) ->
             Exists P cleared) as Hclear.
  { intros P Hex. unfold cleared, _clear_expired_limits. now apply Exists_fmap. }
  split.
  { intros Hex.
    assert (Exists (fun a => not_cooling now_ms a = true) cleared) as Hex'.
    { apply Hclear. eapply Exists_impl; [exact Hex|]. intros a Ha. cbn.
      now rewrite not_cooling_clear_expired. }
    apply available_accounts_ready in Hex' as [Heq _].
    apply drop_rate_limited_elem in Hch. rewrite Heq in Hch.
    now apply list_elem_of_filter in Hch as [Hc _]. }
  intros m -> Hm Hex.
  assert (Exists (fun a => not_cooling now_ms a = true /\ rate_limits a !! m = None) cleared)
    as Hex'.
  { apply Hclear. eapply Exists_impl; [exact Hex|]. intros a [Ha Hlim]. cbn.
    rewrite not_cooling_clear_expired. split; [exact Ha|].
    rewrite clear_expired_rate_limits. apply map_lookup_filter_None. right.
    intros t Ht. cbn [snd]. specialize (Hlim t Ht). lia. }
  apply Exists_exists in Hex' as (a & Ha & Hready & Hfree).
  assert (Exists (fun a => not_cooling now_ms a = true) cleared) as Hex2
    by (apply Exists_exists; eauto).
  apply available_accounts_ready in Hex2 as [Heq _].
  destruct (enumerate_from_In cleared 0 a Ha) as [i Hi].
  assert ((i, a) ∈ filter (fun x => rate_limits (snd x) !! m = None)
                     (available_accounts cleared now_ms)) as Hin.
  { apply list_elem_of_filter. split; [exact Hfree|].
    rewrite Heq. apply list_elem_of_filter. split; [exact Hready|exact Hi]. }
  unfold drop_rate_limited in Hch. rewrite (truthy_str_ne m Hm) in Hch.
  destruct (filter (fun x => rate_limits (snd x) !! m = None)
              (available_accounts cleared now_ms)) as [|y ys] eqn:Hf.
  { now apply not_elem_of_nil in Hin. }
  rewrite <- Hf in Hch. now apply list_elem_of_filter in Hch as [Hc _].
Qed.

Lemma peek_prefers_ready_witness :
  enabled (fresh_account "a@x") = true
  /\ (Exists (fun a => not_cooling 1000 a = true) (accounts_of sample_pool "openai") ->
      not_cooling 1000 (fresh_account "a@x") = true)
  /\ (forall m, Some "gpt-5"%string = Some m -> m ≠ ""%string ->
      Exists (fun a => not_cooling 1000 a = true
                       /\ forall t, rate_limits a !! m = Some t -> t <= 1000)
        (accounts_of sample_pool "openai") ->
      rate_limits (fresh_account "a@x") !! m = None).
Proof.
  apply (peek_prefers_ready sample_pool "openai" (Some "gpt-5"%string) 1000
           (fresh_account "a@x")).
  vm_compute. reflexivity.
Defined.


Lemma filter_index_unique (P : Z * AccountEntry -> Prop) `{forall x, Decision (P x)}
    (l : list AccountEntry) (idx : Z) (a : AccountEntry) :
  forall k, (idx, a) ∈ filter P (enumerate_from k l) ->
            filter (fun x : Z * AccountEntry => fst x = idx) (filter P (enumerate_from k l))
            = [(idx, a)].
Proof.
  induction l as [|x l IH]; intros k Hin; cbn [enumerate_from] in *.
  { now apply not_elem_of_nil in Hin. }
  rewrite filter_cons in *. destruct (decide (P (k, x))) as [HP|HP]; [|now apply IH].
  rewrite filter_cons. cbn [fst]. destruct (decide (k = idx)) as [->|Hne].
  - assert (filter (fun y : Z * AccountEntry => fst y = idx)
              (filter P (enumerate_from (idx + 1) l)) = []) as Hrest.
    { apply filter_none, Forall_forall. intros [i b] Hb. cbn [fst].
      apply list_elem_of_filter in Hb as [_ Hb]. apply enumerate_from_elem in Hb. lia. }
    rewrite Hrest. apply elem_of_cons in Hin as [Heq|Hin]; [now rewrite Heq|].
    apply list_elem_of_filter in Hin as [_ Hin]. apply enumerate_from_elem in Hin. lia.
  - apply IH. apply elem_of_cons in Hin as [Heq|Hin]; [congruence|exact Hin].
Qed.

Lemma choose_sticky_active (strategy_ : string) (idx : Z) (a : AccountEntry)
    (P : Z * AccountEntry -> Prop) `{forall x, Decision (P x)} (l : list AccountEntry) :
  String.eqb strategy_ "round-robin" = false ->
  (idx, a) ∈ filter P (enumerate l) ->
  choose strategy_ idx (filter P (enumerate l)) = Some (idx, a).
Proof.
  intros Hst Hin. unfold choose. rewrite Hst.
  unfold enumerate in *. now rewrite (filter_index_unique P l idx a 0 Hin).
Qed.

(** X15. Under the sticky strategy (any strategy other than round-robin) the
    active account is kept for as long as it is enabled, not cooling and
    not rate-limited for the model at the clock reading. *)
Theorem peek_sticky_keeps_active (s : AccountPool) (p : string) (model : option string)
    (now_ms : Z) (a : AccountEntry) :
  strategy (pool_at s p) ≠ "round-robin"%string ->
  0 <= active_index_of s p ->
  accounts_of s p !! Z.to_nat (active_index_of s p) = Some a ->
  not_cooling now_ms a = true ->
  (forall m t, model = Some m -> rate_limits a !! m = Some t -> t <= now_ms) ->
  fst (peek_best_account s p model now_ms) = Some (clear_expired now_ms a).
Proof.
  intros Hst Hidx Hlook Hready Hfree. rewrite peek_selection.
  rewrite active_index_of_eq in Hidx, Hlook.
  set (idx := active_index (pool_at s p)) in *.
  set (cleared := _clear_expired_limits (accounts_of s p) now_ms).
  apply String.eqb_neq in Hst.
  assert ((idx, clear_expired now_ms a) ∈ enumerate cleared) as Henum.
  { apply enumerate_from_lookup; [exact Hidx|]. rewrite Z.sub_0_r.
    unfold cleared, _clear_expired_limits. change map with (@fmap list _) at 1.
    rewrite list_lookup_fmap, Hlook. reflexivity. }
  assert (not_cooling now_ms (clear_expired now_ms a) = true) as Hready'
    by now rewrite not_cooling_clear_expired.
  assert (Exists (fun a => not_cooling now_ms a = true) cleared) as Hex.
  { apply Exists_exists. exists (clear_expired now_ms a). split; [|exact Hready'].
    now apply enumerate_from_snd in Henum. }
  apply available_accounts_ready in Hex as [Hav _]. rewrite Hav.
  assert ((idx, clear_expired now_ms a)
            ∈ filter (fun x => not_cooling now_ms (snd x) = true) (enumerate cleared)) as Hin
    by (apply list_elem_of_filter; split; [exact Hready'|exact Henum]).
  destruct (drop_rate_limited_cases model
              (filter (fun x => not_cooling now_ms (snd x) = true) (enumerate cleared)))
    as [->|(m & Hm & Hne & ->)].
  - now rewrite (choose_sticky_active _ idx (clear_expired now_ms a) _ cleared Hst Hin).
  - rewrite list_filter_filter.
    rewrite (choose_sticky_active _ idx (clear_expired now_ms a) _ cleared Hst);
      [reflexivity|].
    apply list_elem_of_filter. split; [|exact Henum]. cbn [snd]. split; [|exact Hready'].
    rewrite clear_expired_rate_limits. apply map_lookup_filter_None. right.
    intros t Ht. cbn [snd]. specialize (Hfree m t Hm Ht). lia.
Qed.

Lemma peek_sticky_keeps_active_witness :
  fst (peek_best_account sample_pool "openai" (Some "gpt-5"%string) 1000)
  = Some (clear_expired 1000 (fresh_account "a@x")).
Proof.
  apply (peek_sticky_keeps_active sample_pool "openai" (Some "gpt-5"%string) 1000
           (fresh_account "a@x")).
  - vm_compute. discriminate.
  - vm_compute. discriminate.
  - vm_compute. reflexivity.
  - vm_compute. reflexivity.
  - intros m t _ Hlim. vm_compute in Hlim. discriminate.
Defined.


(** *** An invariant of the pool: 429 counters are never negative *)

Lemma peek_accounts (s : AccountPool) (p : string) (model : option string) (now_ms : Z) :
  accounts_of (snd (peek_best_account s p model now_ms)) p
  = zip_with (fun stored c => set_rate_limits (rate_limits c) stored)
      (accounts_of s p) (_clear_expired_limits (accounts_of s p) now_ms).
Proof.
  unfold peek_best_account. rewrite !accounts_of_eq, load_accounts_eq.
  destruct (accounts (pool_at s p)) as [|a accts] eqn:Haccts.
  { cbn [snd]. rewrite pool_at_loaded, Haccts. reflexivity. }
  rewrite <- Haccts. clear a accts Haccts.
  rewrite alias_rate_limits_eq, get_pool_eq, pools_of_cached.
  cbv beta iota zeta. cbn [accounts_file].
  assert (forall r : option AccountEntry,
             accounts
               (pool_at
                  (snd (r, mkAccountPool (accounts_file s)
                             (Some (ensure p
                                (<[p := mkPool
                                     (zip_with
                                        (fun stored c => set_rate_limits (rate_limits c) stored)
                                        (accounts (pool_at (mkAccountPool (accounts_file s)
                                                     (Some (ensure p (pools_of s)))) p))
                                        (_clear_expired_limits (accounts (pool_at s p)) now_ms))
                                     (active_index (pool_at (mkAccountPool (accounts_file s)
                                                     (Some (ensure p (pools_of s)))) p))
                                     (strategy (pool_at (mkAccountPool (accounts_file s)
                                                     (Some (ensure p (pools_of s)))) p))]>
                                   (ensure p (pools_of s))))))) p)
             = zip_with (fun stored c => set_rate_limits (rate_limits c) stored)
                 (accounts (pool_at s p))
                 (_clear_expired_limits (accounts (pool_at s p)) now_ms)) as Hstate.
  { intros r. cbn [snd]. rewrite pool_at_ensure, lookup_insert_eq, !pool_at_loaded.
    reflexivity. }
  destruct (available_accounts _ _) as [|x xs]; [apply (Hstate None)|].
  destruct (choose _ _ _) as [[idx chosen]|]; apply Hstate.
Qed.

Lemma get_best_accounts (s : AccountPool) (p : string) (model : option string) (now_ms : Z) :
  accounts_of (snd (get_best_account s p model now_ms)) p
  = match fst (get_best_account s p model now_ms) with
    | Some _ => accounts_of (snd (get_best_account s p model now_ms)) p
    | None => accounts_of (snd (peek_best_account s p model now_ms)) p
    end.
Proof.
  unfold get_best_account, peek_best_account. rewrite load_accounts_eq.
  destruct (accounts (pool_at s p)) as [|a accts]; [reflexivity|].
  rewrite alias_rate_limits_eq, get_pool_eq. cbv beta iota zeta.
  destruct (available_accounts _ _) as [|x xs]; [reflexivity|].
  destruct (choose _ _ _) as [[idx chosen]|]; reflexivity.
Qed.

Section Stable.
Variable Q : AccountEntry -> Prop.
Hypothesis Q_clear : forall now_ms a, Q a -> Q (clear_expired now_ms a).
Hypothesis Q_used : forall v a, Q a -> Q (set_last_used v a).
Hypothesis Q_limits : forall v a, Q a -> Q (set_rate_limits v a).

Lemma stable_cleared (accts : list AccountEntry) (now_ms : Z) :
  Forall Q accts -> Forall Q (_clear_expired_limits accts now_ms).
Proof.
  intros Hall. unfold _clear_expired_limits. apply Forall_fmap.
  eapply Forall_impl; [exact Hall|]. intros a Ha. now apply Q_clear.
Qed.

Lemma stable_aliased (accts cleared : list AccountEntry) :
  Forall Q accts ->
  Forall Q (zip_with (fun stored c => set_rate_limits (rate_limits c) stored) accts cleared).
Proof.
  intros Hall. revert cleared.
  induction Hall as [|a l Ha Hl IH]; intros [|c cleared]; cbn [zip_with]; constructor.
  - now apply Q_limits.
  - apply IH.
Qed.

Lemma stable_peek (s : AccountPool) (p : string) (model : option string) (now_ms : Z) :
  Forall Q (accounts_of s p) ->
  Forall Q (accounts_of (snd (peek_best_account s p model now_ms)) p).
Proof. intros Hall. rewrite peek_accounts. now apply stable_aliased. Qed.

Lemma stable_get_best (s : AccountPool) (p : string) (model : option string) (now_ms : Z) :
  Forall Q (accounts_of s p) ->
  Forall Q (accounts_of (snd (get_best_account s p model now_ms)) p).
Proof.
  intros Hall. rewrite get_best_accounts, get_best_selects_like_peek.
  destruct (fst (peek_best_account s p model now_ms)) as [chosen|] eqn:Hpeek;
    cbn [option_map]; [|now apply stable_peek].
  destruct (get_best_persists s p model now_ms chosen Hpeek)
    as (idx & _ & Hlook & _ & _ & _ & ->).
  pose proof (stable_cleared _ now_ms Hall) as Hcl.
  apply Forall_insert; [exact Hcl|]. apply Q_used.
  rewrite Forall_forall in Hcl. apply Hcl. now apply list_elem_of_lookup_2 in Hlook.
Qed.

Lemma stable_rotate (s : AccountPool) (p : string) (model : option string) (now_ms : Z) :
  Forall Q (accounts_of s p) ->
  Forall Q (accounts_of (snd (rotate s p model now_ms)) p).
Proof.
  intros Hall.
  destruct (Nat.ltb_spec 1 (length (accounts_of s p))) as [Hlen|Hlen].
  - rewrite (rotate_eq s p model now_ms Hlen). cbv zeta.
    pose proof (stable_cleared _ now_ms Hall) as Hcl.
    destruct (rotate_scan _ _ _ _ _) as [[idx acct]|] eqn:Hscan; cbn [snd].
    + rewrite accounts_of_eq, pool_at_cached_insert. cbn [accounts].
      apply rotate_scan_found in Hscan as (_ & _ & _ & Hlook & _).
      apply Forall_insert; [exact Hcl|]. apply Q_used.
      rewrite Forall_forall in Hcl. apply Hcl. now apply list_elem_of_lookup_2 in Hlook.
    + rewrite (accounts_of_eq (mkAccountPool _ _)), pool_at_cached_insert. cbn [accounts].
      now apply stable_aliased.
  - unfold rotate. rewrite get_pool_eq, load_accounts_eq.
    rewrite pool_at_loaded. rewrite accounts_of_eq in Hlen, Hall.
    destruct (Nat.leb_spec (length (accounts (pool_at s p))) 1) as [_|]; [|lia].
    cbn [snd]. rewrite accounts_of_eq, pool_at_ensure, pools_of_cached.
    rewrite ensure_lookup. exact Hall.
Qed.

End Stable.

Lemma mark_first_counts (now_ms : Z) (e model : string) (reset_seconds : float)
    (accts accts' : list AccountEntry) :
  Forall (fun a => 0 <= consecutive_429s a) accts ->
  mark_first now_ms e model reset_seconds accts = Some accts' ->
  Forall (fun a => 0 <= consecutive_429s a) accts'.
Proof.
  intros Hall. revert accts'.
  induction Hall as [|a l Ha Hl IH]; intros accts'; cbn [mark_first].
  - intros [= <-]. constructor.
  - destruct (String.eqb (email a) e).
    + destruct (py_int (PrimFloat.mul reset_seconds 1000)) as [reset_ms|] eqn:Hms;
        [|rewrite (mark_entry_not_finite _ _ _ _ Hms); discriminate].
      rewrite (mark_entry_eq _ _ _ _ reset_ms Ha Hms). cbn [option_map]. intros [= <-].
      constructor; [|exact Hl]. cbn [consecutive_429s].
      pose proof (next_consecutive_ge_1 a now_ms Ha). lia.
    + destruct (mark_first now_ms e model reset_seconds l) as [l'|]; [|discriminate].
      cbn [option_map]. intros [= <-]. constructor; [exact Ha|now apply IH].
Qed.

Lemma mark_rate_limited_accounts (s s' : AccountPool) (p e model : string)
    (reset_seconds : float) (now_ms : Z) :
  mark_rate_limited s p e model reset_seconds now_ms = Some s' ->
  mark_first now_ms e model reset_seconds (accounts_of s p) = Some (accounts_of s' p).
Proof.
  unfold mark_rate_limited. rewrite load_accounts_eq, accounts_of_eq.
  destruct (mark_first _ _ _ _ _) as [accts'|]; [|discriminate].
  intros [= <-]. rewrite save_after_load, accounts_of_eq, pool_at_cached_insert.
  reflexivity.
Qed.

(** X16. No operation of the pool makes a 429 counter negative.  From a pool
    whose counters are non-negative, [mark_rate_limited] raises exactly when
    [int(reset_seconds * 1000)] does (the binary64 product is a NaN or an
    infinity) and an account of the pool has the email; it never raises
    [IndexError] on the tiers; and when it returns, the counters are still
    non-negative.  The other operations keep them so too, however they are
    interleaved. *)
Theorem counts_ok_invariant (s : AccountPool) (p : string) :
  counts_ok s p ->
  (forall e model reset_seconds now_ms,
      (mark_rate_limited s p e model reset_seconds now_ms = None
       <-> py_int (PrimFloat.mul reset_seconds 1000) = None
           /\ Exists (fun a => email a = e) (accounts_of s p))
      /\ (forall s', mark_rate_limited s p e model reset_seconds now_ms = Some s' ->
                     counts_ok s' p))
  /\ (forall model now_ms, counts_ok (snd (peek_best_account s p model now_ms)) p)
  /\ (forall model now_ms, counts_ok (snd (get_best_account s p model now_ms)) p)
  /\ (forall model now_ms, counts_ok (snd (rotate s p model now_ms)) p)
  /\ (forall c cid e now_ms, counts_ok (add_account s p c cid e now_ms) p)
  /\ (forall e, counts_ok (snd (remove_account s p e)) p)
  /\ (forall e c, counts_ok (update_credentials s p e c) p).
Proof.
  unfold counts_ok. intros Hall.
  assert (forall now_ms a, 0 <= consecutive_429s a ->
                           0 <= consecutive_429s (clear_expired now_ms a)) as Hclear.
  { intros now_ms a Ha. rewrite clear_expired_consecutive_429s.
    destruct (_ && _); [reflexivity|exact Ha]. }
  split.
  { intros e model reset_seconds now_ms.
    split; [exact (mark_rate_limited_raises s p e model reset_seconds now_ms Hall)|].
    intros s' Hs'.
    apply mark_rate_limited_accounts in Hs'. exact (mark_first_counts _ _ _ _ _ _ Hall Hs'). }
  split; [intros; apply stable_peek; auto|].
  split; [intros; apply stable_get_best; auto|].
  split; [intros; apply stable_rotate; auto|].
  split.
  { intros c cid e now_ms. unfold add_account.
    rewrite load_accounts_eq, save_after_load, accounts_of_eq, pool_at_cached_insert.
    cbn [accounts]. rewrite accounts_of_eq in Hall. apply Forall_app. split.
    - now apply Forall_filter_keep.
    - constructor; [cbn [consecutive_429s]; lia|constructor]. }
  split.
  { intros e. unfold remove_account. rewrite load_accounts_eq, save_after_load.
    rewrite accounts_of_eq in Hall.
    destruct (_ =? _)%nat; cbn [snd]; rewrite accounts_of_eq.
    - now rewrite pool_at_loaded.
    - rewrite pool_at_cached_insert. cbn [accounts]. now apply Forall_filter_keep. }
  intros e c. unfold update_credentials.
  rewrite load_accounts_eq, save_after_load, accounts_of_eq, pool_at_cached_insert.
  cbn [accounts]. rewrite accounts_of_eq in Hall.
  induction Hall as [|a l Ha Hl IH]; cbn [update_first]; [constructor|].
  destruct (String.eqb (email a) e); constructor; auto.
Qed.

Lemma counts_ok_invariant_witness :
  (forall e model reset_seconds now_ms,
      (mark_rate_limited sample_pool "openai" e model reset_seconds now_ms = None
       <-> py_int (PrimFloat.mul reset_seconds 1000) = None
           /\ Exists (fun a => email a = e) (accounts_of sample_pool "openai"))
      /\ (forall s', mark_rate_limited sample_pool "openai" e model reset_seconds now_ms
                     = Some s' ->
                     counts_ok s' "openai"))
  /\ (forall model now_ms,
         counts_ok (snd (peek_best_account sample_pool "openai" model now_ms)) "openai")
  /\ (forall model now_ms,
         counts_ok (snd (get_best_account sample_pool "openai" model now_ms)) "openai")
  /\ (forall model now_ms, counts_ok (snd (rotate sample_pool "openai" model now_ms)) "openai")
  /\ (forall c cid e now_ms, counts_ok (add_account sample_pool "openai" c cid e now_ms) "openai")
  /\ (forall e, counts_ok (snd (remove_account sample_pool "openai" e)) "openai")
  /\ (forall e c, counts_ok (update_credentials sample_pool "openai" e c) "openai").
Proof.
  apply (counts_ok_invariant sample_pool "openai").
  unfold counts_ok. vm_compute. repeat constructor; discriminate.
Defined.


(** *** A marked account sits out *)

Lemma cooldown_ms_at_least (c : Z) : 1 <= c -> 60000 <= cooldown_ms c.
Proof.
  intros Hc.
  destruct (cooldown_ms_cases c Hc) as [[_ ->] | [[_ ->] | [[_ ->] | [_ ->]]]]; lia.
Qed.

Lemma mark_first_cooling (now_ms : Z) (e model : string) (reset_seconds : float)
    (accts accts' : list AccountEntry) :
  NoDup (map email accts) ->
  Forall (fun a => 0 <= consecutive_429s a) accts ->
  mark_first now_ms e model reset_seconds accts = Some accts' ->
  Forall (fun a' => email a' = e ->
                    exists c, cooling_until a' = Some c /\ now_ms + 60000 <= c) accts'.
Proof.
  intros Hnd Hall. revert accts' Hnd.
  induction Hall as [|a l Ha Hl IH]; intros accts' Hnd; cbn [mark_first].
  - intros [= <-]. constructor.
  - cbn [map] in Hnd. apply NoDup_cons in Hnd as [Hfresh Hnd].
    destruct (String.eqb_spec (email a) e) as [Heq|Hne].
    + destruct (py_int (PrimFloat.mul reset_seconds 1000)) as [reset_ms|] eqn:Hms;
        [|rewrite (mark_entry_not_finite _ _ _ _ Hms); discriminate].
      rewrite (mark_entry_eq _ _ _ _ reset_ms Ha Hms). cbn [option_map]. intros [= <-].
      constructor.
      * intros _. eexists. cbn [cooling_until]. split; [reflexivity|].
        pose proof (cooldown_ms_at_least _ (next_consecutive_ge_1 a now_ms Ha)). lia.
      * apply Forall_forall. intros b Hb Hbe. exfalso. apply Hfresh.
        rewrite Heq, <- Hbe. change map with (@fmap list _). now apply list_elem_of_fmap_2.
    + destruct (mark_first now_ms e model reset_seconds l) as [l'|]; [|discriminate].
      cbn [option_map]. intros [= <-]. constructor; [intros Hae; contradiction|].
      now apply IH.
Qed.

(** X17. An account that was just marked rate-limited is not the one [rotate]
    moves to during the first minute of its cooldown, for whatever model
    the rotation is asked. *)
Theorem rotate_skips_marked (s s' : AccountPool) (p e model : string) (reset_seconds : float)
    (now_ms later : Z) (model' : option string) (acct : AccountEntry) :
  unique_emails s p ->
  counts_ok s p ->
  0 <= now_ms ->
  mark_rate_limited s p e model reset_seconds now_ms = Some s' ->
  now_ms <= later < now_ms + 60000 ->
  fst (rotate s' p model' later) = Some acct ->
  email acct ≠ e.
Proof.
  intros Hnd Hall Hnow Hmark Hlater Hrot.
  apply mark_rate_limited_accounts in Hmark.
  pose proof (mark_first_cooling _ _ _ _ _ _ Hnd Hall Hmark) as Hcool.
  destruct (Nat.ltb_spec 1 (length (accounts_of s' p))) as [Hlen|Hlen];
    [|rewrite (rotate_few s' p model' later Hlen) in Hrot; discriminate].
  rewrite (rotate_eq s' p model' later Hlen) in Hrot. cbv zeta in Hrot.
  destruct (rotate_scan _ _ _ _ _) as [[idx a0]|] eqn:Hscan; [|discriminate].
  cbn [fst] in Hrot. injection Hrot as <-.
  apply rotate_scan_found in Hscan as (_ & _ & _ & Hlook & Hskip).
  apply lookup_map_Some in Hlook as (orig & Hlook & ->).
  apply rotate_skips_false in Hskip as (_ & _ & Hc & _).
  cbn [set_last_used email]. rewrite clear_expired_email. intros Hemail.
  rewrite Forall_forall in Hcool.
  destruct (Hcool orig (list_elem_of_lookup_2 _ _ _ Hlook) Hemail) as (c & Hcu & Hge).
  destruct (Hc c Hcu); lia.
Qed.

Lemma rotate_skips_marked_witness :
  email (set_last_used (Some 2000) (fresh_account "b@y")) ≠ "a@x"%string.
Proof.
  apply (rotate_skips_marked sample_pool
           (default sample_pool
              (mark_rate_limited sample_pool "openai" "a@x" "gpt-5" 30%float 1000))
           "openai" "a@x" "gpt-5" 30%float 1000 2000 (Some "gpt-5"%string)
           (set_last_used (Some 2000) (fresh_account "b@y"))).
  - apply (bool_decide_unpack _). vm_compute. exact I.
  - unfold counts_ok. vm_compute. repeat constructor; discriminate.
  - lia.
  - vm_compute. reflexivity.
  - lia.
  - vm_compute. reflexivity.
Defined.

End AccountsFacts.

(* ===================================================================== *)
(** ** Dispatch and stream core *)
(* ===================================================================== *)

Module DispatchFacts.
Import Accounts Dispatch.

(** *** Strings *)

Lemma append_cons (c : ascii) (a d : string) :
  (String c a ++ d = String c (a ++ d))%string.
Proof. reflexivity. Qed.

Lemma is_prefix_refl (a : string) : Py.is_prefix a a.
Proof.
  exists ""%string. induction a as [|c a IH]; [reflexivity|].
  rewrite append_cons. f_equal. exact IH.
Qed.

Lemma is_prefix_app (a d : string) : Py.is_prefix a (a ++ d).
Proof. now exists d. Qed.

Lemma append_assoc (a b c : string) : ((a ++ b) ++ c = a ++ (b ++ c))%string.
Proof. induction a as [|x a IH]; [reflexivity|]. rewrite !append_cons. now rewrite IH. Qed.

Lemma is_prefix_trans (a b c : string) :
  Py.is_prefix a b -> Py.is_prefix b c -> Py.is_prefix a c.
Proof.
  intros [r1 ->] [r2 ->]. exists (r1 ++ r2)%string. apply append_assoc.
Qed.

Lemma startswith_app_short (a d pat : string) :
  Py.startswith (a ++ d) pat = true ->
  (String.length pat <= String.length a)%nat ->
  Py.startswith a pat = true.
Proof.
  revert pat. induction a as [|c a IH]; intros [|x pat] Hs Hlen; try reflexivity.
  - cbn in Hlen. lia.
  - rewrite append_cons in Hs. cbn in Hs, Hlen |- *.
    apply andb_true_iff in Hs. destruct Hs as [-> Hs].
    apply (IH pat Hs). lia.
Qed.

(** A first occurrence in [a ++ d] that [a] does not contain ends beyond
    [a]. *)
Lemma find_app_beyond (a d pat : string) (i : nat) :
  Py.find (a ++ d) pat = Some i ->
  Py.find a pat = None ->
  (String.length a < i + String.length pat)%nat.
Proof.
  revert i. induction a as [|c a IH]; intros i Hfind Hnone.
  - cbn in Hnone. destruct pat; [discriminate|]. cbn. lia.
  - rewrite append_cons in Hfind. cbn [Py.find] in Hfind, Hnone.
    destruct (Py.startswith (String c a) pat) eqn:Hsa; [discriminate|].
    destruct (Py.find a pat) as [j|] eqn:Hfa; [discriminate|].
    destruct (Py.startswith (String c (a ++ d)) pat) eqn:Hsd.
    + injection Hfind as <-.
      destruct (Nat.le_gt_cases (String.length pat) (String.length (String c a)))
        as [Hle|Hgt]; [|lia].
      rewrite (startswith_app_short (String c a) d pat Hsd Hle) in Hsa. discriminate.
    + destruct (Py.find (a ++ d) pat) as [j|] eqn:Hfd; [|discriminate].
      injection Hfind as <-. specialize (IH j eq_refl eq_refl). cbn. lia.
Qed.

Lemma take_app_beyond (a d : string) (n : nat) :
  (String.length a <= n)%nat -> Py.is_prefix a (Py.take n (a ++ d)).
Proof.
  revert n. induction a as [|c a IH]; intros n Hlen.
  - now eexists.
  - destruct n as [|n]; [cbn in Hlen; lia|].
    destruct (IH n) as [rest Hrest]; [cbn in Hlen; lia|].
    exists rest. rewrite !append_cons. cbn [Py.take]. now rewrite Hrest.
Qed.

Lemma find_take_end (s pat : string) (i : nat) :
  Py.find s pat = Some i ->
  Py.startswith (Py.drop i s) pat = true.
Proof.
  revert i. induction s as [|c s IH]; intros i; cbn [Py.find].
  - destruct (Py.startswith "" pat) eqn:Hs; [|discriminate]. now intros [= <-].
  - destruct (Py.startswith (String c s) pat) eqn:Hs; [now intros [= <-]|].
    destruct (Py.find s pat) as [j|]; [|discriminate].
    intros [= <-]. cbn. now apply IH.
Qed.

(** *** [_stream] *)

Lemma last_of_cons (a y : string) (l : list string) :
  last_of a (y :: l) = last_of y l.
Proof.
  unfold last_of. revert a y. induction l as [|z l IH]; intros a y; [reflexivity|].
  change (List.last (y :: z :: l) a) with (List.last (z :: l) a).
  rewrite (IH a z), (IH y z). reflexivity.
Qed.

Lemma cumulative_cons (a : string) (l : list string) :
  Dispatch.cumulative (a :: l) <->
  match l with
  | [] => True
  | b :: _ => Py.is_prefix a b /\ Dispatch.cumulative l
  end.
Proof. destruct l; reflexivity. Qed.

(** The loop of [_stream], started on a buffer that does not hold the
    closing marker yet (or started after it was seen): every yield extends
    the buffer before it, and the buffer left is the last yield. *)
Lemma stream_loop_cumulative (cs : list Chunk) :
  forall (accumulated : string) (done_streaming : Z),
    0 <= done_streaming ->
    (done_streaming = 0 -> Py.find accumulated FUNCTION_END = None) ->
    Dispatch.cumulative (accumulated :: fst (fst (stream_loop cs accumulated done_streaming)))
    /\ snd (fst (stream_loop cs accumulated done_streaming))
       = last_of accumulated (fst (fst (stream_loop cs accumulated done_streaming))).
Proof.
  induction cs as [|chunk cs IH]; intros acc d Hd0 Hinv; [split; [exact I|reflexivity]|].
  cbn [stream_loop].
  destruct (Z.eqb_spec d 0) as [->|Hd]; cbn [negb].
  - destruct (Py.truthy_str (chunk_content chunk)); [|now apply IH].
    destruct (Py.find (acc ++ chunk_content chunk) FUNCTION_END) as [i|] eqn:Hfind.
    + specialize (IH (Py.take (i + String.length FUNCTION_END) (acc ++ chunk_content chunk)) 1).
      destruct (stream_loop cs _ 1) as [[ys final] exhausted]. cbn [fst snd] in IH |- *.
      destruct IH as [Hcum Hlast]; [lia|discriminate|]. split.
      * split; [|exact Hcum]. apply take_app_beyond.
        pose proof (find_app_beyond _ _ _ _ Hfind (Hinv eq_refl)). lia.
      * rewrite Hlast, last_of_cons. reflexivity.
    + specialize (IH (acc ++ chunk_content chunk)%string 0).
      destruct (stream_loop cs _ 0) as [[ys final] exhausted]. cbn [fst snd] in IH |- *.
      destruct IH as [Hcum Hlast]; [lia|auto|]. split.
      * split; [apply is_prefix_app|exact Hcum].
      * rewrite Hlast, last_of_cons. reflexivity.
  - destruct (chunk_usage chunk || (5 <? d + 1)); [split; [exact I|reflexivity]|].
    apply IH; lia.
Qed.

Lemma cumulative_tail (a : string) (l : list string) :
  Dispatch.cumulative (a :: l) -> Dispatch.cumulative l.
Proof. destruct l; [auto|]. now intros [_ H]. Qed.

Lemma cumulative_prefix_of_last (l : list string) (a : string) :
  Dispatch.cumulative (a :: l) -> Forall (fun s => Py.is_prefix s (last_of a l)) (a :: l).
Proof.
  revert a. induction l as [|b l IH]; intros a Hcum.
  - constructor; [apply is_prefix_refl|constructor].
  - destruct Hcum as [Hab Hcum]. specialize (IH b Hcum).
    rewrite last_of_cons.
    constructor; [|exact IH].
    apply (is_prefix_trans a b); [exact Hab|]. now inversion IH.
Qed.

Lemma map_content_partials (ys : list string) :
  map content (map (fun s => mkResponse s None None) ys) = ys.
Proof. induction ys as [|y ys IH]; [reflexivity|]. cbn [map content]. now rewrite IH. Qed.

Section DispatcherFacts.

Variable finalize : string -> string.
Variable parse_tool_invocations : string -> option (list string).
Variable extract_thinking : list Chunk -> option (list string).
Variable litellm_should_retry : Z -> bool.
Variable parse_float : string -> option float.
Variable PROVIDERS_AVAILABLE : bool.
Variable is_antigravity : string -> bool.
Variable detect_provider : string -> option string.
Variable try_model_fallback : string -> Exn -> option string.
Variable max_retries : Z.
Variable _stream_antigravity : Attempt -> list LLMResponse * StreamEnd.

Local Abbreviation stream := (_stream finalize parse_tool_invocations extract_thinking).
Local Abbreviation try_rotate :=
  (_try_rotate_on_rate_limit parse_float PROVIDERS_AVAILABLE is_antigravity detect_provider).
Local Abbreviation step :=
  (generate_step finalize parse_tool_invocations extract_thinking litellm_should_retry
     parse_float PROVIDERS_AVAILABLE is_antigravity detect_provider try_model_fallback
     max_retries _stream_antigravity).
Local Abbreviation gen :=
  (generate finalize parse_tool_invocations extract_thinking litellm_should_retry
     parse_float PROVIDERS_AVAILABLE is_antigravity detect_provider try_model_fallback
     max_retries _stream_antigravity).

Lemma stream_eq (a : Attempt) :
  cumulative (map content (fst (stream a)))
  /\ forall terminal,
       snd (stream a) = Finished terminal ->
       content terminal = finalize (last_of "" (map content (fst (stream a)))).
Proof.
  unfold _stream.
  destruct (stream_loop_cumulative (chunks a) "" 0) as [Hcum Hlast]; [lia|reflexivity|].
  destruct (stream_loop (chunks a) "" 0) as [[ys final] exhausted].
  cbn [fst snd] in Hcum, Hlast. apply cumulative_tail in Hcum.
  destruct exhausted, (failure a) as [e|]; cbn [fst snd];
    rewrite map_content_partials; (split; [exact Hcum|]);
    intros terminal [= <-]; cbn [content]; now rewrite Hlast.
Qed.

(** C3 (amended). Within one run of [_stream] (one attempt), every partial
    snapshot's content is a prefix of the next partial snapshot's content;
    the terminal snapshot's content is the finalizer
    ([fix_incomplete_tool_call] after [_truncate_to_first_function])
    applied to the last partial content (to the empty string when there was
    none), so it extends every partial content whenever the finalizer only
    appends; and a call of [generate] whose first attempt finishes yields
    exactly that run's snapshots. *)
Theorem C3_stream_cumulative (a : Attempt) :
  cumulative (map content (fst (stream a)))
  /\ forall terminal,
       snd (stream a) = Finished terminal ->
       content terminal = finalize (last_of "" (map content (fst (stream a))))
       /\ ((forall s, Py.is_prefix s (finalize s)) ->
           Forall (fun r => Py.is_prefix (content r) (content terminal)) (fst (stream a)))
       /\ (forall script self,
             is_antigravity (model_name self) = false -> 0 <= max_retries ->
             gen (a :: script) self = (fst (stream a) ++ [terminal], Returned)).
Proof.
  destruct (stream_eq a) as [Hcum Hterm]. split; [exact Hcum|].
  intros terminal Hfin. specialize (Hterm terminal Hfin).
  split; [exact Hterm|]. split.
  - intros Hext. rewrite Hterm.
    destruct (stream_loop_cumulative (chunks a) "" 0) as [Hc0 _]; [lia|reflexivity|].
    assert (fst (fst (stream_loop (chunks a) "" 0)) = map content (fst (stream a))) as Hys.
    { unfold _stream. destruct (stream_loop (chunks a) "" 0) as [[ys final] exhausted].
      destruct exhausted, (failure a); cbn [fst]; now rewrite map_content_partials. }
    rewrite Hys in Hc0. apply cumulative_prefix_of_last in Hc0.
    inversion Hc0 as [|? ? _ Hall]; subst. clear Hc0 Hys Hterm Hfin Hcum.
    set (final := last_of "" (map content (fst (stream a)))) in *. clearbody final.
    induction (fst (stream a)) as [|r rs IH]; constructor.
    + inversion Hall; subst. eapply is_prefix_trans; [eassumption|apply Hext].
    + apply IH. now inversion Hall.
  - intros script self Hag Hmax. unfold generate. cbn [generate_loop].
    destruct (Z.leb_spec 0 max_retries) as [_|?]; [|lia].
    unfold generate_step. rewrite Hag.
    destruct (stream a) as [ys fin]. cbn [fst snd] in Hfin |- *. rewrite Hfin. reflexivity.
Qed.

(** What the handler passes as [reset_seconds]: the parsed header, or 60
    when the header is absent, empty or unparseable. *)
Lemma retry_after_of_cases (e : Exn) :
  (retry_after_header e = None -> retry_after_of parse_float e = 60%float)
  /\ (forall ra, retry_after_header e = Some ra -> parse_float ra = None ->
      retry_after_of parse_float e = 60%float)
  /\ (forall ra v, retry_after_header e = Some ra -> ra ≠ ""%string ->
      parse_float ra = Some v -> retry_after_of parse_float e = v).
Proof.
  unfold retry_after_header, retry_after_of.
  destruct (response e) as [resp|].
  - destruct (Pricing.dict_get (resp_headers resp) "retry-after") as [ra|].
    + split; [discriminate|]. split.
      * intros ? [= <-] ->. now destruct (Py.truthy_str ra).
      * intros ? v [= <-] Hne ->. now rewrite (AccountsFacts.truthy_str_ne ra Hne).
    + split; [reflexivity|]. split; discriminate.
  - split; [reflexivity|]. split; discriminate.
Qed.

(** C4 (amended). When an attempt fails with an error whose HTTP status is
    429, and the provider integration is available, a provider is detected
    for the model and [peek_best_account] finds a current account, the
    handler makes exactly three pool calls: [peek_best_account(provider)],
    [mark_rate_limited] for that account's email with the parsed
    [Retry-After] value (60 when the header is absent or unparseable), and
    [rotate(provider, bare model)]; it reports whether [rotate] returned an
    account, and when it did the loop of [generate] goes on with the
    attempt counter unchanged. *)
Theorem C4_rotation_on_429 (self : LLM) (e : Exn) (now : Readings) (p : string)
    (current : AccountEntry) (pool2 : AccountPool) :
  PROVIDERS_AVAILABLE = true ->
  error_code e = Some 429 ->
  (if is_antigravity (model_name self) then Some "antigravity"%string
   else detect_provider (model_name self)) = Some p ->
  p ≠ ""%string ->
  fst (peek_best_account (pool self) p None (at_peek now)) = Some current ->
  mark_rate_limited (snd (peek_best_account (pool self) p None (at_peek now))) p
    (email current) (Py.split1_last (model_name self) "/")
    (retry_after_of parse_float e) (at_mark now) = Some pool2 ->
  try_rotate self e now
  = Some (mkRotateOutcome
            (bool_decide (is_Some (fst (rotate pool2 p
                                         (Some (Py.split1_last (model_name self) "/"))
                                         (at_rotate now)))))
            (snd (rotate pool2 p (Some (Py.split1_last (model_name self) "/"))
                    (at_rotate now)))
            [CallPeek p None;
             CallMark p (email current) (Py.split1_last (model_name self) "/")
               (retry_after_of parse_float e);
             CallRotate p (Some (Py.split1_last (model_name self) "/"))])
  /\ ((retry_after_header e = None -> retry_after_of parse_float e = 60%float)
      /\ (forall ra, retry_after_header e = Some ra -> parse_float ra = None ->
          retry_after_of parse_float e = 60%float)
      /\ (forall ra v, retry_after_header e = Some ra -> ra ≠ ""%string ->
          parse_float ra = Some v -> retry_after_of parse_float e = v))
  /\ (forall attempt a ys,
        is_Some (fst (rotate pool2 p (Some (Py.split1_last (model_name self) "/"))
                        (at_rotate now))) ->
        (if is_antigravity (model_name self) then _stream_antigravity a else stream a)
        = (ys, Raised e) ->
        clock a = now ->
        step self attempt a
        = StepContinue ys attempt
            (mkLLM (model_name self)
               (snd (rotate pool2 p (Some (Py.split1_last (model_name self) "/"))
                       (at_rotate now))))).
Proof.
  intros Hav Hcode Hprov Hp Hpeek Hmark.
  assert (try_rotate self e now
          = Some (mkRotateOutcome
                    (bool_decide (is_Some (fst (rotate pool2 p
                       (Some (Py.split1_last (model_name self) "/")) (at_rotate now)))))
                    (snd (rotate pool2 p (Some (Py.split1_last (model_name self) "/"))
                            (at_rotate now)))
                    [CallPeek p None;
                     CallMark p (email current) (Py.split1_last (model_name self) "/")
                       (retry_after_of parse_float e);
                     CallRotate p (Some (Py.split1_last (model_name self) "/"))])) as Hrot.
  { unfold _try_rotate_on_rate_limit. rewrite Hav, Hcode, Hprov. cbn [negb].
    rewrite bool_decide_eq_true_2 by reflexivity. cbn [negb Py.truthy_ostr default].
    rewrite (AccountsFacts.truthy_str_ne p Hp). cbn [negb]. unfold id.
    destruct (peek_best_account (pool self) p None (at_peek now)) as [cur pool1].
    cbn [fst snd] in Hpeek, Hmark. subst cur. rewrite Hmark.
    destruct (rotate pool2 p _ (at_rotate now)) as [[acct|] pool3]; reflexivity. }
  split; [exact Hrot|]. split; [apply retry_after_of_cases|].
  intros attempt a ys Hsome Hstream Hclock. unfold generate_step.
  rewrite Hstream, Hclock, Hrot. cbn [rotated pool_after].
  now rewrite bool_decide_eq_true_2.
Qed.

End DispatcherFacts.

(** C3 as stated fails: a retry inside [generate] restarts the stream, so
    the snapshots yielded by one call need not be cumulative, whatever the
    finalizer and the other collaborators are. *)
Lemma C3_retry_restarts_the_stream :
  exists script self,
    forall finalize parse_tool_invocations extract_thinking litellm_should_retry
           parse_float PROVIDERS_AVAILABLE detect_provider try_model_fallback
           _stream_antigravity,
      map content
        (fst (generate finalize parse_tool_invocations extract_thinking
                litellm_should_retry parse_float PROVIDERS_AVAILABLE (fun _ => false)
                detect_provider try_model_fallback 5 _stream_antigravity script self))
      = ["ab"; "c"; finalize "c"]%string
      /\ ~ cumulative
             (map content
                (fst (generate finalize parse_tool_invocations extract_thinking
                        litellm_should_retry parse_float PROVIDERS_AVAILABLE
                        (fun _ => false) detect_provider try_model_fallback 5
                        _stream_antigravity script self))).
Proof.
  exists retry_script, plain_llm. intros.
  assert (map content
            (fst (generate finalize parse_tool_invocations extract_thinking
                    litellm_should_retry parse_float PROVIDERS_AVAILABLE (fun _ => false)
                    detect_provider try_model_fallback 5 _stream_antigravity
                    retry_script plain_llm))
          = ["ab"; "c"; finalize "c"]%string) as ->.
  { destruct PROVIDERS_AVAILABLE; vm_compute; reflexivity. }
  split; [reflexivity|].
  intros [[rest Hrest] _]. cbv in Hrest. discriminate Hrest.
Qed.

(** C4 (amended) on the sample pool, for a 429 with [Retry-After: 30]. *)
Lemma C4_rotation_on_429_witness :
  exists r,
    _try_rotate_on_rate_limit parse_30 true (fun _ => false)
      (fun _ => Some "openai"%string) (openai_llm sample_pool) error_429
      (mkReadings 1000 1000 1001) = Some r
    /\ calls r = [CallPeek "openai" None; CallMark "openai" "a@x" "gpt-5" 30%float;
                  CallRotate "openai" (Some "gpt-5"%string)]
    /\ rotated r = true.
Proof.
  edestruct (C4_rotation_on_429 (fun s => s) (fun _ => None) (fun _ => None)
               (fun _ => true) parse_30 true (fun _ => false)
               (fun _ => Some "openai"%string) (fun _ _ => None) 5
               (fun _ => ([], Raised error_429))
               (openai_llm sample_pool) error_429 (mkReadings 1000 1000 1001)
               "openai" (fresh_account "a@x")) as [Hrot _].
  - reflexivity.
  - reflexivity.
  - reflexivity.
  - discriminate.
  - vm_compute. reflexivity.
  - reflexivity.
  - eexists. split; [exact Hrot|]. split; vm_compute; reflexivity.
Defined.

(** Specification scenario 1 on the sample pool: a 429 with
    [Retry-After: 30] on [a@x] marks it (limit for 30 s, cooldown 60 s,
    first 429), rotates to [b@y], and the loop retries at the same attempt
    number. *)
Example scenario_rate_limit_rotation :
  match generate_step (fun s => s) (fun _ => None) (fun _ => None) (fun _ => true)
          parse_30 true (fun _ => false) (fun _ => Some "openai"%string)
          (fun _ _ => None) 5 (fun _ => ([], Raised error_429))
          (openai_llm sample_pool) 0
          (mkAttempt [] (Some error_429) (mkReadings 1000 1000 1001)) with
  | StepContinue ys attempt self' =>
      ys = [] /\ attempt = 0
      /\ active_index_of (pool self') "openai" = 1
      /\ option_map (fun a => (rate_limits a !! "gpt-5"%string, cooling_until a,
                               consecutive_429s a))
           (account_of (pool self') "openai" "a@x")
         = Some (Some 31000, Some 61000, 1)
  | _ => False
  end.
Proof. vm_compute. repeat split; reflexivity. Qed.

(** C4 as stated fails: a 429 does not always lead to [mark_rate_limited]
    and [rotate].  With no stored account for the detected provider the
    handler stops after [peek_best_account]; with no provider detected it
    makes no pool call at all; in both cases the loop falls through to the
    ordinary backoff and increments the attempt counter. *)
Lemma C4_no_account_no_rotation :
  error_code error_429 = Some 429
  /\ (exists r,
        _try_rotate_on_rate_limit parse_30 true (fun _ => false)
          (fun _ => Some "openai"%string) (openai_llm empty_pool) error_429
          (mkReadings 1000 1000 1001) = Some r
        /\ calls r = [CallPeek "openai" None] /\ rotated r = false)
  /\ (exists r,
        _try_rotate_on_rate_limit parse_30 true (fun _ => false)
          (fun _ => None) (openai_llm sample_pool) error_429
          (mkReadings 1000 1000 1001) = Some r
        /\ calls r = [] /\ rotated r = false)
  /\ (exists self',
        generate_step (fun s => s) (fun _ => None) (fun _ => None) (fun _ => true)
          parse_30 true (fun _ => false) (fun _ => Some "openai"%string)
          (fun _ _ => None) 5 (fun _ => ([], Raised error_429))
          (openai_llm empty_pool) 0
          (mkAttempt [] (Some error_429) (mkReadings 1000 1000 1001))
        = StepContinue [] 1 self').
Proof.
  split; [reflexivity|].
  split; [eexists; split; [reflexivity|split; reflexivity]|].
  split; [eexists; split; [reflexivity|split; reflexivity]|].
  eexists. reflexivity.
Qed.

(** The closing marker stops the stream: the buffer is cut right after the
    first [</function>], one last partial snapshot is yielded, and whatever
    the provider sends afterwards is not (specification scenario 5, with an
    identity finalizer). *)
Example stream_stops_at_function_end :
  _stream (fun s => s) (fun _ => None) (fun _ => None)
    (mkAttempt
       [ mkChunk "run <function=terminal>" false;
         mkChunk "<parameter=command>ls</parameter></function> trailing junk" false;
         mkChunk "more junk" false;
         mkChunk "" true;
         mkChunk "never read" false ]
       None (mkReadings 0 0 0))
  = ([ mkResponse "run <function=terminal>" None None;
       mkResponse "run <function=terminal><parameter=command>ls</parameter></function>"
         None None ],
     Finished
       (mkResponse "run <function=terminal><parameter=command>ls</parameter></function>"
          None None)).
Proof. vm_compute. reflexivity. Qed.


(** *** [_mask_email] *)

Lemma length_app_string (a b : string) :
  String.length (a ++ b) = (String.length a + String.length b)%nat.
Proof.
  induction a as [|c a IH]; [reflexivity|].
  rewrite append_cons. cbn [String.length]. now rewrite IH.
Qed.

Lemma length_take_le (n : nat) (s : string) : (String.length (Py.take n s) <= n)%nat.
Proof.
  revert s. induction n as [|n IH]; intros [|c s]; cbn [Py.take String.length]; try lia.
  specialize (IH s). lia.
Qed.

Lemma find_cons (x : ascii) (s pat : string) :
  Py.find (String x s) pat
  = if Py.startswith (String x s) pat then Some 0%nat else option_map S (Py.find s pat).
Proof. reflexivity. Qed.

Lemma contains_char (s : string) (c : ascii) :
  Py.contains s (String c "") = match rsplit1 s c with Some _ => true | None => false end.
Proof.
  unfold Py.contains. induction s as [|x s IH]; [reflexivity|].
  rewrite find_cons. cbn [Py.startswith rsplit1].
  assert (Py.startswith s "" = true) as -> by (destruct s; reflexivity).
  rewrite andb_true_r, (Ascii.eqb_sym c x).
  destruct (Ascii.eqb x c).
  - destruct (rsplit1 s c) as [[l r]|]; reflexivity.
  - destruct (Py.find s (String c "")) as [i|]; cbn [option_map] in *;
      destruct (rsplit1 s c) as [[l r]|]; congruence.
Qed.

Lemma rsplit1_app (local domain : string) (c : ascii) :
  rsplit1 domain c = None ->
  rsplit1 (local ++ String c domain) c = Some (local, domain).
Proof.
  intros Hd. induction local as [|x local IH].
  - change ("" ++ String c domain)%string with (String c domain).
    cbn [rsplit1]. now rewrite Hd, Ascii.eqb_refl.
  - rewrite append_cons. cbn [rsplit1]. now rewrite IH.
Qed.

Lemma rsplit1_parts (s : string) (c : ascii) (l r : string) :
  rsplit1 s c = Some (l, r) -> s = (l ++ String c r)%string /\ rsplit1 r c = None.
Proof.
  revert l. induction s as [|x s IH]; intros l; [discriminate|].
  cbn [rsplit1]. destruct (rsplit1 s c) as [[l' r']|] eqn:Hs.
  - intros [= <- <-]. destruct (IH l' eq_refl) as [-> Hr].
    split; [now rewrite append_cons|exact Hr].
  - destruct (Ascii.eqb_spec x c) as [->|_]; [|discriminate].
    intros [= <- <-]. split; [reflexivity|exact Hs].
Qed.

(** X18. [_mask_email] never raises.  An address is cut at its last [@]; the
    mask shows at most three characters of what precedes it and three of
    what follows, a string without [@] shows its first three; the result is
    never longer than 13 characters. *)
Theorem mask_email_shape :
  (forall local domain,
      Py.contains domain "@" = false ->
      _mask_email (local ++ "@" ++ domain)
      = Some (Py.take 3 local ++ "***@" ++ Py.take 3 domain ++ "***")%string)
  /\ (forall e, Py.contains e "@" = false -> _mask_email e = Some (Py.take 3 e ++ "***")%string)
  /\ (forall e, exists m,
         _mask_email e = Some m
         /\ (String.length m <= 13)%nat
         /\ (Py.contains e "@" = true ->
             exists local domain,
               e = (local ++ "@" ++ domain)%string /\ Py.contains domain "@" = false)).
Proof.
  split; [|split].
  - intros local domain Hd. unfold _mask_email.
    rewrite contains_char in Hd |- *.
    destruct (rsplit1 domain "@") as [|] eqn:Hr; [discriminate|].
    change ("@" ++ domain)%string with (String "@" domain).
    now rewrite (rsplit1_app local domain "@" Hr).
  - intros e He. unfold _mask_email. now rewrite He.
  - intros e. unfold _mask_email. rewrite contains_char.
    destruct (rsplit1 e "@") as [[l r]|] eqn:Hr.
    + eexists. split; [reflexivity|]. split.
      * rewrite !length_app_string. cbn [String.length].
        pose proof (length_take_le 3 l). pose proof (length_take_le 3 r). lia.
      * intros _. apply rsplit1_parts in Hr as [-> Hr]. exists l, r.
        split; [reflexivity|]. rewrite contains_char. now rewrite Hr.
    + eexists. split; [reflexivity|]. split; [|discriminate].
      rewrite length_app_string. cbn [String.length].
      pose proof (length_take_le 3 e). lia.
Qed.

(** The values the repository's tests expect of [_mask_email]. *)
Example mask_email_samples :
  _mask_email "alice@example.com" = Some "ali***@exa***"%string
  /\ _mask_email "ab@x.com" = Some "ab***@x.c***"%string
  /\ _mask_email "notanemail" = Some "not***"%string
  /\ _mask_email "" = Some "***"%string
  /\ _mask_email "a@b.co" = Some "a***@b.c***"%string
  /\ _mask_email "first@second@third.org" = Some "fir***@thi***"%string.
Proof. vm_compute. repeat split; reflexivity. Qed.

(** *** Model fallback *)

Lemma find_split {A : Type} (f : A -> bool) (l : list A) (x : A) :
  List.find f l = Some x ->
  exists pre post, l = pre ++ x :: post /\ f x = true /\ Forall (fun y => f y = false) pre.
Proof.
  induction l as [|y l IH]; [discriminate|]. cbn [List.find].
  destruct (f y) eqn:Hy.
  - intros [= ->]. exists [], l. split; [reflexivity|]. split; [exact Hy|constructor].
  - intros Hfind. destruct (IH Hfind) as (pre & post & -> & Hx & Hpre).
    exists (y :: pre), post. split; [reflexivity|]. split; [exact Hx|now constructor].
Qed.

Lemma get_fallback_models_chain (current_model m : string) :
  m ∈ get_fallback_models current_model -> m ∈ ANTIGRAVITY_FALLBACK_CHAIN.
Proof.
  unfold get_fallback_models.
  destruct (index ANTIGRAVITY_FALLBACK_CHAIN (Pricing.bare_of current_model)) as [idx|].
  - intros Hm. eapply elem_of_sublist; [exact Hm|apply sublist_drop].
  - destruct (index ANTIGRAVITY_FALLBACK_CHAIN "gemini-3-flash") as [idx|].
    + intros Hm. eapply elem_of_sublist; [exact Hm|apply sublist_drop].
    + intros Hm. now apply not_elem_of_nil in Hm.
Qed.

Lemma fallback_success (cfg : option string) (pa : bool) (st st' : FallbackLLM) :
  _try_model_fallback cfg pa st = (true, st') ->
  exists fb pre post,
    get_fallback_models (fb_model_name st) = pre ++ fb :: post
    /\ Forall (fun m => m = Pricing.bare_of (fb_model_name st)
                        \/ m ∈ default ∅ (_tried_models st)) pre
    /\ fb ≠ Pricing.bare_of (fb_model_name st)
    /\ (fb ∉ default ∅ (_tried_models st))
    /\ fb ∈ ANTIGRAVITY_FALLBACK_CHAIN
    /\ st' = mkFallbackLLM
               ((if Py.contains (fb_model_name st) "/"
                 then (Py.split1_first (fb_model_name st) "/" ++ "/")%string
                 else "antigravity/"%string) ++ fb)
               (Some (default (fb_model_name st) (_original_model st)))
               (Some ({[ fb ]} ∪ ({[ Pricing.bare_of (fb_model_name st) ]}
                                   ∪ default ∅ (_tried_models st)))).
Proof.
  unfold _try_model_fallback.
  destruct (existsb _ _); [discriminate|].
  destruct pa; cbn [negb]; [|discriminate].
  destruct (get_fallback_models (fb_model_name st)) as [|f0 fs] eqn:Hfb; [discriminate|].
  destruct (List.find _ (f0 :: fs)) as [fb|] eqn:Hfind; [|discriminate].
  intros [= <-]. apply find_split in Hfind as (pre & post & Hl & Hfresh & Hpre).
  apply negb_true_iff, bool_decide_eq_false in Hfresh.
  apply not_elem_of_union in Hfresh as [Hcur Htried].
  exists fb, pre, post. split; [exact Hl|]. split; [|split; [|split; [|split]]].
  - eapply Forall_impl; [exact Hpre|]. intros m Hm. cbn in Hm.
    apply negb_false_iff, bool_decide_eq_true in Hm.
    apply elem_of_union in Hm as [Hm|Hm]; [left; now apply elem_of_singleton in Hm|now right].
  - intros Heq. apply Hcur. now apply elem_of_singleton.
  - exact Htried.
  - apply (get_fallback_models_chain (fb_model_name st)). rewrite Hfb, Hl.
    apply elem_of_app. right. apply list_elem_of_here.
  - f_equal. destruct (_original_model st); reflexivity.
Qed.

Lemma untried_shrinks (tried : gset string) (b fb : string) :
  fb ∈ ANTIGRAVITY_FALLBACK_CHAIN ->
  (fb ∉ tried) ->
  (length (filter (fun m => m ∉ ({[ fb ]} ∪ ({[ b ]} ∪ tried) : gset string))
             ANTIGRAVITY_FALLBACK_CHAIN)
   < length (filter (fun m => m ∉ tried) ANTIGRAVITY_FALLBACK_CHAIN))%nat.
Proof.
  intros Hchain Hfresh.
  rewrite <- (list_filter_filter_l
                (fun m => m ∉ ({[ fb ]} ∪ ({[ b ]} ∪ tried) : gset string))
                (fun m => m ∉ tried)).
  - apply (length_filter_lt _ _ fb).
    + apply list_elem_of_filter. split; [exact Hfresh|exact Hchain].
    + intros Hn. apply Hn. apply elem_of_union_l. now apply elem_of_singleton.
  - intros m Hm Hin. apply Hm. now apply elem_of_union_r, elem_of_union_r.
Qed.

(** X19. A successful fallback switches to the first model of the fallback list
    that was not tried yet: a model of the chain, other than the current
    one, under the provider prefix of the current one; it records both the
    model left and the model taken as tried. *)
Theorem fallback_takes_first_untried (cfg : option string) (pa : bool)
    (st st' : FallbackLLM) :
  _try_model_fallback cfg pa st = (true, st') ->
  exists fb pre post,
    get_fallback_models (fb_model_name st) = pre ++ fb :: post
    /\ Forall (fun m => m = Pricing.bare_of (fb_model_name st)
                        \/ m ∈ default ∅ (_tried_models st)) pre
    /\ fb ∈ ANTIGRAVITY_FALLBACK_CHAIN
    /\ fb ≠ Pricing.bare_of (fb_model_name st)
    /\ (fb ∉ default ∅ (_tried_models st))
    /\ fb_model_name st'
       = ((if Py.contains (fb_model_name st) "/"
           then (Py.split1_first (fb_model_name st) "/" ++ "/")%string
           else "antigravity/"%string) ++ fb)%string
    /\ (forall m, m ∈ default ∅ (_tried_models st') <->
                  m = fb \/ m = Pricing.bare_of (fb_model_name st)
                  \/ m ∈ default ∅ (_tried_models st))
    /\ (length (untried st') < length (untried st))%nat.
Proof.
  intros Hstep. destruct (fallback_success cfg pa st st' Hstep)
    as (fb & pre & post & Hl & Hpre & Hcur & Htried & Hchain & ->).
  exists fb, pre, post. cbn [fb_model_name _tried_models default].
  split; [exact Hl|]. split; [exact Hpre|]. split; [exact Hchain|].
  split; [exact Hcur|]. split; [exact Htried|]. split; [reflexivity|].
  split.
  - intros m. unfold id. rewrite !elem_of_union, !elem_of_singleton. reflexivity.
  - unfold untried. cbn [_tried_models default]. unfold id.
    now apply untried_shrinks.
Qed.

Lemma fallback_takes_first_untried_witness :
  exists fb pre post,
    get_fallback_models (fb_model_name opus_llm) = pre ++ fb :: post
    /\ Forall (fun m => m = Pricing.bare_of (fb_model_name opus_llm)
                        \/ m ∈ default ∅ (_tried_models opus_llm)) pre
    /\ fb ∈ ANTIGRAVITY_FALLBACK_CHAIN
    /\ fb ≠ Pricing.bare_of (fb_model_name opus_llm)
    /\ (fb ∉ default ∅ (_tried_models opus_llm))
    /\ fb_model_name (snd (_try_model_fallback None true opus_llm))
       = ((if Py.contains (fb_model_name opus_llm) "/"
           then (Py.split1_first (fb_model_name opus_llm) "/" ++ "/")%string
           else "antigravity/"%string) ++ fb)%string
    /\ (forall m, m ∈ default ∅ (_tried_models (snd (_try_model_fallback None true opus_llm)))
                  <-> m = fb \/ m = Pricing.bare_of (fb_model_name opus_llm)
                      \/ m ∈ default ∅ (_tried_models opus_llm))
    /\ (length (untried (snd (_try_model_fallback None true opus_llm)))
        < length (untried opus_llm))%nat.
Proof.
  apply (fallback_takes_first_untried None true opus_llm
           (snd (_try_model_fallback None true opus_llm))).
  vm_compute. reflexivity.
Defined.

Lemma fallback_run_measure (cfg : option string) (pa : bool) (n : nat) :
  forall st st', fallback_run cfg pa n st = Some st' ->
                 (n + length (untried st') <= length (untried st))%nat.
Proof.
  induction n as [|n IH]; intros st st'; cbn [fallback_run].
  - intros [= <-]. lia.
  - destruct (_try_model_fallback cfg pa st) as [[|] st1] eqn:Hstep; [|discriminate].
    intros Hrun. apply IH in Hrun.
    destruct (fallback_success cfg pa st st1 Hstep)
      as (fb & pre & post & Hl & Hpre & Hcur & Htried & Hchain & ->).
    pose proof (untried_shrinks (default ∅ (_tried_models st))
                  (Pricing.bare_of (fb_model_name st)) fb Hchain Htried) as Hlt.
    exact (Nat.le_trans _ _ _ (proj1 (Nat.succ_le_mono _ _) Hrun) Hlt).
Qed.

(** X20. Fallbacks cannot go on for ever: each one uses up a model of the chain
    that was not tried before, so a dispatcher never falls back more often
    than the chain has models, whatever it started from. *)
Theorem fallback_terminates (cfg : option string) (pa : bool) (n : nat)
    (st st' : FallbackLLM) :
  fallback_run cfg pa n st = Some st' ->
  (n + length (untried st') <= length (untried st))%nat
  /\ (length (untried st) <= length ANTIGRAVITY_FALLBACK_CHAIN)%nat
  /\ (n <= 11)%nat.
Proof.
  intros Hrun. apply fallback_run_measure in Hrun.
  assert (length (untried st) <= length ANTIGRAVITY_FALLBACK_CHAIN)%nat as Hle
    by apply length_filter.
  split; [exact Hrun|]. split; [exact Hle|].
  change (length ANTIGRAVITY_FALLBACK_CHAIN) with 11%nat in Hle. lia.
Qed.

(** From the top of the chain the dispatcher walks down all ten other
    models in order, and the eleventh fallback is refused. *)
Example fallback_walks_the_chain :
  option_map fb_model_name (fallback_run None true 1 opus_llm)
  = Some "antigravity/claude-opus-4-5-thinking"%string
  /\ option_map fb_model_name (fallback_run None true 10 opus_llm)
     = Some "antigravity/gemini-2.5-flash-lite"%string
  /\ fallback_run None true 11 opus_llm = None
  /\ fallback_run (Some "No"%string) true 1 opus_llm = None
  /\ fallback_run None false 1 opus_llm = None.
Proof. vm_compute. repeat split; reflexivity. Qed.

Lemma fallback_terminates_witness :
  (2 + length (untried (default opus_llm (fallback_run None true 2 opus_llm)))
   <= length (untried opus_llm))%nat
  /\ (length (untried opus_llm) <= length ANTIGRAVITY_FALLBACK_CHAIN)%nat
  /\ (2 <= 11)%nat.
Proof.
  apply (fallback_terminates None true 2 opus_llm
           (default opus_llm (fallback_run None true 2 opus_llm))).
  vm_compute. reflexivity.
Defined.


(** *** The closing marker ends the snapshots *)

Lemma startswith_take (s pat : string) :
  Py.startswith s pat = true ->
  Py.startswith (Py.take (String.length pat) s) pat = true
  /\ String.length (Py.take (String.length pat) s) = String.length pat.
Proof.
  revert pat. induction s as [|c s IH]; intros [|x pat]; cbn; try discriminate; auto.
  intros Hs. apply andb_true_iff in Hs as [-> Hs]. destruct (IH pat Hs) as [-> ->]. auto.
Qed.

Lemma startswith_take_inv (s pat : string) (n : nat) :
  Py.startswith (Py.take n s) pat = true -> Py.startswith s pat = true.
Proof.
  revert s pat. induction n as [|n IH]; intros [|c s] [|x pat]; cbn; try discriminate; auto.
  intros Hs. apply andb_true_iff in Hs as [-> Hs]. now rewrite (IH s pat Hs).
Qed.

Lemma find_nil (pat : string) :
  Py.find "" pat = if Py.startswith "" pat then Some 0%nat else None.
Proof. reflexivity. Qed.

Lemma find_take (s pat : string) (i : nat) :
  Py.find s pat = Some i ->
  Py.find (Py.take (i + String.length pat) s) pat = Some i
  /\ String.length (Py.take (i + String.length pat) s) = (i + String.length pat)%nat.
Proof.
  revert i. induction s as [|c s IH]; intros i.
  - rewrite find_nil. destruct (Py.startswith "" pat) eqn:Hs; [|discriminate].
    intros [= <-]. destruct pat; [|discriminate]. split; reflexivity.
  - rewrite find_cons. destruct (Py.startswith (String c s) pat) eqn:Hs.
    + intros [= <-]. destruct (startswith_take _ _ Hs) as [Hs' Hlen].
      cbn [Nat.add]. split; [|exact Hlen].
      destruct (Py.take (String.length pat) (String c s)) as [|c' t] eqn:Ht.
      * rewrite find_nil, Hs'. reflexivity.
      * rewrite find_cons, Hs'. reflexivity.
    + destruct (Py.find s pat) as [j|] eqn:Hfind; [|discriminate].
      intros [= <-]. destruct (IH j eq_refl) as [Hf Hlen].
      cbn [Nat.add Py.take String.length]. rewrite find_cons, Hf, Hlen.
      split; [|reflexivity].
      destruct (Py.startswith (String c (Py.take (j + String.length pat) s)) pat) eqn:Hs';
        [|reflexivity].
      apply (startswith_take_inv (String c s) pat (S (j + String.length pat))) in Hs'.
      congruence.
Qed.

Lemma stream_loop_done (cs : list Chunk) :
  forall (accumulated : string) (done_streaming : Z),
    0 < done_streaming ->
    fst (fst (stream_loop cs accumulated done_streaming)) = [].
Proof.
  induction cs as [|chunk cs IH]; intros accumulated d Hd; [reflexivity|].
  cbn [stream_loop]. destruct (Z.eqb_spec d 0) as [|_]; [lia|]. cbn [negb].
  destruct (chunk_usage chunk || (5 <? d + 1)); [reflexivity|]. apply IH. lia.
Qed.

Lemma stream_loop_marker (cs : list Chunk) :
  forall (accumulated : string),
    Py.find accumulated FUNCTION_END = None ->
    forall pre y post,
      fst (fst (stream_loop cs accumulated 0)) = pre ++ y :: post ->
      Py.contains y FUNCTION_END = true ->
      post = []
      /\ exists i, Py.find y FUNCTION_END = Some i
                   /\ String.length y = (i + String.length FUNCTION_END)%nat.
Proof.
  induction cs as [|chunk cs IH]; intros accumulated Hacc pre y post.
  { cbn [stream_loop fst]. intros Hnil. now destruct pre. }
  cbn [stream_loop Z.eqb negb].
  destruct (Py.truthy_str (chunk_content chunk)); [|now apply IH].
  destruct (Py.find (accumulated ++ chunk_content chunk) FUNCTION_END) as [i|] eqn:Hfind.
  - pose proof (stream_loop_done cs
                  (Py.take (i + String.length FUNCTION_END)
                     (accumulated ++ chunk_content chunk)) 1 ltac:(lia)) as Hdone.
    destruct (stream_loop cs _ 1) as [[ys final] exhausted]. cbn [fst] in Hdone |- *.
    subst ys. intros Hsplit _.
    destruct pre as [|p pre]; [|destruct pre; discriminate].
    injection Hsplit as <- <-. split; [reflexivity|].
    exists i. exact (find_take _ FUNCTION_END i Hfind).
  - specialize (IH (accumulated ++ chunk_content chunk)%string Hfind).
    destruct (stream_loop cs _ 0) as [[ys final] exhausted]. cbn [fst] in IH |- *.
    intros Hsplit Hy. destruct pre as [|p pre].
    + injection Hsplit as <- _. unfold Py.contains in Hy. rewrite Hfind in Hy. discriminate.
    + injection Hsplit as _ Hsplit. exact (IH pre y post Hsplit Hy).
Qed.


Section RetryFacts.

Variable finalize : string -> string.
Variable parse_tool_invocations : string -> option (list string).
Variable extract_thinking : list Chunk -> option (list string).
Variable litellm_should_retry : Z -> bool.
Variable parse_float : string -> option float.
Variable PROVIDERS_AVAILABLE : bool.
Variable is_antigravity : string -> bool.
Variable detect_provider : string -> option string.
Variable try_model_fallback : string -> Exn -> option string.
Variable max_retries : Z.
Variable _stream_antigravity : Attempt -> list LLMResponse * StreamEnd.

Local Abbreviation stream' := (_stream finalize parse_tool_invocations extract_thinking).
Local Abbreviation step' :=
  (generate_step finalize parse_tool_invocations extract_thinking litellm_should_retry
     parse_float PROVIDERS_AVAILABLE is_antigravity detect_provider try_model_fallback
     max_retries _stream_antigravity).
Local Abbreviation loop' :=
  (generate_loop finalize parse_tool_invocations extract_thinking litellm_should_retry
     parse_float PROVIDERS_AVAILABLE is_antigravity detect_provider try_model_fallback
     max_retries _stream_antigravity).
Local Abbreviation gen' :=
  (generate finalize parse_tool_invocations extract_thinking litellm_should_retry
     parse_float PROVIDERS_AVAILABLE is_antigravity detect_provider try_model_fallback
     max_retries _stream_antigravity).

(** X21. Among the partial snapshots of one run of [_stream], only the last can
    contain the closing marker [</function>], and it ends right after the
    first occurrence of the marker. *)
Theorem stream_marker_is_final (a : Attempt) (pre : list string) (y : string)
    (post : list string) :
  map content (fst (stream' a)) = pre ++ y :: post ->
  Py.contains y FUNCTION_END = true ->
  post = []
  /\ exists i, Py.find y FUNCTION_END = Some i
               /\ String.length y = (i + String.length FUNCTION_END)%nat.
Proof.
  unfold _stream.
  pose proof (stream_loop_marker (chunks a) "" eq_refl pre y post) as Hmarker.
  destruct (stream_loop (chunks a) "" 0) as [[ys final] exhausted]. cbn [fst] in Hmarker.
  assert (forall o : StreamEnd,
             map content (fst (map (fun s => mkResponse s None None) ys, o)) = ys) as Hys
    by (intros o; apply map_content_partials).
  destruct exhausted; [destruct (failure a)|]; rewrite Hys; exact Hmarker.
Qed.

Lemma step_plain (self : LLM) (attempt : Z) (a : Attempt) :
  PROVIDERS_AVAILABLE = false ->
  is_antigravity (model_name self) = false ->
  step' self attempt a
  = match stream' a with
    | (ys, Finished terminal) => StepReturn (ys ++ [terminal])
    | (ys, Raised e) =>
        if (max_retries <=? attempt) || negb (_should_retry litellm_should_retry e)
        then StepRaise ys (LLMRequestFailedError e)
        else StepContinue ys (attempt + 1) self
    end.
Proof.
  intros Hpa Hag. unfold generate_step, _try_rotate_on_rate_limit. rewrite Hag, Hpa.
  cbn [negb rotated pool_after model_name pool]. rewrite Hag.
  destruct self as [m pl]. cbn [model_name pool]. reflexivity.
Qed.

Lemma loop_gives_up (script : list Attempt) :
  forall (self : LLM) (attempt : Z) (extra : list Attempt),
    PROVIDERS_AVAILABLE = false ->
    is_antigravity (model_name self) = false ->
    0 <= attempt <= max_retries ->
    (Z.to_nat (max_retries - attempt) < length script)%nat ->
    loop' (script ++ extra) self attempt = loop' script self attempt
    /\ snd (loop' script self attempt) ≠ AwaitingProvider
    /\ (Forall (fun a => exists e, snd (stream' a) = Raised e) script ->
        exists a e, a ∈ script /\ snd (stream' a) = Raised e
                    /\ snd (loop' script self attempt) = Failed (LLMRequestFailedError e)).
Proof.
  induction script as [|a script IH]; intros self attempt extra Hpa Hag Hk Hlen.
  { cbn [length] in Hlen. lia. }
  cbn [app generate_loop].
  destruct (Z.leb_spec attempt max_retries) as [_|]; [|lia].
  rewrite (step_plain self attempt a Hpa Hag).
  destruct (stream' a) as [ys [terminal|e]] eqn:Hstream.
  { split; [reflexivity|]. split; [discriminate|].
    intros Hall. apply Forall_cons in Hall as [[e He] _]. rewrite Hstream in He. discriminate. }
  destruct ((max_retries <=? attempt) || negb (_should_retry litellm_should_retry e))
    eqn:Hstop.
  { split; [reflexivity|]. split; [discriminate|].
    intros _. exists a, e. split; [apply list_elem_of_here|].
    split; [now rewrite Hstream|reflexivity]. }
  apply orb_false_iff in Hstop as [Hlt _]. apply Z.leb_gt in Hlt.
  assert (Z.to_nat (max_retries - (attempt + 1)) < length script)%nat as Hlen'
    by (cbn [length] in Hlen; lia).
  destruct (IH self (attempt + 1) extra Hpa Hag ltac:(lia) Hlen') as (Heq & Hne & Hall).
  rewrite Heq. destruct (loop' script self (attempt + 1)) as [ys' o].
  cbn [snd] in *. split; [reflexivity|]. split; [exact Hne|].
  intros Hraise. apply Forall_cons in Hraise as [_ Hraise].
  destruct (Hall Hraise) as (a' & e' & Hin & Hs & Ho).
  exists a', e'. split; [now apply list_elem_of_further|]. split; [exact Hs|exact Ho].
Qed.

(** X22. Without account rotation and model fallback, [generate] makes at most
    [max_retries + 1] attempts: what the provider would play afterwards
    changes nothing, the generator has returned or failed by then, and
    when every attempt breaks it fails with [LLMRequestFailedError] caused
    by the error of one of them. *)
Theorem generate_gives_up (script extra : list Attempt) (self : LLM) :
  PROVIDERS_AVAILABLE = false ->
  is_antigravity (model_name self) = false ->
  0 <= max_retries ->
  (Z.to_nat max_retries < length script)%nat ->
  gen' (script ++ extra) self = gen' script self
  /\ snd (gen' script self) ≠ AwaitingProvider
  /\ (Forall (fun a => exists e, snd (stream' a) = Raised e) script ->
      exists a e, a ∈ script /\ snd (stream' a) = Raised e
                  /\ snd (gen' script self) = Failed (LLMRequestFailedError e)).
Proof.
  intros Hpa Hag Hmax Hlen. unfold generate.
  apply loop_gives_up; try assumption; [lia|]. now rewrite Z.sub_0_r.
Qed.

End RetryFacts.

Lemma stream_marker_is_final_witness :
  @nil string = []
  /\ exists i, Py.find "run <function=x></function>" FUNCTION_END = Some i
               /\ String.length "run <function=x></function>"
                  = (i + String.length FUNCTION_END)%nat.
Proof.
  apply (stream_marker_is_final (fun s => s) (fun _ => None) (fun _ => None)
           (mkAttempt [mkChunk "run " false; mkChunk "<function=x></function> junk" false;
                       mkChunk "more" false]
              None (mkReadings 0 0 0))
           ["run "%string] "run <function=x></function>" []).
  - vm_compute. reflexivity.
  - vm_compute. reflexivity.
Defined.

Lemma generate_gives_up_witness :
  generate (fun s => s) (fun _ => None) (fun _ => None) (fun _ => true) parse_30 false
    (fun _ => false) (fun _ => None) (fun _ _ => None) 5 (fun _ => ([], Raised error_429))
    (failing_script 6 ++ failing_script 3) plain_llm
  = generate (fun s => s) (fun _ => None) (fun _ => None) (fun _ => true) parse_30 false
      (fun _ => false) (fun _ => None) (fun _ _ => None) 5 (fun _ => ([], Raised error_429))
      (failing_script 6) plain_llm
  /\ snd (generate (fun s => s) (fun _ => None) (fun _ => None) (fun _ => true) parse_30 false
            (fun _ => false) (fun _ => None) (fun _ _ => None) 5
            (fun _ => ([], Raised error_429)) (failing_script 6) plain_llm)
     ≠ AwaitingProvider
  /\ (Forall (fun a => exists e,
                 snd (_stream (fun s => s) (fun _ => None) (fun _ => None) a) = Raised e)
        (failing_script 6) ->
      exists a e,
        a ∈ failing_script 6
        /\ snd (_stream (fun s => s) (fun _ => None) (fun _ => None) a) = Raised e
        /\ snd (generate (fun s => s) (fun _ => None) (fun _ => None) (fun _ => true)
                  parse_30 false (fun _ => false) (fun _ => None) (fun _ _ => None) 5
                  (fun _ => ([], Raised error_429)) (failing_script 6) plain_llm)
           = Failed (LLMRequestFailedError e)).
Proof.
  apply (generate_gives_up (fun s => s) (fun _ => None) (fun _ => None) (fun _ => true)
           parse_30 false (fun _ => false) (fun _ => None) (fun _ _ => None) 5
           (fun _ => ([], Raised error_429)) (failing_script 6) (failing_script 3) plain_llm).
  - reflexivity.
  - reflexivity.
  - lia.
  - vm_compute. lia.
Defined.

End DispatchFacts.

(* ===================================================================== *)
(** ** Telemetry fan-out *)
(* ===================================================================== *)

Module FanoutFacts.
Import Fanout.

(** *** The tracking attributes after a poll *)

Lemma track_count (changed_too : bool) (current last : Z) :
  (if negb (current =? last) || changed_too then current else last) = current.
Proof.
  destruct (Z.eqb_spec current last) as [->|_]; [|reflexivity].
  now destruct changed_too.
Qed.

Lemma track_value {A : Type} `{EqDecision A} (changed_too : bool) (current last : A) :
  (if changed_too || negb (bool_decide (current = last)) then current else last) = current.
Proof.
  destruct changed_too; [reflexivity|]. cbn [orb].
  destruct (bool_decide_reflect (current = last)) as [->|_]; reflexivity.
Qed.

Lemma track_count_plain (current last : Z) :
  (if negb (current =? last) then current else last) = current.
Proof. destruct (Z.eqb_spec current last) as [->|_]; reflexivity. Qed.

Lemma track_value_plain {A : Type} `{EqDecision A} (current last : A) :
  (if negb (bool_decide (current = last)) then current else last) = current.
Proof. destruct (bool_decide_reflect (current = last)) as [->|_]; reflexivity. Qed.

Lemma dict_eqb_refl (d : list (string * Z)) : dict_eqb d d = true.
Proof. unfold dict_eqb. now apply bool_decide_eq_true_2. Qed.

Lemma track_screenshots (current last : list (string * Z)) :
  dict_eqb current (if negb (dict_eqb current last) then current else last) = true.
Proof.
  destruct (dict_eqb current last) eqn:E; cbn [negb]; [exact E|apply dict_eqb_refl].
Qed.

Lemma track_scan_config (cfg last : option (gmap string string)) :
  match cfg with
  | Some c =>
      negb (bool_decide (c = ∅))
      && negb (bool_decide
                 (Some c
                  = (if match cfg with
                        | Some c' =>
                            negb (bool_decide (c' = ∅)) && negb (bool_decide (Some c' = last))
                        | None => false
                        end
                     then cfg else last)))
  | None => false
  end = false.
Proof.
  destruct cfg as [c|]; [|reflexivity].
  destruct (bool_decide_reflect (c = ∅)) as [_|_]; [reflexivity|]. cbn [negb andb].
  destruct (bool_decide_reflect (Some c = last)) as [Heq|_]; cbn [negb].
  - now rewrite bool_decide_eq_true_2.
  - now rewrite bool_decide_eq_true_2.
Qed.

Lemma track_final_report (final : option string) (sent : bool) :
  Py.truthy_ostr final
  && negb (if Py.truthy_ostr final && negb sent then true else sent) = false.
Proof. destruct (Py.truthy_ostr final), sent; reflexivity. Qed.

(** What the detector does get right: every field it tracks other than the
    stats is read from the tracer alone, so on an untouched tracer a second
    poll can only report the stats.  When the two polls compute the same
    stats snapshot, the second poll reports nothing. *)
Lemma same_stats_no_deltas (t : Tracer) (e1 e2 : Env) (self : TracerBridge) :
  _get_stats t e1 = _get_stats t e2 ->
  fst (_detect_deltas t e2 (snd (_detect_deltas t e1 self))) = []
  /\ fst (poll t e2 (snd (poll t e1 self))) = None.
Proof.
  intros Hstats.
  assert (fst (_detect_deltas t e2 (snd (_detect_deltas t e1 self))) = []) as Hnone.
  { unfold _detect_deltas. cbv zeta.
    cbn [fst snd _last_agent_count _last_agent_statuses _last_tool_count _last_chat_count
           _last_vuln_count _last_streaming _last_screenshot_ids _last_stats_hash
           _last_scan_config _sent_final_report].
    rewrite track_count, track_value, !track_count_plain, !track_value_plain.
    rewrite track_screenshots, track_scan_config, track_final_report.
    rewrite !Z.eqb_refl, !bool_decide_eq_true_2 by (reflexivity || now rewrite Hstats).
    reflexivity. }
  split; [exact Hnone|].
  unfold poll. destruct (_detect_deltas t e1 self) as [d1 self1]. cbn [snd] in Hnone.
  assert (snd (match d1 with [] => (None, self1) | _ :: _ => (Some d1, self1) end) = self1)
    as -> by now destruct d1.
  destruct (_detect_deltas t e2 self1) as [d2 self2]. cbn [fst] in Hnone. now subst d2.
Qed.

(** So it is on a run that has produced no token yet, the case of the
    repository's [test_no_deltas_when_unchanged]: its stats do not depend on
    the clock. *)
Example no_deltas_before_the_first_token :
  fst (_detect_deltas idle_tracer second_tick
         (snd (_detect_deltas idle_tracer first_tick new_bridge))) = []
  /\ fst (poll idle_tracer second_tick (snd (poll idle_tracer first_tick new_bridge))) = None.
Proof.
  apply (same_stats_no_deltas idle_tracer first_tick second_tick new_bridge).
  vm_compute. reflexivity.
Qed.

(** The first poll of a fresh bridge reports what is there. *)
Example first_poll_reports :
  fst (_detect_deltas idle_tracer first_tick new_bridge)
  = [ AgentsUpdate (_serialize_agents idle_tracer);
      ChatUpdate [ "Starting scan"%string ];
      StatsUpdate (_get_stats idle_tracer first_tick) ].
Proof. vm_compute. reflexivity. Qed.

(** C8. Two consecutive polls of an unchanged tracer should emit no deltas
    on the second poll (the repository's [test_no_deltas_when_unchanged]:
    "Second call should detect no changes").  The code does not keep to it
    on a run in progress that has produced output tokens: with the tracer
    untouched between a poll 1.0 s and a poll 1.5 s after the start, the
    second poll emits a [stats_update] and a [delta_batch] is broadcast,
    because [_get_stats] computes [tokens_per_second] against the wall clock
    (100.0 tokens/s, then 66.7) and the result is part of the hashed
    stats. *)
Lemma C8_clock_moves_the_stats :
  stats_tokens_per_second_tenths (_get_stats running_tracer first_tick) = 1000
  /\ stats_tokens_per_second_tenths (_get_stats running_tracer second_tick) = 667
  /\ fst (_detect_deltas running_tracer second_tick
            (snd (_detect_deltas running_tracer first_tick new_bridge)))
     = [ StatsUpdate (_get_stats running_tracer second_tick) ]
  /\ fst (poll running_tracer second_tick
            (snd (poll running_tracer first_tick new_bridge)))
     = Some [ StatsUpdate (_get_stats running_tracer second_tick) ].
Proof. repeat split; vm_compute; reflexivity. Qed.


(** *** What a tools update carries *)

Lemma strip_screenshot_keys (items : list (string * string)) :
  "screenshot"%string ∉ map fst (strip_screenshot items).
Proof.
  unfold strip_screenshot. change map with (@fmap list _). intros Hin.
  apply list_elem_of_fmap in Hin as ([k v] & Hk & Hin).
  apply list_elem_of_filter in Hin as [Hne _]. cbn [fst] in Hk, Hne. congruence.
Qed.

Lemma length_take_500 (n : nat) (s : string) : (String.length (Py.take n s) <= n)%nat.
Proof.
  revert s. induction n as [|n IH]; intros [|c s]; cbn [Py.take String.length]; try lia.
  specialize (IH s). lia.
Qed.

(** How [_serialize_tools] renders one execution it keeps. *)
Lemma serialize_tools_elem (t : Tracer) (offset : Z) (st : SerializedTool) :
  st ∈ _serialize_tools t offset ->
  exists data,
    (st_execution_id st, data) ∈ tool_executions t
    /\ ((st_execution_id st <=? offset) && (0 <? offset) = false)
    /\ st_args st = strip_screenshot (tool_args data)
    /\ st_result_summary st
       = match tool_result data with
         | NoResult => NoSummary
         | DictResult items =>
             DictSummary (strip_screenshot items)
               (Py.truthy_ostr (Pricing.dict_get items "screenshot"))
         | StrResult text =>
             StrSummary (if (500 <? String.length text)%nat then Py.take 500 text else text)
         end.
Proof.
  unfold _serialize_tools. intros Hin.
  apply list_elem_of_omap in Hin as ([exec_id data] & Hin & Hst).
  destruct ((exec_id <=? offset) && (0 <? offset)) eqn:Hskip; [discriminate|].
  injection Hst as <-. cbn [st_execution_id st_args st_result_summary].
  exists data. auto.
Qed.

(** X23. No tool entry the bridge serializes carries a [screenshot] key, in its
    arguments or in its result summary, and a textual result is cut to 500
    characters at most. *)
Theorem serialized_tools_hide_screenshots (t : Tracer) (offset : Z) :
  Forall (fun st =>
            ("screenshot"%string ∉ sent_keys st)
            /\ forall text, st_result_summary st = StrSummary text ->
                            (String.length text <= 500)%nat)
         (_serialize_tools t offset).
Proof.
  apply Forall_forall. intros st Hin.
  apply serialize_tools_elem in Hin as (data & _ & _ & Hargs & Hsum).
  unfold sent_keys. rewrite Hargs, Hsum. split.
  - intros Hkey. apply elem_of_app in Hkey as [Hkey|Hkey].
    + now apply strip_screenshot_keys in Hkey.
    + destruct (tool_result data) as [|items|text].
      * now apply not_elem_of_nil in Hkey.
      * now apply strip_screenshot_keys in Hkey.
      * now apply not_elem_of_nil in Hkey.
  - intros text. destruct (tool_result data) as [|items|text']; try discriminate.
    intros Heq.
    assert (text = if (500 <? String.length text')%nat then Py.take 500 text' else text')
      as -> by congruence.
    destruct (Nat.ltb_spec 500 (String.length text')) as [Hlong|Hshort].
    + apply length_take_500.
    + exact Hshort.
Qed.

(** *** What a poll reports of tools, chat and vulnerabilities *)

Lemma serialize_tools_of (t : Tracer) (l : list (Z * ToolExecution)) (offset : Z) :
  tool_executions t = l ->
  _serialize_tools t offset = _serialize_tools (set_tool_executions l t) offset.
Proof. intros <-. reflexivity. Qed.

Lemma serialize_tools_app (t : Tracer) (old new : list (Z * ToolExecution)) (offset : Z) :
  _serialize_tools (set_tool_executions (old ++ new) t) offset
  = _serialize_tools (set_tool_executions old t) offset
    ++ _serialize_tools (set_tool_executions new t) offset.
Proof. unfold _serialize_tools. cbn [tool_executions set_tool_executions]. apply omap_app. Qed.

Lemma serialize_tools_skipped (t : Tracer) (old : list (Z * ToolExecution)) (offset : Z) :
  0 < offset ->
  Forall (fun kv => fst kv <= offset) old ->
  _serialize_tools (set_tool_executions old t) offset = [].
Proof.
  intros Hpos Hall. unfold _serialize_tools. cbn [tool_executions set_tool_executions].
  induction Hall as [|[exec_id data] old Hle Hold IH]; [reflexivity|].
  cbn [omap list_omap fst] in *.
  destruct (Z.leb_spec exec_id offset) as [_|]; [|lia].
  destruct (Z.ltb_spec 0 offset) as [_|]; [|lia]. cbn [andb]. exact IH.
Qed.

Lemma serialize_tools_kept (t : Tracer) (new : list (Z * ToolExecution)) (offset : Z) :
  Forall (fun kv => offset < fst kv) new ->
  _serialize_tools (set_tool_executions new t) offset
  = _serialize_tools (set_tool_executions new t) 0.
Proof.
  intros Hall. unfold _serialize_tools. cbn [tool_executions set_tool_executions].
  induction Hall as [|[exec_id data] new Hlt Hnew IH]; [reflexivity|].
  cbn [omap list_omap fst] in *.
  destruct (Z.leb_spec exec_id offset) as [|_]; [lia|].
  rewrite andb_false_r. cbn [andb]. now rewrite IH.
Qed.

Lemma serialize_tools_all (t : Tracer) (new : list (Z * ToolExecution)) :
  length (_serialize_tools (set_tool_executions new t) 0) = length new.
Proof.
  unfold _serialize_tools. cbn [tool_executions set_tool_executions].
  induction new as [|[exec_id data] new IH]; [reflexivity|].
  cbn [omap list_omap]. rewrite andb_false_r. cbn [length]. now rewrite IH.
Qed.

Lemma omap_if_none {A : Type} (f : Delta -> option A) (c : bool) (d : Delta) :
  f d = None -> omap f (if c then [d] else []) = [].
Proof. intros Hf. destruct c; [|reflexivity]. cbn [omap list_omap]. now rewrite Hf. Qed.

Lemma omap_tools_none {A : Type} (f : Delta -> option A) (c : bool)
    (l : list SerializedTool) :
  (forall tools, f (ToolsUpdate tools) = None) ->
  omap f (if c then match l with
                    | [] => []
                    | st :: l' => [ToolsUpdate (st :: l')]
                    end
          else []) = [].
Proof.
  intros Hf. destruct c; [|reflexivity]. destruct l as [|st l]; [reflexivity|].
  cbn [omap list_omap]. now rewrite Hf.
Qed.

Lemma omap_screenshots_none {A : Type} (f : Delta -> option A) (c : bool)
    (current last : list (string * Z)) :
  (forall agent_id, f (ScreenshotUpdate agent_id) = None) ->
  omap f (if c then screenshot_deltas current last else []) = [].
Proof.
  intros Hf. destruct c; [|reflexivity]. unfold screenshot_deltas.
  induction current as [|kv current IH]; [reflexivity|]. cbn [omap list_omap].
  destruct (bool_decide _); [exact IH|]. cbn [omap list_omap]. now rewrite Hf.
Qed.

Ltac other_deltas f :=
  unfold _detect_deltas; cbn [fst]; rewrite !omap_app;
  try (rewrite (omap_if_none f _ (AgentsUpdate _)) by reflexivity);
  try (rewrite (omap_tools_none f) by (intros; reflexivity));
  try (rewrite (omap_if_none f _ (ChatUpdate _)) by reflexivity);
  try (rewrite (omap_if_none f _ (VulnerabilityUpdate _)) by reflexivity);
  try (rewrite (omap_if_none f _ (StreamingUpdate _)) by reflexivity);
  try (rewrite (omap_screenshots_none f) by (intros; reflexivity));
  try (rewrite (omap_if_none f _ (StatsUpdate _)) by reflexivity);
  try (rewrite (omap_if_none f _ (ScanConfigUpdate _)) by reflexivity);
  try (rewrite (omap_if_none f _ (ScanComplete _)) by reflexivity);
  cbn [app]; rewrite ?app_nil_r.

Lemma chat_deltas (t : Tracer) (e : Env) (self : TracerBridge) :
  omap chat_of (fst (_detect_deltas t e self))
  = if negb (len (chat_messages t) =? _last_chat_count self)
    then [slice_from (_last_chat_count self) (chat_messages t)] else [].
Proof. other_deltas (@chat_of). now destruct (negb _). Qed.

Lemma vulnerability_deltas (t : Tracer) (e : Env) (self : TracerBridge) :
  omap vulnerabilities_of (fst (_detect_deltas t e self))
  = if negb (len (vulnerability_reports t) =? _last_vuln_count self)
    then [slice_from (_last_vuln_count self) (vulnerability_reports t)] else [].
Proof. other_deltas (@vulnerabilities_of). now destruct (negb _). Qed.

Lemma tools_deltas (t : Tracer) (e : Env) (self : TracerBridge) :
  omap tools_of (fst (_detect_deltas t e self))
  = if negb (len (tool_executions t) =? _last_tool_count self)
    then match _serialize_tools t (_last_tool_count self) with
         | [] => []
         | new_tools => [new_tools]
         end
    else [].
Proof.
  other_deltas (@tools_of). destruct (negb _); [|reflexivity].
  now destruct (_serialize_tools t (_last_tool_count self)).
Qed.

Lemma counts_after_poll (t : Tracer) (e : Env) (self : TracerBridge) :
  _last_tool_count (snd (_detect_deltas t e self)) = len (tool_executions t)
  /\ _last_chat_count (snd (_detect_deltas t e self)) = len (chat_messages t)
  /\ _last_vuln_count (snd (_detect_deltas t e self)) = len (vulnerability_reports t).
Proof.
  unfold _detect_deltas. cbn [snd _last_tool_count _last_chat_count _last_vuln_count].
  rewrite !track_count_plain. auto.
Qed.

Lemma slice_from_app {A : Type} (old new : list A) : slice_from (len old) (old ++ new) = new.
Proof. unfold slice_from, len. rewrite Nat2Z.id. apply drop_app_length. Qed.

Lemma len_app_changed {A : Type} (old new : list A) :
  negb (len (old ++ new) =? len old) = match new with [] => false | _ => true end.
Proof.
  unfold len. rewrite length_app. destruct new as [|x new].
  - rewrite Nat.add_0_r, Z.eqb_refl. reflexivity.
  - cbn [length]. destruct (Z.eqb_spec (Z.of_nat (length old + S (length new)))
                              (Z.of_nat (length old))); [lia|reflexivity].
Qed.

(** X24. Between two polls the bridge reports exactly the chat messages and the
    vulnerability reports that were appended since the first. *)
Theorem appended_messages_are_reported (t t' : Tracer) (e e' : Env) (self : TracerBridge)
    (new_chat new_vulns : list string) :
  chat_messages t' = chat_messages t ++ new_chat ->
  vulnerability_reports t' = vulnerability_reports t ++ new_vulns ->
  omap chat_of (fst (_detect_deltas t' e' (snd (_detect_deltas t e self))))
  = match new_chat with [] => [] | _ => [new_chat] end
  /\ omap vulnerabilities_of (fst (_detect_deltas t' e' (snd (_detect_deltas t e self))))
     = match new_vulns with [] => [] | _ => [new_vulns] end.
Proof.
  intros Hchat Hvuln. rewrite chat_deltas, vulnerability_deltas.
  destruct (counts_after_poll t e self) as (_ & -> & ->).
  rewrite Hchat, Hvuln, !len_app_changed, !slice_from_app.
  destruct new_chat, new_vulns; auto.
Qed.

(** X25. The bridge detects chat messages and vulnerability reports by their
    number only: a change that keeps the number is not reported. *)
Theorem same_count_is_not_reported (t t' : Tracer) (e e' : Env) (self : TracerBridge) :
  (length (chat_messages t') = length (chat_messages t) ->
   omap chat_of (fst (_detect_deltas t' e' (snd (_detect_deltas t e self)))) = [])
  /\ (length (vulnerability_reports t') = length (vulnerability_reports t) ->
      omap vulnerabilities_of (fst (_detect_deltas t' e' (snd (_detect_deltas t e self))))
      = [])
  /\ (length (tool_executions t') = length (tool_executions t) ->
      omap tools_of (fst (_detect_deltas t' e' (snd (_detect_deltas t e self)))) = []).
Proof.
  rewrite chat_deltas, vulnerability_deltas, tools_deltas.
  destruct (counts_after_poll t e self) as (-> & -> & ->).
  unfold len. repeat split; intros ->; now rewrite Z.eqb_refl.
Qed.

(** X26. With execution ids numbered from 1 in the order of the executions, a
    tools update carries the executions added since the previous poll, all
    of them and no other. *)
Theorem new_tools_are_reported (t t' : Tracer) (e e' : Env) (self : TracerBridge)
    (new : list (Z * ToolExecution)) :
  tool_executions t' = tool_executions t ++ new ->
  Forall (fun kv => fst kv <= len (tool_executions t)) (tool_executions t) ->
  Forall (fun kv => len (tool_executions t) < fst kv) new ->
  omap tools_of (fst (_detect_deltas t' e' (snd (_detect_deltas t e self))))
  = match new with
    | [] => []
    | _ => [_serialize_tools (set_tool_executions new t') 0]
    end
  /\ length (_serialize_tools (set_tool_executions new t') 0) = length new.
Proof.
  intros Htools Hold Hnew. split; [|apply serialize_tools_all].
  rewrite tools_deltas. destruct (counts_after_poll t e self) as (-> & _ & _).
  rewrite Htools, len_app_changed. destruct new as [|x new]; [reflexivity|].
  rewrite (serialize_tools_of t' _ _ Htools), serialize_tools_app.
  assert (_serialize_tools (set_tool_executions (tool_executions t) t')
            (len (tool_executions t)) = []) as ->.
  { destruct (tool_executions t) as [|y old] eqn:Hexec; [reflexivity|].
    apply serialize_tools_skipped; [|exact Hold]. unfold len. cbn [length]. lia. }
  cbn [app]. rewrite (serialize_tools_kept t' (x :: new) _ Hnew).
  pose proof (serialize_tools_all t' (x :: new)) as Hlen.
  destruct (_serialize_tools (set_tool_executions (x :: new) t') 0); [discriminate|].
  reflexivity.
Qed.


Lemma appended_messages_are_reported_witness :
  omap chat_of
    (fst (_detect_deltas
            (set_messages (chat_messages idle_tracer ++ ["Found a login form"%string])
               (vulnerability_reports idle_tracer ++ ["SQL injection"%string]) idle_tracer)
            second_tick (snd (_detect_deltas idle_tracer first_tick new_bridge))))
  = [["Found a login form"%string]]
  /\ omap vulnerabilities_of
       (fst (_detect_deltas
               (set_messages (chat_messages idle_tracer ++ ["Found a login form"%string])
                  (vulnerability_reports idle_tracer ++ ["SQL injection"%string]) idle_tracer)
               second_tick (snd (_detect_deltas idle_tracer first_tick new_bridge))))
     = [["SQL injection"%string]].
Proof.
  apply (appended_messages_are_reported idle_tracer
           (set_messages (chat_messages idle_tracer ++ ["Found a login form"%string])
              (vulnerability_reports idle_tracer ++ ["SQL injection"%string]) idle_tracer)
           first_tick second_tick new_bridge
           ["Found a login form"%string] ["SQL injection"%string]);
    reflexivity.
Defined.

Lemma new_tools_are_reported_witness :
  omap tools_of
    (fst (_detect_deltas browsing_tracer second_tick
            (snd (_detect_deltas running_tracer first_tick new_bridge))))
  = [_serialize_tools
       (set_tool_executions [(1, captured "AAAA"); (2, captured "[rendered]")]
          browsing_tracer) 0]
  /\ length (_serialize_tools
               (set_tool_executions [(1, captured "AAAA"); (2, captured "[rendered]")]
                  browsing_tracer) 0)
     = length [(1, captured "AAAA"); (2, captured "[rendered]")].
Proof.
  apply (new_tools_are_reported running_tracer browsing_tracer first_tick second_tick
           new_bridge [(1, captured "AAAA"); (2, captured "[rendered]")]).
  - reflexivity.
  - constructor.
  - repeat constructor.
Defined.

(** *** Clients *)

Lemma remove_client_other (c x : Z) (l : list Z) :
  x ≠ c -> remove_client (c :: l) x = c :: remove_client l x.
Proof.
  intros Hne. unfold remove_client.
  destruct (decide (x ∈ l)) as [Hin|Hout].
  - rewrite !bool_decide_eq_true_2 by (try apply list_elem_of_further; exact Hin).
    cbn [list_remove]. destruct (Z.eqb_spec c x); [congruence|reflexivity].
  - rewrite !bool_decide_eq_false_2; [reflexivity|exact Hout|].
    intros Hin. apply elem_of_cons in Hin as [Heq|Hin]; [congruence|contradiction].
Qed.

Lemma remove_client_head (c : Z) (l : list Z) : remove_client (c :: l) c = l.
Proof.
  unfold remove_client. rewrite bool_decide_eq_true_2 by apply list_elem_of_here.
  cbn [list_remove]. now rewrite Z.eqb_refl.
Qed.

Lemma fold_remove_cons (dead : list Z) :
  forall (c : Z) (l : list Z),
    c ∉ dead ->
    fold_left remove_client dead (c :: l) = c :: fold_left remove_client dead l.
Proof.
  induction dead as [|x dead IH]; intros c l Hc; [reflexivity|].
  cbn [fold_left]. rewrite remove_client_other.
  - apply IH. intros Hin. apply Hc. now apply list_elem_of_further.
  - intros ->. apply Hc. apply list_elem_of_here.
Qed.

(** X27. [_broadcast] drops the clients whose send raised, every occurrence of
    them, and keeps the others in their order. *)
Theorem broadcast_drops_dead_clients (send_ok : Z -> bool) (_clients : list Z) :
  _broadcast send_ok _clients = filter (fun ws => send_ok ws = true) _clients.
Proof.
  unfold _broadcast. induction _clients as [|c l IH]; [reflexivity|].
  rewrite !filter_cons. destruct (send_ok c) eqn:Hc.
  - rewrite decide_False by discriminate. rewrite decide_True by reflexivity.
    rewrite fold_remove_cons; [now rewrite IH|].
    intros Hin. apply list_elem_of_filter in Hin as [Hdead _]. congruence.
  - rewrite decide_True by reflexivity. rewrite decide_False by discriminate.
    cbn [fold_left]. rewrite remove_client_head. exact IH.
Qed.

(** X28. [add_client] puts a client that is not in the list at its end, after
    the clients already there and in their order, and leaves the list as it
    is when the client is in it; so the list never holds a client twice.
    [remove_client] takes out the first occurrence of the client and keeps
    the others in their order, leaves the list as it is when the client is
    not in it, and removing a client that was just added gives the list
    back. *)
Theorem client_registry (_clients : list Z) (ws : Z) :
  ws ∈ add_client _clients ws
  /\ add_client (add_client _clients ws) ws = add_client _clients ws
  /\ (NoDup _clients -> NoDup (add_client _clients ws))
  /\ (ws ∉ _clients -> remove_client (add_client _clients ws) ws = _clients)
  /\ (NoDup _clients -> ws ∉ remove_client _clients ws)
  /\ (forall other, other ≠ ws ->
        (other ∈ add_client _clients ws <-> other ∈ _clients)
        /\ (other ∈ remove_client _clients ws <-> other ∈ _clients))
  /\ (ws ∉ _clients -> add_client _clients ws = _clients ++ [ws])
  /\ (ws ∈ _clients -> add_client _clients ws = _clients)
  /\ (forall before after, _clients = before ++ ws :: after -> ws ∉ before ->
        remove_client _clients ws = before ++ after)
  /\ (ws ∉ _clients -> remove_client _clients ws = _clients).
Proof.
  assert (forall l : list Z, ws ∉ l -> list_remove ws (l ++ [ws]) = l) as Hlast.
  { induction l as [|y l IH]; intros Hout; cbn [app list_remove].
    - now rewrite Z.eqb_refl.
    - destruct (Z.eqb_spec y ws) as [->|_].
      + exfalso. apply Hout. apply list_elem_of_here.
      + f_equal. apply IH. intros Hin. apply Hout. now apply list_elem_of_further. }
  assert (forall (l : list Z) other, other ≠ ws ->
             (other ∈ list_remove ws l <-> other ∈ l)) as Hother.
  { induction l as [|y l IH]; intros other Hne; cbn [list_remove]; [reflexivity|].
    destruct (Z.eqb_spec y ws) as [->|_].
    - rewrite elem_of_cons. split; [auto|]. intros [?|?]; [congruence|assumption].
    - rewrite !elem_of_cons, (IH other Hne). reflexivity. }
  assert (forall l : list Z, NoDup l -> ws ∉ list_remove ws l) as Hgone.
  { induction l as [|y l IH]; intros Hnd; cbn [list_remove]; [apply not_elem_of_nil|].
    apply NoDup_cons in Hnd as [Hy Hnd]. destruct (Z.eqb_spec y ws) as [->|Hne].
    - exact Hy.
    - intros Hin. apply elem_of_cons in Hin as [Heq|Hin]; [congruence|].
      now apply (IH Hnd). }
  assert (forall before after : list Z, ws ∉ before ->
             list_remove ws (before ++ ws :: after) = before ++ after) as Hfirst.
  { induction before as [|y l IH]; intros after Hout; cbn [app list_remove].
    - now rewrite Z.eqb_refl.
    - destruct (Z.eqb_spec y ws) as [->|_].
      + exfalso. apply Hout. apply list_elem_of_here.
      + f_equal. apply IH. intros Hin. apply Hout. now apply list_elem_of_further. }
  unfold add_client, remove_client.
  destruct (decide (ws ∈ _clients)) as [Hin|Hout].
  - rewrite !bool_decide_eq_true_2 by exact Hin.
    split; [exact Hin|]. split; [reflexivity|]. split; [auto|].
    split; [intros Hout; contradiction|]. split; [apply Hgone|].
    split; [intros other Hne; split; [reflexivity|now apply Hother]|].
    split; [intros Hout; contradiction|]. split; [reflexivity|].
    split; [|intros Hout; contradiction].
    intros before after -> Hbefore. now apply Hfirst.
  - rewrite !bool_decide_eq_false_2 by exact Hout.
    assert (ws ∈ _clients ++ [ws]) as Hin
      by (apply elem_of_app; right; apply list_elem_of_here).
    rewrite !bool_decide_eq_true_2 by exact Hin.
    split; [exact Hin|]. split; [reflexivity|]. split.
    { intros Hnd. apply NoDup_app. split; [exact Hnd|]. split; [|apply NoDup_singleton].
      intros x Hx Hx'. apply list_elem_of_singleton in Hx' as ->. contradiction. }
    split; [intros _; now apply Hlast|]. split; [intros _; exact Hout|].
    split.
    { intros other Hne. split; [|reflexivity].
      rewrite elem_of_app, list_elem_of_singleton. split; [|auto].
      intros [?|?]; [assumption|contradiction]. }
    split; [reflexivity|]. split; [intros Hin'; contradiction|].
    split; [|reflexivity].
    intros before after -> _. exfalso. apply Hout.
    apply elem_of_app. right. apply list_elem_of_here.
Qed.


(** *** Statistics and the clock *)

Lemma round_half_even_nonneg (q : Q) : (0 <= q)%Q -> 0 <= round_half_even q.
Proof.
  intros Hq. unfold round_half_even.
  assert (0 <= Qfloor q) as Hfloor.
  { change 0 with (Qfloor 0). now apply Qfloor_resp_le. }
  destruct (_ ?= _)%Q; [destruct (Z.even _)| |]; lia.
Qed.

(** X29. The throughput [_get_stats] reports is never negative. While a run is
    producing tokens and has not ended it follows the wall clock; once the
    run has an end time, or as long as no output token or start time is
    recorded, the statistics do not depend on the clock. *)
Theorem stats_and_the_clock (t : Tracer) (e1 e2 : Env) :
  0 <= stats_tokens_per_second_tenths (_get_stats t e1)
  /\ (pricing_data e1 = pricing_data e2 ->
      (exists et, end_time t = Some et /\ iso_text et ≠ ""%string)
      \/ total_output_tokens (default (mkLLMStats 0 0 "") (total_llm_stats t)) <= 0
      \/ start_time t = None ->
      _get_stats t e1 = _get_stats t e2).
Proof.
  split.
  - unfold _get_stats. cbn [stats_tokens_per_second_tenths]. unfold tokens_per_second_tenths.
    destruct (start_time t) as [st|]; [|lia].
    destruct (Py.truthy_str (iso_text st) && _) eqn:Hcond; [|lia].
    apply andb_true_iff in Hcond as [_ Hout]. apply Z.ltb_lt in Hout.
    destruct (iso_parsed st) as [start|]; [|lia].
    destruct (match end_time t with
              | Some et => if Py.truthy_str (iso_text et) then iso_parsed et
                           else Some (now_us e1)
              | None => Some (now_us e1)
              end) as [end_us|]; [|lia].
    destruct (Qle_bool ((end_us - start) # 1000000) 0) eqn:Hel; [lia|].
    apply round_half_even_nonneg.
    assert (0 < (end_us - start) # 1000000)%Q as Hpos.
    { apply Qnot_le_lt. intros Hle. apply Qle_bool_iff in Hle. congruence. }
    apply Qmult_le_0_compat; [|discriminate].
    apply Qmult_le_0_compat.
    + change 0%Q with (inject_Z 0). rewrite <- Zle_Qle. lia.
    + apply Qinv_le_0_compat. now apply Qlt_le_weak.
  - intros Hpricing Hcase. unfold _get_stats. rewrite Hpricing. f_equal.
    unfold tokens_per_second_tenths.
    destruct (start_time t) as [st|]; [|reflexivity].
    destruct Hcase as [(et & Het & Htext) | [Hout | Hstart]]; [| |discriminate].
    + rewrite Het. rewrite (AccountsFacts.truthy_str_ne _ Htext). reflexivity.
    + destruct (Z.ltb_spec 0 (total_output_tokens
                                (default (mkLLMStats 0 0 "") (total_llm_stats t))))
        as [|_]; [lia|].
      now rewrite andb_false_r.
Qed.

Lemma stats_and_the_clock_witness :
  0 <= stats_tokens_per_second_tenths (_get_stats ended_tracer first_tick)
  /\ (pricing_data first_tick = pricing_data second_tick ->
      (exists et, end_time ended_tracer = Some et /\ iso_text et ≠ ""%string)
      \/ total_output_tokens (default (mkLLMStats 0 0 "") (total_llm_stats ended_tracer)) <= 0
      \/ start_time ended_tracer = None ->
      _get_stats ended_tracer first_tick = _get_stats ended_tracer second_tick).
Proof. exact (stats_and_the_clock ended_tracer first_tick second_tick). Defined.

(** *** The screenshot endpoint *)

Lemma usable_screenshot_Some (items : list (string * string)) (ss : string) :
  usable_screenshot items = Some ss ->
  Pricing.dict_get items "screenshot" = Some ss
  /\ ss ≠ ""%string /\ ss ≠ "[rendered]"%string.
Proof.
  unfold usable_screenshot.
  destruct (Pricing.dict_get items "screenshot") as [s|]; [|discriminate].
  destruct (Py.truthy_str s && negb (String.eqb s "[rendered]")) eqn:Hok; [|discriminate].
  intros [= ->]. apply andb_true_iff in Hok as [Htruthy Hne].
  split; [reflexivity|]. split.
  - intros ->. discriminate.
  - apply negb_true_iff in Hne. now apply String.eqb_neq in Hne.
Qed.

Lemma exec_get_In (d : list (Z * ToolExecution)) (k : Z) (v : ToolExecution) :
  exec_get d k = Some v -> (k, v) ∈ d.
Proof.
  induction d as [|[k' v'] d IH]; [discriminate|]. cbn [exec_get].
  destruct (Z.eqb_spec k' k) as [->|_].
  - intros [= ->]. apply list_elem_of_here.
  - intros Hget. now apply list_elem_of_further, IH.
Qed.

Lemma scan_step_scanned (agent_id : string) (l : list (Z * ToolExecution))
    (st : Z * option string * string) (kv : Z * ToolExecution) :
  kv ∈ l -> -1 <= fst (fst st) -> scanned agent_id l st ->
  scanned agent_id l (scan_step agent_id st kv)
  /\ -1 <= fst (fst (scan_step agent_id st kv)).
Proof.
  destruct st as [[best ss0] url0], kv as [eid td]. intros Hin Hbest Hst.
  unfold scan_step.
  destruct (String.eqb_spec (tool_name td) "browser_action") as [Hname|_];
    cbn [negb]; [|auto].
  destruct (String.eqb_spec (tool_agent_id td) agent_id) as [Hagent|_];
    cbn [negb]; [|auto].
  destruct (tool_result td) as [|items|text] eqn:Hres; [auto| |auto].
  destruct (usable_screenshot items) as [ss|] eqn:Huse; [|auto].
  destruct (Z.ltb_spec best eid) as [Hlt|_]; [|auto].
  cbn [fst snd] in *. split; [|lia].
  intros s [= <-]. exists td, items. cbn [fst snd]. repeat split; auto. lia.
Qed.

Lemma scan_scanned (agent_id : string) (l : list (Z * ToolExecution)) :
  forall (todo : list (Z * ToolExecution)) (st : Z * option string * string),
    (forall kv, kv ∈ todo -> kv ∈ l) ->
    -1 <= fst (fst st) -> scanned agent_id l st ->
    scanned agent_id l (fold_left (scan_step agent_id) todo st).
Proof.
  induction todo as [|kv todo IH]; intros st Hsub Hbest Hst; [exact Hst|].
  cbn [fold_left].
  destruct (scan_step_scanned agent_id l st kv (Hsub kv (list_elem_of_here _ _)) Hbest Hst)
    as [Hst' Hbest'].
  apply IH; [|exact Hbest'|exact Hst'].
  intros kv' Hkv'. apply Hsub. now apply list_elem_of_further.
Qed.

(** X30. [get_screenshot] answers for the agent it was asked about; the capture
    it returns is the capture of some recorded execution, never the empty
    string and never the placeholder [[rendered]]; without a capture the url
    is empty. *)
Theorem get_screenshot_sound (t : Tracer) (agent_id : string) :
  shot_agent_id (get_screenshot t agent_id) = agent_id
  /\ (forall ss, shot_screenshot (get_screenshot t agent_id) = Some ss ->
      ss ≠ ""%string /\ ss ≠ "[rendered]"%string
      /\ exists eid data items,
           (eid, data) ∈ tool_executions t
           /\ tool_result data = DictResult items
           /\ Pricing.dict_get items "screenshot" = Some ss)
  /\ (shot_screenshot (get_screenshot t agent_id) = None ->
      shot_url (get_screenshot t agent_id) = ""%string).
Proof.
  unfold get_screenshot.
  set (exec_id := Pricing.dict_get (latest_browser_screenshots t) agent_id).
  assert (forall found : Screenshot,
             (exists data items ss,
                 (default 0 exec_id, data) ∈ tool_executions t
                 /\ tool_result data = DictResult items
                 /\ usable_screenshot items = Some ss
                 /\ found = mkScreenshot (Some ss) (screenshot_url items data) agent_id) ->
             shot_agent_id found = agent_id
             /\ (forall ss, shot_screenshot found = Some ss ->
                 ss ≠ ""%string /\ ss ≠ "[rendered]"%string
                 /\ exists eid data items,
                      (eid, data) ∈ tool_executions t
                      /\ tool_result data = DictResult items
                      /\ Pricing.dict_get items "screenshot" = Some ss)
             /\ (shot_screenshot found = None -> shot_url found = ""%string)) as Hdirect.
  { intros found (data & items & ss & Hin & Hres & Huse & ->).
    cbn [shot_agent_id shot_screenshot shot_url].
    apply usable_screenshot_Some in Huse as (Hget & Hne & Hnr).
    split; [reflexivity|]. split; [|discriminate].
    intros s [= <-]. split; [exact Hne|]. split; [exact Hnr|]. eauto 6. }
  assert (shot_agent_id
            (let '(_, best_screenshot, best_url) :=
               fold_left (scan_step agent_id) (tool_executions t) (-1, None, ""%string) in
             if Py.truthy_ostr best_screenshot
             then mkScreenshot best_screenshot best_url agent_id
             else mkScreenshot None "" agent_id) = agent_id
          /\ (forall ss,
                 shot_screenshot
                   (let '(_, best_screenshot, best_url) :=
                      fold_left (scan_step agent_id) (tool_executions t)
                        (-1, None, ""%string) in
                    if Py.truthy_ostr best_screenshot
                    then mkScreenshot best_screenshot best_url agent_id
                    else mkScreenshot None "" agent_id) = Some ss ->
                 ss ≠ ""%string /\ ss ≠ "[rendered]"%string
                 /\ exists eid data items,
                      (eid, data) ∈ tool_executions t
                      /\ tool_result data = DictResult items
                      /\ Pricing.dict_get items "screenshot" = Some ss)
          /\ (shot_screenshot
                (let '(_, best_screenshot, best_url) :=
                   fold_left (scan_step agent_id) (tool_executions t)
                     (-1, None, ""%string) in
                 if Py.truthy_ostr best_screenshot
                 then mkScreenshot best_screenshot best_url agent_id
                 else mkScreenshot None "" agent_id) = None ->
              shot_url
                (let '(_, best_screenshot, best_url) :=
                   fold_left (scan_step agent_id) (tool_executions t)
                     (-1, None, ""%string) in
                 if Py.truthy_ostr best_screenshot
                 then mkScreenshot best_screenshot best_url agent_id
                 else mkScreenshot None "" agent_id) = ""%string)) as Hscan.
  { pose proof (scan_scanned agent_id (tool_executions t) (tool_executions t)
                  (-1, None, ""%string) (fun kv H => H) ltac:(cbn; lia)
                  ltac:(intros ss; discriminate)) as Hinv.
    destruct (fold_left _ _ _) as [[best ss0] url0]. unfold scanned in Hinv.
    cbn [fst snd] in Hinv.
    destruct (Py.truthy_ostr ss0) eqn:Htruthy; cbn [shot_agent_id shot_screenshot shot_url].
    - split; [reflexivity|]. split.
      + intros ss ->. destruct (Hinv ss eq_refl) as (data & items & Hin & _ & _ & _ & Hres & Huse).
        apply usable_screenshot_Some in Huse as (Hget & Hne & Hnr). eauto 8.
      + intros ->. discriminate.
    - split; [reflexivity|]. split; [discriminate|reflexivity]. }
  destruct (Py.truthy_int exec_id); [|exact Hscan].
  destruct (exec_get (tool_executions t) (default 0 exec_id)) as [tool_data|] eqn:Hget;
    [|exact Hscan].
  destruct (tool_result tool_data) as [|result|text] eqn:Hres; try exact Hscan.
  destruct (usable_screenshot result) as [screenshot|] eqn:Huse; [|exact Hscan].
  apply Hdirect. exists tool_data, result, screenshot.
  split; [now apply exec_get_In|]. auto.
Qed.

(** The endpoint on a run with one capture and one rendered placeholder:
    the placeholder is passed over although its execution is the later one. *)
Example get_screenshot_skips_rendered :
  get_screenshot browsing_tracer "agent-1"
  = mkScreenshot (Some "AAAA"%string) "https://example.test" "agent-1"
  /\ get_screenshot browsing_tracer "agent-2" = mkScreenshot None "" "agent-2".
Proof. vm_compute. split; reflexivity. Qed.

End FanoutFacts.
